(** * The resilient duplex messaging client (WebSocketProvider)

    A shallow embedding of [contexts/WebSocketContext.tsx]: the React
    provider that owns the WebSocket, the table of pending requests
    ([messageCallbacksRef]), the outbound queue ([messageQueueRef]), the
    reconnect counter and the heartbeat interval.

    The provider is event driven.  Every handler of the source
    ([ws.onopen], [ws.onmessage], [ws.onclose], [ws.onerror], the timer
    callbacks, [sendMessage], [reconnect]) becomes a function on [World],
    the record of everything the handlers read and write; the browser is
    the environment that picks the next [Event].

    Modelling decisions, each taken from the source:
    - [Date.now()] is an effect: it returns [clock (reads w)] and moves to
      the next reading, so two reads in the same turn may or may not agree;
    - WebSocket objects have identity (an index into [sockets]): the
      handlers of an old socket keep writing the shared refs;
    - [messageCallbacksRef] is a JS [Map]: an association list kept in
      insertion order, [set] overwriting in place;
    - promises are numbered; every call of a [resolve] or [reject] function
      is appended to [settle_log], and the state of a promise is the first
      entry that names it;
    - promise reactions run as soon as the promise settles.  In the source
      they run as microtasks at the end of the same task, and every settle
      whose reaction touches the refs is the last statement of its task;
    - [setTimeout(f, d)] arms a timer due [d] ms after the time of the
      turn; the browser runs it at or after that time;
    - [sendMessage] reads the React state [connectionState] as last
      written.  In the source it reads the constant its closure captured
      at the last render, so the model has every call made from a render
      that has seen all earlier updates: two calls within one task, the
      second still seeing the value from before the first one called
      [reconnect()], are not a run of [step].  [sendMessageRoute] and
      [settle] take the captured value as a parameter, and the lemmas
      about them hold for every value;
    - whether [new WebSocket(url)] throws is asked of [ctor_throws] at the
      number of sockets created so far, which a call that throws does not
      advance: a call that throws and a later one that succeeds, with no
      socket created in between, are not a run of [step];
    - a 'service_status' message is recorded in [sink] whether or not
      [window.electronAPI.updateServiceStatus] is defined; no statement
      below mentions [sink]. *)

From Stdlib Require Import ZArith List String Bool Lia DecimalString.
Import ListNotations.
Open Scope string_scope.
Open Scope list_scope.
Open Scope Z_scope.

(** ** Data *)

(** [WebSocket.readyState]. *)
Inductive ReadyState := CONNECTING | OPEN | CLOSING | CLOSED.

(** The React state [connectionState]. *)
Inductive ConnectionState := connecting | connected | disconnected | error.

Definition ReadyState_eqb (a b : ReadyState) : bool :=
  match a, b with
  | CONNECTING, CONNECTING | OPEN, OPEN | CLOSING, CLOSING | CLOSED, CLOSED => true
  | _, _ => false
  end.

(** [interface ChatRequest]. *)
Record ChatRequest := {
  req_message : string;
  req_include_audio : option bool;
  req_audio_data : option string;
  req_context_id : option string
}.

(** [interface ChatResponse], the fields the provider reads or writes. *)
Record ChatResponse := {
  message : string;
  context_id : string;
  timestamp : string
}.

(** What a promise is settled with: [resolve(value)] or [reject(new Error(msg))]. *)
Inductive Outcome :=
| Fulfilled (r : ChatResponse)
| Rejected (msg : string).

Definition Promise := nat.

(** An entry of [messageQueueRef.current].  [resolve] and [reject] belong to
    the promise handed to the caller of [sendMessage]. *)
Record QueuedMessage := {
  request : ChatRequest;
  q_caller : Promise;
  q_timestamp : Z
}.

(** The argument of [ws.send], before [JSON.stringify]. *)
Inductive Frame :=
| PingFrame (ts : Z)
| ChatFrame (req : ChatRequest) (messageId : string).

(** [event.data] of a message event, after [JSON.parse]. *)
Inductive Inbound :=
| Malformed
| Parsed (type : string) (data : option ChatResponse).

(** What is waiting on the promise returned by [sendMessageInternal]. *)
Inductive Reaction :=
| Forward (caller : Promise)
| Await (caller : Promise) (req : ChatRequest) (captured : ConnectionState).

Inductive TimerAction :=
| RequestTimeout (messageId : string) (p : Promise)
| ReconnectTimer
| HeartbeatInterval.

Record Timer := { due : Z; action : TimerAction }.

Inductive SinkEvent :=
| SettingsUpdated (d : option ChatResponse)
| ServiceStatus (d : option ChatResponse).

Record World := {
  (* the runtime *)
  reads : nat;
  sockets : list ReadyState;
  wire : list (nat * Frame);
  timers : list (nat * Timer);
  next_timer : nat;
  reactions : list (Promise * Reaction);
  next_promise : nat;
  settle_log : list (Promise * Outcome);
  http_calls : list (Promise * ChatRequest);
  sink : list SinkEvent;
  (* the provider's state and refs *)
  isConnected : bool;
  connectionState : ConnectionState;
  lastMessage : option Inbound;
  wsRef : option nat;
  reconnectTimeoutRef : option nat;
  heartbeatTimeoutRef : option nat;
  messageCallbacksRef : list (string * Promise);
  messageQueueRef : list QueuedMessage;
  reconnectAttempts : nat
}.

Definition maxReconnectAttempts : nat := 10.

Definition init : World :=
  {| reads := 0; sockets := []; wire := []; timers := []; next_timer := 0;
     reactions := []; next_promise := 0; settle_log := []; http_calls := [];
     sink := [];
     isConnected := false; connectionState := disconnected;
     lastMessage := None; wsRef := None;
     reconnectTimeoutRef := None; heartbeatTimeoutRef := None;
     messageCallbacksRef := []; messageQueueRef := [];
     reconnectAttempts := 0 |}.

(** Field updates. *)
Definition set_reads (v : nat) (w : World) : World :=
  {| reads := v; sockets := sockets w; wire := wire w; timers := timers w;
     next_timer := next_timer w; reactions := reactions w;
     next_promise := next_promise w; settle_log := settle_log w;
     http_calls := http_calls w; sink := sink w;
     isConnected := isConnected w; connectionState := connectionState w;
     lastMessage := lastMessage w; wsRef := wsRef w;
     reconnectTimeoutRef := reconnectTimeoutRef w;
     heartbeatTimeoutRef := heartbeatTimeoutRef w;
     messageCallbacksRef := messageCallbacksRef w;
     messageQueueRef := messageQueueRef w;
     reconnectAttempts := reconnectAttempts w |}.
Definition set_sockets (v : list ReadyState) (w : World) : World :=
  {| reads := reads w; sockets := v; wire := wire w; timers := timers w;
     next_timer := next_timer w; reactions := reactions w;
     next_promise := next_promise w; settle_log := settle_log w;
     http_calls := http_calls w; sink := sink w;
     isConnected := isConnected w; connectionState := connectionState w;
     lastMessage := lastMessage w; wsRef := wsRef w;
     reconnectTimeoutRef := reconnectTimeoutRef w;
     heartbeatTimeoutRef := heartbeatTimeoutRef w;
     messageCallbacksRef := messageCallbacksRef w;
     messageQueueRef := messageQueueRef w;
     reconnectAttempts := reconnectAttempts w |}.
Definition set_wire (v : list (nat * Frame)) (w : World) : World :=
  {| reads := reads w; sockets := sockets w; wire := v; timers := timers w;
     next_timer := next_timer w; reactions := reactions w;
     next_promise := next_promise w; settle_log := settle_log w;
     http_calls := http_calls w; sink := sink w;
     isConnected := isConnected w; connectionState := connectionState w;
     lastMessage := lastMessage w; wsRef := wsRef w;
     reconnectTimeoutRef := reconnectTimeoutRef w;
     heartbeatTimeoutRef := heartbeatTimeoutRef w;
     messageCallbacksRef := messageCallbacksRef w;
     messageQueueRef := messageQueueRef w;
     reconnectAttempts := reconnectAttempts w |}.
Definition set_timers (v : list (nat * Timer)) (w : World) : World :=
  {| reads := reads w; sockets := sockets w; wire := wire w; timers := v;
     next_timer := next_timer w; reactions := reactions w;
     next_promise := next_promise w; settle_log := settle_log w;
     http_calls := http_calls w; sink := sink w;
     isConnected := isConnected w; connectionState := connectionState w;
     lastMessage := lastMessage w; wsRef := wsRef w;
     reconnectTimeoutRef := reconnectTimeoutRef w;
     heartbeatTimeoutRef := heartbeatTimeoutRef w;
     messageCallbacksRef := messageCallbacksRef w;
     messageQueueRef := messageQueueRef w;
     reconnectAttempts := reconnectAttempts w |}.
Definition set_next_timer (v : nat) (w : World) : World :=
  {| reads := reads w; sockets := sockets w; wire := wire w;
     timers := timers w; next_timer := v; reactions := reactions w;
     next_promise := next_promise w; settle_log := settle_log w;
     http_calls := http_calls w; sink := sink w;
     isConnected := isConnected w; connectionState := connectionState w;
     lastMessage := lastMessage w; wsRef := wsRef w;
     reconnectTimeoutRef := reconnectTimeoutRef w;
     heartbeatTimeoutRef := heartbeatTimeoutRef w;
     messageCallbacksRef := messageCallbacksRef w;
     messageQueueRef := messageQueueRef w;
     reconnectAttempts := reconnectAttempts w |}.
Definition set_reactions (v : list (Promise * Reaction)) (w : World) : World :=
  {| reads := reads w; sockets := sockets w; wire := wire w;
     timers := timers w; next_timer := next_timer w; reactions := v;
     next_promise := next_promise w; settle_log := settle_log w;
     http_calls := http_calls w; sink := sink w;
     isConnected := isConnected w; connectionState := connectionState w;
     lastMessage := lastMessage w; wsRef := wsRef w;
     reconnectTimeoutRef := reconnectTimeoutRef w;
     heartbeatTimeoutRef := heartbeatTimeoutRef w;
     messageCallbacksRef := messageCallbacksRef w;
     messageQueueRef := messageQueueRef w;
     reconnectAttempts := reconnectAttempts w |}.
Definition set_next_promise (v : nat) (w : World) : World :=
  {| reads := reads w; sockets := sockets w; wire := wire w;
     timers := timers w; next_timer := next_timer w;
     reactions := reactions w; next_promise := v; settle_log := settle_log w;
     http_calls := http_calls w; sink := sink w;
     isConnected := isConnected w; connectionState := connectionState w;
     lastMessage := lastMessage w; wsRef := wsRef w;
     reconnectTimeoutRef := reconnectTimeoutRef w;
     heartbeatTimeoutRef := heartbeatTimeoutRef w;
     messageCallbacksRef := messageCallbacksRef w;
     messageQueueRef := messageQueueRef w;
     reconnectAttempts := reconnectAttempts w |}.
Definition set_settle_log (v : list (Promise * Outcome)) (w : World) : World :=
  {| reads := reads w; sockets := sockets w; wire := wire w;
     timers := timers w; next_timer := next_timer w;
     reactions := reactions w; next_promise := next_promise w;
     settle_log := v; http_calls := http_calls w; sink := sink w;
     isConnected := isConnected w; connectionState := connectionState w;
     lastMessage := lastMessage w; wsRef := wsRef w;
     reconnectTimeoutRef := reconnectTimeoutRef w;
     heartbeatTimeoutRef := heartbeatTimeoutRef w;
     messageCallbacksRef := messageCallbacksRef w;
     messageQueueRef := messageQueueRef w;
     reconnectAttempts := reconnectAttempts w |}.
Definition set_http_calls (v : list (Promise * ChatRequest)) (w : World) : World :=
  {| reads := reads w; sockets := sockets w; wire := wire w;
     timers := timers w; next_timer := next_timer w;
     reactions := reactions w; next_promise := next_promise w;
     settle_log := settle_log w; http_calls := v; sink := sink w;
     isConnected := isConnected w; connectionState := connectionState w;
     lastMessage := lastMessage w; wsRef := wsRef w;
     reconnectTimeoutRef := reconnectTimeoutRef w;
     heartbeatTimeoutRef := heartbeatTimeoutRef w;
     messageCallbacksRef := messageCallbacksRef w;
     messageQueueRef := messageQueueRef w;
     reconnectAttempts := reconnectAttempts w |}.
Definition set_sink (v : list SinkEvent) (w : World) : World :=
  {| reads := reads w; sockets := sockets w; wire := wire w;
     timers := timers w; next_timer := next_timer w;
     reactions := reactions w; next_promise := next_promise w;
     settle_log := settle_log w; http_calls := http_calls w; sink := v;
     isConnected := isConnected w; connectionState := connectionState w;
     lastMessage := lastMessage w; wsRef := wsRef w;
     reconnectTimeoutRef := reconnectTimeoutRef w;
     heartbeatTimeoutRef := heartbeatTimeoutRef w;
     messageCallbacksRef := messageCallbacksRef w;
     messageQueueRef := messageQueueRef w;
     reconnectAttempts := reconnectAttempts w |}.
Definition setIsConnected (v : bool) (w : World) : World :=
  {| reads := reads w; sockets := sockets w; wire := wire w;
     timers := timers w; next_timer := next_timer w;
     reactions := reactions w; next_promise := next_promise w;
     settle_log := settle_log w; http_calls := http_calls w; sink := sink w;
     isConnected := v; connectionState := connectionState w;
     lastMessage := lastMessage w; wsRef := wsRef w;
     reconnectTimeoutRef := reconnectTimeoutRef w;
     heartbeatTimeoutRef := heartbeatTimeoutRef w;
     messageCallbacksRef := messageCallbacksRef w;
     messageQueueRef := messageQueueRef w;
     reconnectAttempts := reconnectAttempts w |}.
Definition setConnectionState (v : ConnectionState) (w : World) : World :=
  {| reads := reads w; sockets := sockets w; wire := wire w;
     timers := timers w; next_timer := next_timer w;
     reactions := reactions w; next_promise := next_promise w;
     settle_log := settle_log w; http_calls := http_calls w; sink := sink w;
     isConnected := isConnected w; connectionState := v;
     lastMessage := lastMessage w; wsRef := wsRef w;
     reconnectTimeoutRef := reconnectTimeoutRef w;
     heartbeatTimeoutRef := heartbeatTimeoutRef w;
     messageCallbacksRef := messageCallbacksRef w;
     messageQueueRef := messageQueueRef w;
     reconnectAttempts := reconnectAttempts w |}.
Definition setLastMessage (v : Inbound) (w : World) : World :=
  {| reads := reads w; sockets := sockets w; wire := wire w;
     timers := timers w; next_timer := next_timer w;
     reactions := reactions w; next_promise := next_promise w;
     settle_log := settle_log w; http_calls := http_calls w; sink := sink w;
     isConnected := isConnected w; connectionState := connectionState w;
     lastMessage := Some v; wsRef := wsRef w;
     reconnectTimeoutRef := reconnectTimeoutRef w;
     heartbeatTimeoutRef := heartbeatTimeoutRef w;
     messageCallbacksRef := messageCallbacksRef w;
     messageQueueRef := messageQueueRef w;
     reconnectAttempts := reconnectAttempts w |}.
Definition set_wsRef (v : option nat) (w : World) : World :=
  {| reads := reads w; sockets := sockets w; wire := wire w;
     timers := timers w; next_timer := next_timer w;
     reactions := reactions w; next_promise := next_promise w;
     settle_log := settle_log w; http_calls := http_calls w; sink := sink w;
     isConnected := isConnected w; connectionState := connectionState w;
     lastMessage := lastMessage w; wsRef := v;
     reconnectTimeoutRef := reconnectTimeoutRef w;
     heartbeatTimeoutRef := heartbeatTimeoutRef w;
     messageCallbacksRef := messageCallbacksRef w;
     messageQueueRef := messageQueueRef w;
     reconnectAttempts := reconnectAttempts w |}.
Definition set_reconnectTimeoutRef (v : option nat) (w : World) : World :=
  {| reads := reads w; sockets := sockets w; wire := wire w;
     timers := timers w; next_timer := next_timer w;
     reactions := reactions w; next_promise := next_promise w;
     settle_log := settle_log w; http_calls := http_calls w; sink := sink w;
     isConnected := isConnected w; connectionState := connectionState w;
     lastMessage := lastMessage w; wsRef := wsRef w;
     reconnectTimeoutRef := v; heartbeatTimeoutRef := heartbeatTimeoutRef w;
     messageCallbacksRef := messageCallbacksRef w;
     messageQueueRef := messageQueueRef w;
     reconnectAttempts := reconnectAttempts w |}.
Definition set_heartbeatTimeoutRef (v : option nat) (w : World) : World :=
  {| reads := reads w; sockets := sockets w; wire := wire w;
     timers := timers w; next_timer := next_timer w;
     reactions := reactions w; next_promise := next_promise w;
     settle_log := settle_log w; http_calls := http_calls w; sink := sink w;
     isConnected := isConnected w; connectionState := connectionState w;
     lastMessage := lastMessage w; wsRef := wsRef w;
     reconnectTimeoutRef := reconnectTimeoutRef w; heartbeatTimeoutRef := v;
     messageCallbacksRef := messageCallbacksRef w;
     messageQueueRef := messageQueueRef w;
     reconnectAttempts := reconnectAttempts w |}.
Definition set_messageCallbacksRef (v : list (string * Promise)) (w : World) : World :=
  {| reads := reads w; sockets := sockets w; wire := wire w;
     timers := timers w; next_timer := next_timer w;
     reactions := reactions w; next_promise := next_promise w;
     settle_log := settle_log w; http_calls := http_calls w; sink := sink w;
     isConnected := isConnected w; connectionState := connectionState w;
     lastMessage := lastMessage w; wsRef := wsRef w;
     reconnectTimeoutRef := reconnectTimeoutRef w;
     heartbeatTimeoutRef := heartbeatTimeoutRef w; messageCallbacksRef := v;
     messageQueueRef := messageQueueRef w;
     reconnectAttempts := reconnectAttempts w |}.
Definition set_messageQueueRef (v : list QueuedMessage) (w : World) : World :=
  {| reads := reads w; sockets := sockets w; wire := wire w;
     timers := timers w; next_timer := next_timer w;
     reactions := reactions w; next_promise := next_promise w;
     settle_log := settle_log w; http_calls := http_calls w; sink := sink w;
     isConnected := isConnected w; connectionState := connectionState w;
     lastMessage := lastMessage w; wsRef := wsRef w;
     reconnectTimeoutRef := reconnectTimeoutRef w;
     heartbeatTimeoutRef := heartbeatTimeoutRef w;
     messageCallbacksRef := messageCallbacksRef w; messageQueueRef := v;
     reconnectAttempts := reconnectAttempts w |}.
Definition set_reconnectAttempts (v : nat) (w : World) : World :=
  {| reads := reads w; sockets := sockets w; wire := wire w;
     timers := timers w; next_timer := next_timer w;
     reactions := reactions w; next_promise := next_promise w;
     settle_log := settle_log w; http_calls := http_calls w; sink := sink w;
     isConnected := isConnected w; connectionState := connectionState w;
     lastMessage := lastMessage w; wsRef := wsRef w;
     reconnectTimeoutRef := reconnectTimeoutRef w;
     heartbeatTimeoutRef := heartbeatTimeoutRef w;
     messageCallbacksRef := messageCallbacksRef w;
     messageQueueRef := messageQueueRef w; reconnectAttempts := v |}.

(** ** The JS [Map] behind [messageCallbacksRef] *)

Module JsMap.
Section Ops.
Context {V : Type}.

Fixpoint get (k : string) (m : list (string * V)) : option V :=
  match m with
  | [] => None
  | (k', v) :: m' => if String.eqb k k' then Some v else get k m'
  end.

Definition has (k : string) (m : list (string * V)) : bool :=
  match get k m with Some _ => true | None => false end.

(** [Map.prototype.set]: an existing key keeps its position and takes
    the new value; a new key goes last. *)
Fixpoint set (k : string) (v : V) (m : list (string * V)) : list (string * V) :=
  match m with
  | [] => [(k, v)]
  | (k', v') :: m' =>
      if String.eqb k k' then (k', v) :: m' else (k', v') :: set k v m'
  end.

Fixpoint delete (k : string) (m : list (string * V)) : list (string * V) :=
  match m with
  | [] => []
  | (k', v') :: m' =>
      if String.eqb k k' then m' else (k', v') :: delete k m'
  end.

Definition keys (m : list (string * V)) : list string := map fst m.

(** No key occurs twice. *)
Fixpoint uniqueKeys (m : list (string * V)) : bool :=
  match m with
  | [] => true
  | (k, _) :: m' => negb (has k m') && uniqueKeys m'
  end.
End Ops.
End JsMap.

(** ** Backoff *)

(** [Math.min(Math.pow(2, reconnectAttempts.current) * 1000, 30000)]. *)
Definition reconnectDelay (attempts : nat) : Z :=
  Z.min (2 ^ Z.of_nat attempts * 1000) 30000.

(** [Date.now().toString()]. *)
Definition toString (z : Z) : string := NilZero.string_of_int (Z.to_int z).

(** ** Sample environments and states *)

Definition chat (m : string) : ChatRequest :=
  {| req_message := m; req_include_audio := None; req_audio_data := None;
     req_context_id := None |}.

(** The constructor of the socket never throws. *)
Definition neverThrows (_ : nat) : bool := false.

(** A stand-in for [toISOString]: the millisecond count in decimal. *)
Definition isoMillis (t : Z) : string := toString t.

(** Seven readings within the same millisecond, then one every 40 s. *)
Definition burstClock (n : nat) : Z :=
  if (n <=? 6)%nat then 1000 else 1000 + 40000 * Z.of_nat n.

(** 400 seconds between two readings. *)
Definition slowClock (n : nat) : Z := 400000 * Z.of_nat n.

(** After mounting: the first socket is connecting. *)
Definition connectingWorld : World :=
  set_wsRef (Some 0%nat)
    (set_sockets [CONNECTING] (setConnectionState connecting init)).

(** After the handshake, under [burstClock]. *)
Definition openWorld : World :=
  set_heartbeatTimeoutRef (Some 0%nat)
    (set_next_timer 1%nat
       (set_timers [(0%nat, {| due := 31000; action := HeartbeatInterval |})]
          (setIsConnected true
             (setConnectionState connected
                (set_wsRef (Some 0%nat) (set_sockets [OPEN] init)))))).

(** Requests A and B submitted while connecting, under [burstClock]. *)
Definition queuedWorld : World :=
  set_reads 2%nat
    (set_next_promise 2%nat
       (set_messageQueueRef
          [{| request := chat "A"; q_caller := 0%nat; q_timestamp := 1000 |};
           {| request := chat "B"; q_caller := 1%nat; q_timestamp := 1000 |}]
          connectingWorld)).

(** Request A submitted while connecting, under [slowClock]. *)
Definition staleWorld : World :=
  set_reads 1%nat
    (set_next_promise 1%nat
       (set_messageQueueRef
          [{| request := chat "A"; q_caller := 0%nat; q_timestamp := 0 |}]
          connectingWorld)).

(** Request A sent on the open socket and not answered, under [burstClock]. *)
Definition pendingWorld : World :=
  set_reads 1%nat
    (set_next_promise 2%nat
       (set_reactions [(1%nat, Await 0%nat (chat "A") connected)]
          (set_messageCallbacksRef [("1000", 1%nat)]
             (set_wire [(0%nat, ChatFrame (chat "A") "1000")]
                (set_next_timer 2%nat
                   (set_timers
                      [(0%nat, {| due := 31000; action := HeartbeatInterval |});
                       (1%nat, {| due := 31000;
                                  action := RequestTimeout "1000" 1%nat |})]
                      openWorld)))))).

(** The first socket closed abnormally before it opened, under [burstClock]. *)
Definition closedWorld : World :=
  set_reconnectTimeoutRef (Some 0%nat)
    (set_next_timer 1%nat
       (set_timers [(0%nat, {| due := 2000; action := ReconnectTimer |})]
          (set_sockets [CLOSED] init))).

(** Request A submitted while connecting and sent from the queue when the
    socket opened, under [burstClock]. *)
Definition drainedWorld : World :=
  set_reads 3%nat
    (set_next_promise 2%nat
       (set_reactions [(1%nat, Forward 0%nat)]
          (set_messageCallbacksRef [("1000", 1%nat)]
             (set_wire [(0%nat, ChatFrame (chat "A") "1000")]
                (set_heartbeatTimeoutRef (Some 1%nat)
                   (set_next_timer 2%nat
                      (set_timers
                         [(0%nat, {| due := 31000;
                                     action := RequestTimeout "1000" 1%nat |});
                          (1%nat, {| due := 31000;
                                     action := HeartbeatInterval |})]
                         (setIsConnected true
                            (setConnectionState connected
                               (set_wsRef (Some 0%nat)
                                  (set_sockets [OPEN] init))))))))))).

(** Request A timed out on the open socket and is now an HTTP call in
    flight, under [burstClock]. *)
Definition fallbackWorld : World :=
  set_http_calls [(0%nat, chat "A")]
    (set_settle_log [(1%nat, Rejected "Message timeout")]
       (set_reads 7%nat
          (set_timers [(0%nat, {| due := 31000; action := HeartbeatInterval |})]
             (set_messageCallbacksRef [] pendingWorld)))).

(** The server's answer to the request sent under id "1000". *)
Definition answer : ChatResponse :=
  {| message := "hello"; context_id := "1000"; timestamp := "t" |}.

(** ** The provider *)

Section Provider.

(** The environment: the readings of the system clock in the order the
    program and the timer queue take them, whether [new WebSocket(url)]
    throws when [n] sockets have been created so far, and
    [Date.prototype.toISOString]. *)
Variable clock : nat -> Z.
Variable ctor_throws : nat -> bool.
Variable toISOString : Z -> string.

(** The time of the turn that is running. *)
Definition now (w : World) : Z := clock (reads w).

(** [Date.now()] (and [new Date()]). *)
Definition Date_now (w : World) : Z * World :=
  (now w, set_reads (S (reads w)) w).

(** *** Runtime services *)

Definition setTimer (delay : Z) (a : TimerAction) (w : World) : nat * World :=
  let tid := next_timer w in
  (tid, set_next_timer (S tid)
          (set_timers (timers w ++ [(tid, {| due := now w + delay; action := a |})]) w)).

(** [clearTimeout] and [clearInterval]. *)
Definition clearTimer (tid : nat) (w : World) : World :=
  set_timers (filter (fun t => negb (Nat.eqb (fst t) tid)) (timers w)) w.

Definition readyStateOf (s : nat) (w : World) : option ReadyState :=
  nth_error (sockets w) s.

Fixpoint update_nth {A} (n : nat) (v : A) (l : list A) : list A :=
  match l, n with
  | [], _ => []
  | _ :: l', O => v :: l'
  | x :: l', S n' => x :: update_nth n' v l'
  end.

Definition setReadyState (s : nat) (r : ReadyState) (w : World) : World :=
  set_sockets (update_nth s r (sockets w)) w.

(** [wsRef.current && wsRef.current.readyState === r]. *)
Definition currentIs (r : ReadyState) (w : World) : bool :=
  match wsRef w with
  | Some s =>
      match readyStateOf s w with
      | Some r' => ReadyState_eqb r' r
      | None => false
      end
  | None => false
  end.

(** [ws.send(JSON.stringify(f))] on the current socket. *)
Definition ws_send (f : Frame) (w : World) : World :=
  match wsRef w with
  | Some s => set_wire (wire w ++ [(s, f)]) w
  | None => w
  end.

(** [ws.close()]: a socket that is not yet closed starts closing; the
    close event comes later. *)
Definition ws_close (s : nat) (w : World) : World :=
  match readyStateOf s w with
  | Some CONNECTING | Some OPEN => setReadyState s CLOSING w
  | _ => w
  end.

Definition newPromise (w : World) : Promise * World :=
  (next_promise w, set_next_promise (S (next_promise w)) w).

Fixpoint reactionOf (p : Promise) (rs : list (Promise * Reaction)) : option Reaction :=
  match rs with
  | [] => None
  | (p', r) :: rs' => if Nat.eqb p p' then Some r else reactionOf p rs'
  end.

Definition settled (p : Promise) (w : World) : bool :=
  existsb (fun e => Nat.eqb (fst e) p) (settle_log w).

(** The calls of [resolve]/[reject] of promise [p], oldest first. *)
Definition callsOf (p : Promise) (w : World) : list Outcome :=
  map snd (filter (fun e => Nat.eqb (fst e) p) (settle_log w)).

(** The state of promise [p]: its first settlement, if any. *)
Definition stateOf (p : Promise) (w : World) : option Outcome :=
  hd_error (callsOf p w).

Definition logSettle (p : Promise) (o : Outcome) (w : World) : World :=
  set_settle_log (settle_log w ++ [(p, o)]) w.

(** *** Heartbeat *)

Definition startHeartbeat (w : World) : World :=
  let w := match heartbeatTimeoutRef w with
           | Some t => clearTimer t w
           | None => w
           end in
  let '(tid, w) := setTimer 30000 HeartbeatInterval w in
  set_heartbeatTimeoutRef (Some tid) w.

(** The callback of the interval. *)
Definition heartbeatTick (w : World) : World :=
  if currentIs OPEN w then
    let '(t, w) := Date_now w in
    ws_send (PingFrame t) w
  else w.

Definition stopHeartbeat (w : World) : World :=
  match heartbeatTimeoutRef w with
  | Some t => set_heartbeatTimeoutRef None (clearTimer t w)
  | None => w
  end.

(** *** connect and reconnect *)

(** The callback of both reconnect timers is
    [reconnectAttempts.current++; connect()]; see [reconnectTimerFired]. *)
Definition scheduleReconnect (w : World) : World :=
  let timeout := reconnectDelay (reconnectAttempts w) in
  let '(tid, w) := setTimer timeout ReconnectTimer w in
  set_reconnectTimeoutRef (Some tid) w.

Definition connect (w : World) : World :=
  if currentIs CONNECTING w then w
  else
    let w := setConnectionState connecting w in
    if ctor_throws (List.length (sockets w)) then
      let w := setConnectionState error w in
      if (reconnectAttempts w <? maxReconnectAttempts)%nat
      then scheduleReconnect w
      else w
    else
      let s := List.length (sockets w) in
      set_wsRef (Some s) (set_sockets (sockets w ++ [CONNECTING]) w).

Definition reconnectTimerFired (w : World) : World :=
  connect (set_reconnectAttempts (S (reconnectAttempts w)) w).

Definition reconnect (w : World) : World :=
  let w := match reconnectTimeoutRef w with
           | Some t => set_reconnectTimeoutRef None (clearTimer t w)
           | None => w
           end in
  let w := set_reconnectAttempts 0%nat w in
  let w := match wsRef w with
           | Some s => ws_close s w
           | None => w
           end in
  connect w.

(** *** sendMessage after the duplex attempt, and promise settlement *)

Definition enqueue (req : ChatRequest) (c : Promise) (w : World) : World :=
  let '(t, w) := Date_now w in
  set_messageQueueRef
    (messageQueueRef w ++ [{| request := req; q_caller := c; q_timestamp := t |}]) w.

(** [sendHttpMessage]: the [fetch] is issued; its answer is an event. *)
Definition sendHttpMessage (req : ChatRequest) (c : Promise) (w : World) : World :=
  set_http_calls (http_calls w ++ [(c, req)]) w.

(** The body of [sendMessage] below its first [if]: reached when the
    socket is not open, and from the [catch] when the duplex send was
    rejected.  [cs] is the [connectionState] the closure captured. *)
Definition sendMessageRoute (req : ChatRequest) (c : Promise)
           (cs : ConnectionState) (w : World) : World :=
  match cs with
  | connecting => enqueue req c w
  | disconnected | error => enqueue req c (reconnect w)
  | connected => sendHttpMessage req c w
  end.

(** A call of [resolve] or [reject] of promise [p].  Only the first call
    settles the promise and runs what waits on it. *)
Definition settle (p : Promise) (o : Outcome) (w : World) : World :=
  let first := negb (settled p w) in
  let w := logSettle p o w in
  if first then
    match reactionOf p (reactions w) with
    | Some (Forward c) => logSettle c o w
    | Some (Await c req cs) =>
        match o with
        | Fulfilled _ => logSettle c o w
        | Rejected _ => sendMessageRoute req c cs w
        end
    | None => w
    end
  else w.

(** *** sendMessageInternal *)

Definition sendMessageInternal (req : ChatRequest) (r : Reaction) (w : World)
  : Promise * World :=
  let '(p, w) := newPromise w in
  let w := set_reactions ((p, r) :: reactions w) w in
  if negb (currentIs OPEN w) then
    (p, settle p (Rejected "WebSocket not connected") w)
  else
    let '(t, w) := Date_now w in
    let messageId := toString t in
    let w := set_messageCallbacksRef (JsMap.set messageId p (messageCallbacksRef w)) w in
    let '(_, w) := setTimer 30000 (RequestTimeout messageId p) w in
    (p, ws_send (ChatFrame req messageId) w).

(** The callback of the 30 second timer of one request. *)
Definition requestTimeout (messageId : string) (p : Promise) (w : World) : World :=
  if JsMap.has messageId (messageCallbacksRef w) then
    let w := set_messageCallbacksRef (JsMap.delete messageId (messageCallbacksRef w)) w in
    settle p (Rejected "Message timeout") w
  else w.

(** *** The queue *)

(** [Date.now() - timestamp > 300000]: the entry is too old (5 minutes). *)
Definition expiredAt (t : Z) (q : QueuedMessage) : bool :=
  t - q_timestamp q >? 300000.

Definition processOne (w : World) (q : QueuedMessage) : World :=
  let '(t, w) := Date_now w in
  if expiredAt t q then
    settle (q_caller q) (Rejected "Message expired") w
  else
    snd (sendMessageInternal (request q) (Forward (q_caller q)) w).

Definition processMessageQueue (w : World) : World :=
  if negb (currentIs OPEN w) then w
  else
    let queuedMessages := messageQueueRef w in
    let w := set_messageQueueRef [] w in
    fold_left processOne queuedMessages w.

(** *** The socket's handlers *)

Definition onopen (w : World) : World :=
  let w := setIsConnected true w in
  let w := setConnectionState connected w in
  let w := set_reconnectAttempts 0%nat w in
  let w := match reconnectTimeoutRef w with
           | Some t => set_reconnectTimeoutRef None (clearTimer t w)
           | None => w
           end in
  let w := processMessageQueue w in
  startHeartbeat w.

Definition onmessage (m : Inbound) (w : World) : World :=
  match m with
  | Malformed => w
  | Parsed type data =>
      if String.eqb type "pong" then w
      else
        let w := setLastMessage m w in
        if String.eqb type "chat_response" then
          match data with
          | None => w
          | Some d =>
              let messageId := context_id d in
              match JsMap.get messageId (messageCallbacksRef w) with
              | Some callback =>
                  let w := settle callback (Fulfilled d) w in
                  set_messageCallbacksRef
                    (JsMap.delete messageId (messageCallbacksRef w)) w
              | None => w
              end
          end
        else if String.eqb type "settings_updated" then
          set_sink (sink w ++ [SettingsUpdated data]) w
        else if String.eqb type "service_status" then
          set_sink (sink w ++ [ServiceStatus data]) w
        else w
  end.

(** The body of [messageCallbacksRef.current.forEach] in [ws.onclose]. *)
Definition connectionLost (w : World) (entry : string * Promise) : World :=
  let '(t, w) := Date_now w in
  settle (snd entry)
         (Fulfilled {| message := "Connection lost"; context_id := "";
                       timestamp := toISOString t |}) w.

Definition onclose (code : Z) (w : World) : World :=
  let w := setIsConnected false w in
  let w := setConnectionState disconnected w in
  let w := set_wsRef None w in
  let w := stopHeartbeat w in
  let w := fold_left connectionLost (messageCallbacksRef w) w in
  let w := set_messageCallbacksRef [] w in
  if negb (code =? 1000) && (reconnectAttempts w <? maxReconnectAttempts)%nat then
    scheduleReconnect w
  else if (maxReconnectAttempts <=? reconnectAttempts w)%nat then
    setConnectionState error w
  else w.

Definition onerror (w : World) : World :=
  setConnectionState error w.

(** *** sendMessage *)

Definition sendMessage (req : ChatRequest) (w : World) : Promise * World :=
  let '(c, w) := newPromise w in
  let cs := connectionState w in
  if currentIs OPEN w then
    (c, snd (sendMessageInternal req (Await c req cs) w))
  else
    (c, sendMessageRoute req c cs w).

(** The cleanup of the mounting effect. *)
Definition unmount (w : World) : World :=
  let w := match reconnectTimeoutRef w with
           | Some t => clearTimer t w
           | None => w
           end in
  let w := stopHeartbeat w in
  match wsRef w with
  | Some s => ws_close s w
  | None => w
  end.

(** *** The event loop *)

(** What the browser can do next: mount or unmount the provider, report
    on a socket, run a timer that is due, let a component call
    [sendMessage] or [reconnect], answer a [fetch], or let time pass. *)
Inductive Event :=
| Mount
| Unmount
| SocketOpen (s : nat)
| SocketMessage (s : nat) (m : Inbound)
| SocketError (s : nat)
| SocketClose (s : nat) (code : Z)
| TimerFire (tid : nat)
| CallSendMessage (req : ChatRequest)
| CallReconnect
| HttpDone (c : Promise) (o : Outcome)
| Idle.

Fixpoint findTimer (tid : nat) (ts : list (nat * Timer)) : option Timer :=
  match ts with
  | [] => None
  | (tid', t) :: ts' => if Nat.eqb tid tid' then Some t else findTimer tid ts'
  end.

(** A timeout is removed when it runs; the interval is armed again. *)
Definition fire (tid : nat) (t : Timer) (w : World) : World :=
  match action t with
  | RequestTimeout messageId p => requestTimeout messageId p (clearTimer tid w)
  | ReconnectTimer => reconnectTimerFired (clearTimer tid w)
  | HeartbeatInterval =>
      heartbeatTick
        (set_timers
           (map (fun e => if Nat.eqb (fst e) tid
                          then (tid, {| due := due t + 30000; action := action t |})
                          else e) (timers w)) w)
  end.

Definition awaitsHttp (c : Promise) (w : World) : bool :=
  existsb (fun e => Nat.eqb (fst e) c) (http_calls w).

(** One turn of the event loop; [None] when the browser cannot produce
    the event in this state. *)
Definition step (e : Event) (w : World) : option World :=
  match e with
  | Mount => Some (connect w)
  | Unmount => Some (unmount w)
  | SocketOpen s =>
      match readyStateOf s w with
      | Some CONNECTING => Some (onopen (setReadyState s OPEN w))
      | _ => None
      end
  | SocketMessage s m =>
      match readyStateOf s w with
      | Some OPEN | Some CLOSING => Some (onmessage m w)
      | _ => None
      end
  | SocketError s =>
      match readyStateOf s w with
      | Some CONNECTING | Some OPEN | Some CLOSING => Some (onerror w)
      | _ => None
      end
  | SocketClose s code =>
      match readyStateOf s w with
      | Some CONNECTING | Some OPEN | Some CLOSING =>
          Some (onclose code (setReadyState s CLOSED w))
      | _ => None
      end
  | TimerFire tid =>
      match findTimer tid (timers w) with
      | Some t => if due t <=? now w then Some (fire tid t w) else None
      | None => None
      end
  | CallSendMessage req => Some (snd (sendMessage req w))
  | CallReconnect => Some (reconnect w)
  | HttpDone c o =>
      if awaitsHttp c w then
        Some (settle c o
                (set_http_calls
                   (filter (fun e => negb (Nat.eqb (fst e) c)) (http_calls w)) w))
      else None
  | Idle => Some (set_reads (S (reads w)) w)
  end.

Fixpoint run (es : list Event) (w : World) : option World :=
  match es with
  | [] => Some w
  | e :: es' =>
      match step e w with
      | Some w' => run es' w'
      | None => None
      end
  end.

(** The states the provider can be in. *)
Definition reachable (w : World) : Prop :=
  exists es, run es init = Some w.

(** *** Well-formed states *)

Definition callerOf (r : Reaction) : Promise :=
  match r with
  | Forward c => c
  | Await c _ _ => c
  end.

(** [c] is a promise handed to a caller of [sendMessage]: it has been
    allocated and nothing inside the provider waits on it. *)
Definition caller_ok (c : Promise) (w : World) : bool :=
  (c <? next_promise w)%nat
  && match reactionOf c (reactions w) with Some _ => false | None => true end.

(** The queue holds callers' promises only. *)
Definition queue_ok (w : World) : bool :=
  forallb (fun q => caller_ok (q_caller q) w) (messageQueueRef w).

(** Reactions are registered on allocated promises, for callers' promises. *)
Definition reactions_ok (w : World) : bool :=
  forallb (fun e => (fst e <? next_promise w)%nat && caller_ok (callerOf (snd e)) w)
          (reactions w).

(** The states the invariants are about. *)
Definition wf (w : World) : bool :=
  queue_ok w && reactions_ok w && JsMap.uniqueKeys (messageCallbacksRef w).

(** The clock readings at which the entries of a queue being drained are
    checked for expiry, the first one at reading [r]: an entry that is
    sent takes one more reading, for its message id. *)
Fixpoint checkReads (r : nat) (qs : list QueuedMessage) : list nat :=
  match qs with
  | [] => []
  | q :: qs' =>
      r :: checkReads (if expiredAt (clock r) q then S r else S (S r)) qs'
  end.

(** The clock position once the queue [qs] has been drained from [r]. *)
Fixpoint drainEnd (r : nat) (qs : list QueuedMessage) : nat :=
  match qs with
  | [] => r
  | q :: qs' => drainEnd (if expiredAt (clock r) q then S r else S (S r)) qs'
  end.

Definition keptAt (qk : QueuedMessage * nat) : bool :=
  negb (expiredAt (clock (snd qk)) (fst qk)).

(** *** Relations between states, used to state the properties *)

(** Case analysis on whatever [match] or [if] is in the way. *)
Ltac break_match :=
  match goal with
  | |- context [match ?x with _ => _ end] =>
      lazymatch x with
      | context [match _ with _ => _ end] => fail
      | _ => destruct x eqn:?
      end
  end.

(** Closes [same_promises dead w w'] when [w'] computes to [w] on the
    fields it compares. *)
Ltac unchanged_promises :=
  repeat split; intros ? ?; left; assumption.

(** [w'] differs from [w] in nothing that carries requests: same clock
    position, same frames sent, same settlements, same table and queue. *)
Definition keeps_traffic (w w' : World) : Prop :=
  reads w' = reads w /\ wire w' = wire w /\ settle_log w' = settle_log w
  /\ http_calls w' = http_calls w
  /\ messageQueueRef w' = messageQueueRef w
  /\ messageCallbacksRef w' = messageCallbacksRef w
  /\ next_promise w' = next_promise w /\ reactions w' = reactions w.

Definition sentFrame (s : nat) (qk : QueuedMessage * nat) : nat * Frame :=
  (s, ChatFrame (request (fst qk)) (toString (clock (S (snd qk))))).

Definition expiredEntry (qk : QueuedMessage * nat) : Promise * Outcome :=
  (q_caller (fst qk), Rejected "Message expired").

(** The part of the provider's state a drain does not touch. *)
Definition same_connection (w w' : World) : Prop :=
  wsRef w' = wsRef w /\ sockets w' = sockets w
  /\ messageQueueRef w' = messageQueueRef w
  /\ reconnectAttempts w' = reconnectAttempts w
  /\ connectionState w' = connectionState w
  /\ isConnected w' = isConnected w
  /\ heartbeatTimeoutRef w' = heartbeatTimeoutRef w
  /\ reconnectTimeoutRef w' = reconnectTimeoutRef w
  /\ http_calls w' = http_calls w.

(** The part of [reconnect] that precedes [connect()]. *)
Definition reconnect_prefix (w : World) : World :=
  let w := match reconnectTimeoutRef w with
           | Some t => set_reconnectTimeoutRef None (clearTimer t w)
           | None => w
           end in
  let w := set_reconnectAttempts 0%nat w in
  match wsRef w with
  | Some s => ws_close s w
  | None => w
  end.

(** The part of [ws.onopen] that precedes [processMessageQueue()]. *)
Definition onopen_prefix (w : World) : World :=
  let w := setIsConnected true w in
  let w := setConnectionState connected w in
  let w := set_reconnectAttempts 0%nat w in
  match reconnectTimeoutRef w with
  | Some t => set_reconnectTimeoutRef None (clearTimer t w)
  | None => w
  end.

(** The fields [wf] reads. *)
Definition same_core (w w' : World) : Prop :=
  next_promise w' = next_promise w /\ reactions w' = reactions w
  /\ messageQueueRef w' = messageQueueRef w
  /\ messageCallbacksRef w' = messageCallbacksRef w.

(** Promises only ever become allocated, and a caller's promise stays one. *)
Definition extends (w w' : World) : Prop :=
  (next_promise w <= next_promise w')%nat
  /\ forall c, caller_ok c w = true -> caller_ok c w' = true.

Definition ok_step (w w' : World) : Prop :=
  (wf w = true -> wf w' = true) /\ extends w w'.

(** Every entry of the queue is still there, in place. *)
Definition queue_kept (w w' : World) : Prop :=
  exists new, messageQueueRef w' = messageQueueRef w ++ new.

Definition connectionLostResponse (t : Z) : ChatResponse :=
  {| message := "Connection lost"; context_id := ""; timestamp := toISOString t |}.

(** *** Promises the provider has lost track of *)

(** [quiet dead bound w]: no promise of the set [dead] has been settled,
    and nothing in [w] can still reach one: not the table, not a request
    timer, not the queue, not an HTTP call in flight, not the reaction of
    a promise outside the set; promises allocated from now on are
    numbered from [bound] upwards. *)
Definition timerAvoids (dead : Promise -> bool) (t : nat * Timer) : bool :=
  match action (snd t) with
  | RequestTimeout _ p => negb (dead p)
  | _ => true
  end.

Definition quiet (dead : Promise -> bool) (bound : nat) (w : World) : Prop :=
  forallb (fun e => negb (dead (fst e))) (settle_log w) = true
  /\ forallb (fun e => negb (dead (snd e))) (messageCallbacksRef w) = true
  /\ forallb (timerAvoids dead) (timers w) = true
  /\ forallb (fun q => negb (dead (q_caller q))) (messageQueueRef w) = true
  /\ forallb (fun e => negb (dead (fst e))) (http_calls w) = true
  /\ forallb (fun e => dead (fst e) || negb (dead (callerOf (snd e))))
             (reactions w) = true
  /\ (bound <= next_promise w)%nat.

(** The timers of [w'] are timers of [w], or not request timers of [dead]
    promises. *)
Definition no_new_request_timer (dead : Promise -> bool) (w w' : World) : Prop :=
  forall t, In t (timers w') -> In t (timers w) \/ timerAvoids dead t = true.

(** [w'] differs from [w] at most in its timers, sockets, refs and clock. *)
Definition same_promises (dead : Promise -> bool) (w w' : World) : Prop :=
  settle_log w' = settle_log w
  /\ messageCallbacksRef w' = messageCallbacksRef w
  /\ messageQueueRef w' = messageQueueRef w
  /\ http_calls w' = http_calls w
  /\ reactions w' = reactions w
  /\ next_promise w' = next_promise w
  /\ no_new_request_timer dead w w'.

(** *** Allocated promises *)

(** The promises that have not been allocated when the counter is [n]. *)
Definition deadFrom (n : nat) (x : Promise) : bool := (n <=? x)%nat.

(** Everything [w] holds about promises is about promises below
    [next_promise w]: no promise that is still to be allocated has been
    settled or is referred to. *)
Definition allocated (w : World) : Prop :=
  quiet (deadFrom (next_promise w)) (next_promise w) w.

(** *** The timer queue *)

Definition isHeartbeat (t : nat * Timer) : bool :=
  match action (snd t) with
  | HeartbeatInterval => true
  | _ => false
  end.

(** Timer ids are below [next_timer] and pairwise different, and an armed
    heartbeat interval is the one [heartbeatTimeoutRef] names. *)
Definition timers_ok (w : World) : Prop :=
  (forall t, In t (timers w) -> (fst t < next_timer w)%nat)
  /\ NoDup (map fst (timers w))
  /\ (forall t, In t (timers w) -> isHeartbeat t = true ->
                heartbeatTimeoutRef w = Some (fst t)).

(** *** Who holds a caller's [resolve] and [reject] *)

(** The places from which promise [c] can still be settled: the entries
    of the queue made for it, the HTTP calls in flight for it, and the
    continuations that wait for a promise of [sendMessageInternal] that
    has not been settled yet. *)
Definition holders (c : Promise) (w : World) : nat :=
  (List.length (filter (fun q => Nat.eqb (q_caller q) c) (messageQueueRef w))
   + List.length (filter (fun e => Nat.eqb (fst e) c) (http_calls w))
   + List.length (filter (fun e => Nat.eqb (callerOf (snd e)) c
                                   && negb (settled (fst e) w))
                         (reactions w)))%nat.

(** Holders and calls made so far, together. *)
Definition weight (c : Promise) (w : World) : nat :=
  (holders c w + List.length (callsOf c w))%nat.

(** [p] is a promise of [sendMessageInternal]: its continuation is
    registered. *)
Definition inner (w : World) (p : Promise) : bool :=
  match reactionOf p (reactions w) with
  | Some _ => true
  | None => false
  end.

(** The table and the request timers hold promises of
    [sendMessageInternal] only. *)
Definition inner_ok (w : World) : Prop :=
  (forall e, In e (messageCallbacksRef w) -> inner w (snd e) = true)
  /\ (forall t k p, In t (timers w) -> action (snd t) = RequestTimeout k p ->
                    inner w p = true).

(** From [w] to [w'] promises keep their kind: the allocated promises
    without a continuation stay so, the promises of [sendMessageInternal]
    stay so, and what the table and the request timers have gained are
    promises of [sendMessageInternal]. *)
Definition keeps_kinds (w w' : World) : Prop :=
  (next_promise w <= next_promise w')%nat
  /\ (forall c, (c < next_promise w)%nat ->
                reactionOf c (reactions w) = None ->
                reactionOf c (reactions w') = None)
  /\ (forall p, inner w p = true -> inner w' p = true)
  /\ (forall e, In e (messageCallbacksRef w') ->
                In e (messageCallbacksRef w) \/ inner w' (snd e) = true)
  /\ (forall t k p, In t (timers w') -> action (snd t) = RequestTimeout k p ->
                    In t (timers w) \/ inner w' p = true).

(** From [w] to [w'] the caller's promise [c] gains at most [k] holders
    or calls. *)
Definition adds (c : Promise) (k : nat) (w w' : World) : Prop :=
  reactionOf c (reactions w') = None ->
  reactionOf c (reactions w) = None
  /\ (weight c w' <= weight c w + k)%nat.

(** No promise without a continuation has more than one holder, and none
    that has been called has a holder left. *)
Definition linear (w : World) : Prop :=
  forall c, reactionOf c (reactions w) = None -> (weight c w <= 1)%nat.

(** The HTTP calls in flight are made for callers' promises. *)
Definition http_ok (w : World) : Prop :=
  forall e, In e (http_calls w) -> caller_ok (fst e) w = true.

(** The table holds each pending promise once and not yet settled, and
    the request timer of a promise in the table carries the id the
    promise is stored under. *)
Definition table_ok (w : World) : Prop :=
  NoDup (map snd (messageCallbacksRef w))
  /\ (forall e, In e (messageCallbacksRef w) -> settled (snd e) w = false)
  /\ (forall e t k, In e (messageCallbacksRef w) -> In t (timers w) ->
                    action (snd t) = RequestTimeout k (snd e) -> k = fst e).

(** The invariants of the reachable states, together. *)
Definition sound (w : World) : Prop :=
  wf w = true /\ allocated w /\ inner_ok w /\ table_ok w.

(** *** The two connection indicators *)

(** [isConnected] is kept, and [connectionState] is kept or has become
    'connecting' or 'error'. *)
Definition keeps_indicators (w w' : World) : Prop :=
  isConnected w' = isConnected w
  /\ (connectionState w' = connectionState w
      \/ connectionState w' = connecting \/ connectionState w' = error).

(** [isConnected] agrees with [connectionState] where the latter is
    definite. *)
Definition indicators_ok (w : World) : Prop :=
  (connectionState w = connected -> isConnected w = true)
  /\ (connectionState w = disconnected -> isConnected w = false).

(** ** Properties of the handlers *)

Lemma ReadyState_eqb_spec a b : reflect (a = b) (ReadyState_eqb a b).
Proof. destruct a, b; simpl; constructor; congruence. Qed.

(** The delay armed by [ws.onclose] and by the [catch] of [connect] is
  [reconnectDelay] of the counter at that moment. *)
Lemma scheduleReconnect_due (w : World) :
timers (scheduleReconnect w) =
  timers w ++ [(next_timer w,
                {| due := now w + reconnectDelay (reconnectAttempts w);
                   action := ReconnectTimer |})]
/\ reconnectTimeoutRef (scheduleReconnect w) = Some (next_timer w).
Proof. split; reflexivity. Qed.

(** ** Heartbeat *)

Lemma currentIs_true r (w : World) :
currentIs r w = true <->
exists s, wsRef w = Some s /\ readyStateOf s w = Some r.
Proof.
unfold currentIs. split.
- destruct (wsRef w) as [s|]; [|discriminate].
  destruct (readyStateOf s w) as [r'|] eqn:E; [|discriminate].
  destruct (ReadyState_eqb_spec r' r) as [->|]; [|discriminate].
  intros _. exists s. split; [reflexivity|exact E].
- intros (s & Hs & Hr). rewrite Hs, Hr.
  destruct (ReadyState_eqb_spec r r); congruence.
Qed.

Lemma keeps_traffic_refl w : keeps_traffic w w.
Proof. repeat split. Qed.

Lemma connect_keeps_traffic (w : World) : keeps_traffic w (connect w).
Proof.
  unfold connect, scheduleReconnect, setTimer.
  repeat break_match; repeat split.
Qed.

Lemma connect_reconnectAttempts (w : World) :
  reconnectAttempts (connect w) = reconnectAttempts w.
Proof.
  unfold connect, scheduleReconnect, setTimer.
  repeat break_match; reflexivity.
Qed.

Lemma reconnect_keeps_traffic (w : World) : keeps_traffic w (reconnect w).
Proof.
  unfold reconnect.
  match goal with |- keeps_traffic _ (connect ?x) =>
    pose proof (connect_keeps_traffic x) as H; assert (keeps_traffic w x) as H0
  end.
  { unfold ws_close, setReadyState, clearTimer.
    repeat break_match; repeat split. }
  unfold keeps_traffic in *. intuition congruence.
Qed.

Lemma reconnect_reconnectAttempts (w : World) :
  reconnectAttempts (reconnect w) = 0%nat.
Proof.
  unfold reconnect. rewrite connect_reconnectAttempts.
  unfold ws_close, setReadyState. repeat break_match; reflexivity.
Qed.

(** C10.  The callback of the heartbeat interval sends a ping, on the
    current socket, exactly when [wsRef.current] exists and its
    [readyState] is [OPEN]; when the socket is absent or in any other
    state the tick sends nothing and changes nothing. *)
Theorem heartbeatTick_only_when_open (w : World) :
  (forall s, wsRef w = Some s -> readyStateOf s w = Some OPEN ->
     heartbeatTick w
     = set_wire (wire w ++ [(s, PingFrame (now w))]) (set_reads (S (reads w)) w))
  /\ ((forall s, wsRef w = Some s -> readyStateOf s w <> Some OPEN) ->
      heartbeatTick w = w)
  /\ (wire (heartbeatTick w) <> wire w ->
      exists s, wsRef w = Some s /\ readyStateOf s w = Some OPEN).
Proof.
  unfold heartbeatTick. repeat split.
  - intros s Hs Hr.
    assert (currentIs OPEN w = true) as -> by (apply currentIs_true; eauto).
    unfold Date_now, ws_send. simpl. rewrite Hs. reflexivity.
  - intros H. destruct (currentIs OPEN w) eqn:E; [|reflexivity].
    apply currentIs_true in E. destruct E as (s & Hs & Hr).
    exfalso. exact (H s Hs Hr).
  - intros H. destruct (currentIs OPEN w) eqn:E.
    + apply currentIs_true in E. exact E.
    + exfalso. apply H. reflexivity.
Qed.

(** In the event loop: a heartbeat timer that runs while the current
    socket is not open leaves the wire as it was. *)
Lemma heartbeat_fire_not_open tid t (w : World) :
  action t = HeartbeatInterval ->
  currentIs OPEN w = false ->
  wire (fire tid t w) = wire w.
Proof.
  intros Ha Hc. unfold fire. rewrite Ha. unfold heartbeatTick.
  assert (forall ts, currentIs OPEN (set_timers ts w) = currentIs OPEN w) as ->
      by reflexivity.
  rewrite Hc. reflexivity.
Qed.

(** C6, as the code has it.  [connect()] is a no-op when the current socket
    is still CONNECTING: nothing is created and nothing changes.  The
    explicit retry, [reconnect()], always leaves the attempt counter at 0. *)
Theorem connect_noop_while_connecting (w : World) :
  (currentIs CONNECTING w = true -> connect w = w)
  /\ reconnectAttempts (reconnect w) = 0%nat.
Proof.
  split.
  - intros H. unfold connect. rewrite H. reflexivity.
  - apply reconnect_reconnectAttempts.
Qed.

(** With an open socket [connect()] goes on: it announces 'connecting' and,
    unless the constructor throws, replaces the current socket by a new one. *)
Lemma connect_while_open (w : World) :
  currentIs OPEN w = true ->
  ctor_throws (List.length (sockets w)) = false ->
  sockets (connect w) = sockets w ++ [CONNECTING]
  /\ wsRef (connect w) = Some (List.length (sockets w))
  /\ connectionState (connect w) = connecting.
Proof.
  intros Ho Hc. unfold connect.
  destruct (currentIs CONNECTING w) eqn:E.
  - apply currentIs_true in E. apply currentIs_true in Ho.
    destruct E as (s & Hs & Hr), Ho as (s' & Hs' & Hr'). congruence.
  - simpl. rewrite Hc. repeat split.
Qed.

(** With no open socket and [connectionState] 'disconnected' or 'error',
    [sendMessage] puts the request at the end of the queue; it does not
    call the HTTP fallback, sends nothing and settles nothing. *)
Lemma sendMessage_disconnected_enqueues (req : ChatRequest) (w : World) :
  currentIs OPEN w = false ->
  connectionState w = disconnected \/ connectionState w = error ->
  let w' := snd (sendMessage req w) in
  http_calls w' = http_calls w
  /\ settle_log w' = settle_log w
  /\ wire w' = wire w
  /\ messageQueueRef w'
     = messageQueueRef w ++ [{| request := req; q_caller := next_promise w;
                                q_timestamp := now w |}]
  /\ reconnectAttempts w' = 0%nat.
Proof.
  intros Ho Hcs. unfold sendMessage, newPromise.
  assert (currentIs OPEN (set_next_promise (S (next_promise w)) w) = false) as ->
      by exact Ho.
  cbn [snd connectionState set_next_promise].
  set (w1 := set_next_promise (S (next_promise w)) w).
  assert (sendMessageRoute req (next_promise w) (connectionState w) w1
          = enqueue req (next_promise w) (reconnect w1)) as ->
      by (destruct Hcs as [-> | ->]; reflexivity).
  pose proof (reconnect_keeps_traffic w1) as K.
  pose proof (reconnect_reconnectAttempts w1) as A.
  unfold keeps_traffic in K. destruct K as (K1 & K2 & K3 & K4 & K5 & _).
  unfold enqueue, Date_now, now. cbn.
  rewrite K1, K2, K3, K4, K5, A. repeat split.
Qed.

(** The HTTP fallback is called by [sendMessage] only when there is no
    open socket and the captured [connectionState] is 'connected'. *)
Lemma sendMessage_http_only_when_connected (req : ChatRequest) (w : World) :
  http_calls (snd (sendMessage req w)) <> http_calls w ->
  currentIs OPEN w = false /\ connectionState w = connected.
Proof.
  unfold sendMessage, newPromise.
  assert (currentIs OPEN (set_next_promise (S (next_promise w)) w)
          = currentIs OPEN w) as -> by reflexivity.
  set (w1 := set_next_promise (S (next_promise w)) w).
  destruct (currentIs OPEN w) eqn:Ho.
  - unfold sendMessageInternal, newPromise.
    cbn [snd reactions set_next_promise next_promise].
    match goal with |- context [currentIs OPEN ?x] =>
      assert (currentIs OPEN x = true) as -> by exact Ho end.
    cbn. intros H. exfalso. apply H. unfold ws_send. cbn.
    destruct (wsRef w); reflexivity.
  - cbn [snd]. change (connectionState w1) with (connectionState w).
    destruct (connectionState w) eqn:Hcs; intros H; try (split; reflexivity);
      exfalso; apply H; unfold sendMessageRoute, enqueue, Date_now; cbn.
    + reflexivity.
    + apply (reconnect_keeps_traffic w1).
    + apply (reconnect_keeps_traffic w1).
Qed.

(** *** Settling and sending *)

Lemma caller_ok_spec c (w : World) :
  caller_ok c w = true <->
  (c < next_promise w)%nat /\ reactionOf c (reactions w) = None.
Proof.
  unfold caller_ok. rewrite andb_true_iff, Nat.ltb_lt.
  destruct (reactionOf c (reactions w)); intuition congruence.
Qed.

(** A call of [resolve] or [reject] of a caller's promise is recorded and
    does nothing else. *)
Lemma settle_caller c o (w : World) :
  caller_ok c w = true -> settle c o w = logSettle c o w.
Proof.
  intros H. apply caller_ok_spec in H. destruct H as [_ H].
  unfold settle. cbn [reactions logSettle set_settle_log].
  rewrite H. destruct (negb (settled c w)); reflexivity.
Qed.

(** A [resolve] changes the settlement log and nothing else. *)
Lemma settle_fulfilled p v (w : World) :
  exists l, settle p (Fulfilled v) w
            = set_settle_log (settle_log w ++ (p, Fulfilled v) :: l) w.
Proof.
  unfold settle. cbn [reactions logSettle set_settle_log].
  destruct (negb (settled p w)).
  - destruct (reactionOf p (reactions w)) as [[c | c req cs] |].
    + exists [(c, Fulfilled v)]. unfold logSettle, set_settle_log; cbn.
      rewrite <- app_assoc. reflexivity.
    + exists [(c, Fulfilled v)]. unfold logSettle, set_settle_log; cbn.
      rewrite <- app_assoc. reflexivity.
    + exists []. reflexivity.
  - exists []. reflexivity.
Qed.

(** [sendMessageInternal] with the current socket open: a fresh promise,
    a message id read off the clock, the table entry, the 30 second timer
    and the frame. *)
Lemma sendMessageInternal_open req r s (w : World) :
  wsRef w = Some s -> readyStateOf s w = Some OPEN ->
  sendMessageInternal req r w
  = (next_promise w,
     set_wire (wire w ++ [(s, ChatFrame req (toString (now w)))])
       (set_next_timer (S (next_timer w))
          (set_timers (timers w ++
                         [(next_timer w,
                           {| due := clock (S (reads w)) + 30000;
                              action := RequestTimeout (toString (now w))
                                                       (next_promise w) |})])
             (set_messageCallbacksRef
                (JsMap.set (toString (now w)) (next_promise w)
                           (messageCallbacksRef w))
                (set_reads (S (reads w))
                   (set_reactions ((next_promise w, r) :: reactions w)
                      (set_next_promise (S (next_promise w)) w))))))).
Proof.
  intros Hs Hr. unfold sendMessageInternal, newPromise.
  match goal with |- context [currentIs OPEN ?x] =>
    assert (currentIs OPEN x = true) as ->
      by (apply currentIs_true; exists s; split; assumption) end.
  cbn. unfold ws_send. cbn. rewrite Hs. reflexivity.
Qed.

Lemma caller_ok_fresh_reaction c r (w w' : World) :
  caller_ok c w = true ->
  next_promise w' = S (next_promise w) ->
  reactions w' = (next_promise w, r) :: reactions w ->
  caller_ok c w' = true.
Proof.
  intros H Hn Hr. apply caller_ok_spec in H. destruct H as [Hlt Hnone].
  apply caller_ok_spec. rewrite Hn, Hr. split; [lia|].
  cbn. destruct (Nat.eqb_spec c (next_promise w)); [lia|exact Hnone].
Qed.

(** *** Draining the queue *)

Lemma checkReads_length r qs : List.length (checkReads r qs) = List.length qs.
Proof.
  revert r. induction qs as [|q qs IH]; intros r; cbn; [reflexivity|].
  rewrite IH. reflexivity.
Qed.

Lemma drainEnd_ge r qs : (r <= drainEnd r qs)%nat.
Proof.
  revert r. induction qs as [|q qs IH]; intros r; cbn; [lia|].
  destruct (expiredAt (clock r) q);
    match goal with |- (_ <= drainEnd ?x _)%nat => specialize (IH x) end; lia.
Qed.

Lemma checkReads_bounds r qs :
  Forall (fun k => (r <= k < drainEnd r qs)%nat) (checkReads r qs).
Proof.
  revert r. induction qs as [|q qs IH]; intros r; cbn; constructor.
  - pose proof (drainEnd_ge (if expiredAt (clock r) q then S r else S (S r)) qs).
    destruct (expiredAt (clock r) q); lia.
  - eapply Forall_impl; [|apply IH].
    cbn. intros k Hk. destruct (expiredAt (clock r) q); lia.
Qed.

Lemma processOne_eq (w : World) q :
  processOne w q
  = if expiredAt (clock (reads w)) q
    then settle (q_caller q) (Rejected "Message expired") (set_reads (S (reads w)) w)
    else snd (sendMessageInternal (request q) (Forward (q_caller q))
                                  (set_reads (S (reads w)) w)).
Proof. reflexivity. Qed.

Lemma drain_spec qs : forall (w : World) s,
  wsRef w = Some s -> readyStateOf s w = Some OPEN ->
  forallb (fun q => caller_ok (q_caller q) w) qs = true ->
  let w' := fold_left processOne qs w in
  let checked := combine qs (checkReads (reads w) qs) in
  same_connection w w'
  /\ reads w' = drainEnd (reads w) qs
  /\ wire w' = wire w ++ map (sentFrame s) (filter keptAt checked)
  /\ settle_log w'
     = settle_log w ++ map expiredEntry (filter (fun qk => negb (keptAt qk)) checked).
Proof.
  induction qs as [|q qs IH]; intros w s Hs Hr Hok; cbn zeta.
  - cbn. rewrite !app_nil_r. repeat split.
  - cbn [forallb] in Hok. apply andb_true_iff in Hok. destruct Hok as [Hq Hqs].
    cbn [fold_left checkReads drainEnd combine filter].
    assert (keptAt (q, reads w) = negb (expiredAt (clock (reads w)) q)) as ->
        by reflexivity.
    rewrite processOne_eq.
    destruct (expiredAt (clock (reads w)) q) eqn:Hexp; cbn [negb].
    + rewrite settle_caller by exact Hq.
      set (w1 := logSettle _ _ _).
      specialize (IH w1 s Hs Hr Hqs). cbn zeta in IH.
      destruct IH as (Hc & Hrd & Hw & Hl).
      change (reads w1) with (S (reads w)) in *.
      repeat split; try apply Hc; try assumption.
      rewrite Hl. subst w1. unfold logSettle. cbn.
      rewrite <- app_assoc. reflexivity.
    + rewrite (sendMessageInternal_open _ _ s) by assumption.
      cbn [snd]. set (w1 := set_wire _ _).
      assert (forallb (fun q0 => caller_ok (q_caller q0) w1) qs = true) as Hqs1.
      { rewrite forallb_forall in *. intros q0 Hin.
        eapply caller_ok_fresh_reaction; [apply (Hqs q0 Hin)| |]; reflexivity. }
      specialize (IH w1 s Hs Hr Hqs1). cbn zeta in IH.
      destruct IH as (Hc & Hrd & Hw & Hl).
      change (reads w1) with (S (S (reads w))) in *.
      repeat split; try apply Hc; try assumption.
      rewrite Hw. subst w1. cbn. rewrite <- app_assoc. reflexivity.
Qed.

(** *** The open event *)

Lemma update_nth_same {A} n (v : A) l x :
  nth_error l n = Some x -> nth_error (update_nth n v l) n = Some v.
Proof.
  revert n. induction l as [|y l IH]; intros [|n] H; cbn in *;
    try discriminate; [reflexivity|apply IH; exact H].
Qed.

Lemma caller_ok_same c (w w' : World) :
  next_promise w' = next_promise w -> reactions w' = reactions w ->
  caller_ok c w' = caller_ok c w.
Proof. intros Hn Hr. unfold caller_ok. rewrite Hn, Hr. reflexivity. Qed.

Lemma onopen_eq (w : World) :
  onopen w = startHeartbeat (processMessageQueue (onopen_prefix w)).
Proof. reflexivity. Qed.

Lemma onopen_prefix_frame (w : World) :
  let w' := onopen_prefix w in
  wsRef w' = wsRef w /\ sockets w' = sockets w /\ reads w' = reads w
  /\ wire w' = wire w /\ settle_log w' = settle_log w
  /\ messageQueueRef w' = messageQueueRef w
  /\ next_promise w' = next_promise w /\ reactions w' = reactions w
  /\ reconnectAttempts w' = 0%nat /\ connectionState w' = connected
  /\ isConnected w' = true /\ reconnectTimeoutRef w' = None.
Proof.
  unfold onopen_prefix. cbn.
  destruct (reconnectTimeoutRef w) eqn:E; cbn; repeat split; exact E.
Qed.

Lemma startHeartbeat_frame (w : World) :
  let w' := startHeartbeat w in
  wsRef w' = wsRef w /\ sockets w' = sockets w /\ reads w' = reads w
  /\ wire w' = wire w /\ settle_log w' = settle_log w
  /\ messageQueueRef w' = messageQueueRef w
  /\ reconnectAttempts w' = reconnectAttempts w
  /\ connectionState w' = connectionState w
  /\ isConnected w' = isConnected w
  /\ exists tid,
       heartbeatTimeoutRef w' = Some tid
       /\ In (tid, {| due := now w' + 30000; action := HeartbeatInterval |})
             (timers w').
Proof.
  unfold startHeartbeat, setTimer, clearTimer, now.
  destruct (heartbeatTimeoutRef w); cbn; repeat split;
    eexists; (split; [reflexivity|]); apply in_or_app; right; left; reflexivity.
Qed.

(** What the open event of the current socket does, entry by entry. *)
Lemma onopen_spec (w : World) s :
  wsRef w = Some s -> readyStateOf s w = Some CONNECTING -> queue_ok w = true ->
  exists w',
    step (SocketOpen s) w = Some w'
    /\ reconnectAttempts w' = 0%nat
    /\ connectionState w' = connected
    /\ messageQueueRef w' = []
    /\ (let ks := checkReads (reads w) (messageQueueRef w) in
        Forall (fun k => (reads w <= k < reads w')%nat) ks
          /\ wire w'
             = wire w ++ map (sentFrame s)
                            (filter keptAt (combine (messageQueueRef w) ks))
          /\ settle_log w'
             = settle_log w
               ++ map expiredEntry
                      (filter (fun qk => negb (keptAt qk))
                              (combine (messageQueueRef w) ks)))
    /\ (exists tid,
          heartbeatTimeoutRef w' = Some tid
          /\ In (tid, {| due := now w' + 30000; action := HeartbeatInterval |})
                (timers w')).
Proof.
  intros Hs Hr Hq. unfold step. rewrite Hr. eexists. split; [reflexivity|].
  rewrite onopen_eq.
  set (w0 := setReadyState s OPEN w).
  pose proof (onopen_prefix_frame w0) as P. cbn zeta in P.
  destruct P as (P1 & P2 & P3 & P4 & P5 & P6 & P7 & P8 & P9 & P10 & P11 & P12).
  set (w1 := onopen_prefix w0) in *.
  assert (wsRef w1 = Some s) as Hs1 by (rewrite P1; exact Hs).
  assert (readyStateOf s w1 = Some OPEN) as Hr1.
  { unfold readyStateOf. rewrite P2. subst w0. cbn.
    eapply update_nth_same. exact Hr. }
  unfold processMessageQueue.
  assert (currentIs OPEN w1 = true) as ->
      by (apply currentIs_true; exists s; split; assumption).
  cbn [negb].
  set (w2 := set_messageQueueRef [] w1).
  assert (forallb (fun q => caller_ok (q_caller q) w2) (messageQueueRef w1) = true)
    as Hq2.
  { rewrite P6. subst w0. cbn [messageQueueRef setReadyState set_sockets].
    unfold queue_ok in Hq. rewrite forallb_forall in *. intros q Hin.
    rewrite <- (Hq q Hin). apply caller_ok_same.
    - subst w2. cbn. rewrite P7. reflexivity.
    - subst w2. cbn. rewrite P8. reflexivity. }
  pose proof (drain_spec (messageQueueRef w1) w2 s Hs1 Hr1 Hq2) as D.
  cbn zeta in D. destruct D as (Dc & Dr & Dw & Dl).
  set (w3 := fold_left processOne (messageQueueRef w1) w2) in *.
  destruct Dc as (C1 & C2 & C3 & C4 & C5 & C6 & C7 & C8 & C9).
  pose proof (startHeartbeat_frame w3) as H. cbn zeta in H.
  destruct H as (H1 & H2 & H3 & H4 & H5 & H6 & H7 & H8 & H9 & tid & Ht & Hin).
  assert (messageQueueRef w1 = messageQueueRef w) as Q by (rewrite P6; reflexivity).
  assert (reads w2 = reads w) as R by (subst w2; cbn; rewrite P3; reflexivity).
  repeat split.
  - rewrite H7, C4. subst w2. cbn. exact P9.
  - rewrite H8, C5. subst w2. cbn. exact P10.
  - rewrite H6, C3. reflexivity.
  - rewrite H3, Dr, R, Q. apply checkReads_bounds.
  - rewrite H4, Dw, R, Q. subst w2. cbn. rewrite P4. reflexivity.
  - rewrite H5, Dl, R, Q. subst w2. cbn. rewrite P5. reflexivity.
  - exists tid. split; assumption.
Qed.

(** X17.  When the handshake of the provider's current
    socket ([wsRef.current]) succeeds, the turn that runs [ws.onopen]
    resets the attempt counter to 0, empties the queue, sends the queued
    messages that are not expired when they are checked, in queue order
    (and rejects the expired ones with 'Message expired'), and starts the
    heartbeat interval. *)
Theorem onopen_drains_queue_in_order (w : World) s :
  wsRef w = Some s -> readyStateOf s w = Some CONNECTING -> queue_ok w = true ->
  exists w',
    step (SocketOpen s) w = Some w'
    /\ reconnectAttempts w' = 0%nat
    /\ connectionState w' = connected
    /\ messageQueueRef w' = []
    /\ (exists ks,
          List.length ks = List.length (messageQueueRef w)
          /\ Forall (fun k => (reads w <= k < reads w')%nat) ks
          /\ wire w'
             = wire w ++ map (sentFrame s)
                            (filter keptAt (combine (messageQueueRef w) ks))
          /\ settle_log w'
             = settle_log w
               ++ map expiredEntry
                      (filter (fun qk => negb (keptAt qk))
                              (combine (messageQueueRef w) ks)))
    /\ (exists tid,
          heartbeatTimeoutRef w' = Some tid
          /\ In (tid, {| due := now w' + 30000; action := HeartbeatInterval |})
                (timers w')).
Proof.
  intros Hs Hr Hq.
  destruct (onopen_spec w s Hs Hr Hq) as (w' & Hstep & Ha & Hc & Hqe & Hd & Hh).
  cbn zeta in Hd. destruct Hd as (Hb & Hw & Hl).
  exists w'. repeat split; try assumption.
  exists (checkReads (reads w) (messageQueueRef w)).
  repeat split; try assumption. apply checkReads_length.
Qed.

(** *** The table of pending requests *)

Lemma JsMap_get_set {V} k k' (v : V) m :
  JsMap.get k' (JsMap.set k v m)
  = if String.eqb k' k then Some v else JsMap.get k' m.
Proof.
  induction m as [|[k0 v0] m IH]; cbn.
  - reflexivity.
  - destruct (String.eqb_spec k k0) as [->|Hk]; cbn.
    + destruct (String.eqb_spec k' k0); reflexivity.
    + rewrite IH. destruct (String.eqb_spec k' k0) as [->|]; [|reflexivity].
      destruct (String.eqb_spec k0 k); congruence.
Qed.

Lemma JsMap_has_set {V} k k' (v : V) m :
  JsMap.has k' (JsMap.set k v m) = (String.eqb k' k || JsMap.has k' m)%bool.
Proof.
  unfold JsMap.has. rewrite JsMap_get_set.
  destruct (String.eqb k' k); reflexivity.
Qed.

Lemma JsMap_has_delete_other {V} k k' (m : list (string * V)) :
  JsMap.has k' (JsMap.delete k m) = true -> JsMap.has k' m = true.
Proof.
  unfold JsMap.has. induction m as [|[k0 v0] m IH]; cbn; [auto|].
  destruct (String.eqb_spec k k0) as [->|Hk]; cbn.
  - destruct (String.eqb k' k0); auto.
  - destruct (String.eqb k' k0); auto.
Qed.

Lemma JsMap_unique_set {V} k (v : V) m :
  JsMap.uniqueKeys m = true -> JsMap.uniqueKeys (JsMap.set k v m) = true.
Proof.
  induction m as [|[k0 v0] m IH]; cbn; [reflexivity|].
  rewrite andb_true_iff, negb_true_iff. intros [Hn Hu].
  destruct (String.eqb_spec k k0) as [->|Hk]; cbn.
  - rewrite Hn, Hu. reflexivity.
  - rewrite JsMap_has_set, Hn, (IH Hu).
    destruct (String.eqb_spec k0 k); [congruence|reflexivity].
Qed.

Lemma JsMap_unique_delete {V} k (m : list (string * V)) :
  JsMap.uniqueKeys m = true -> JsMap.uniqueKeys (JsMap.delete k m) = true.
Proof.
  induction m as [|[k0 v0] m IH]; cbn; [reflexivity|].
  rewrite andb_true_iff, negb_true_iff. intros [Hn Hu].
  destruct (String.eqb_spec k k0) as [->|Hk]; cbn; [exact Hu|].
  rewrite (IH Hu), andb_true_r, negb_true_iff.
  destruct (JsMap.has k0 (JsMap.delete k m)) eqn:E; [|reflexivity].
  apply JsMap_has_delete_other in E. congruence.
Qed.

Lemma JsMap_has_delete_same {V} k (m : list (string * V)) :
  JsMap.uniqueKeys m = true -> JsMap.has k (JsMap.delete k m) = false.
Proof.
  unfold JsMap.has.
  induction m as [|[k0 v0] m IH]; cbn; [reflexivity|].
  rewrite andb_true_iff, negb_true_iff. intros [Hn Hu].
  destruct (String.eqb_spec k k0) as [->|Hk]; cbn.
  - exact Hn.
  - destruct (String.eqb_spec k k0); [congruence|]. apply IH. exact Hu.
Qed.

(** *** The request timeout *)

Lemma callsOf_unsettled p (w : World) :
  settled p w = false -> callsOf p w = [].
Proof.
  unfold settled, callsOf. induction (settle_log w) as [|e l IH]; cbn.
  - reflexivity.
  - intros H. apply orb_false_iff in H. destruct H as [-> H]. apply IH. exact H.
Qed.

Lemma callsOf_logSettle q p o (w : World) :
  callsOf q (logSettle p o w)
  = callsOf q w ++ (if Nat.eqb p q then [o] else []).
Proof.
  unfold callsOf, logSettle. cbn. rewrite filter_app, map_app. cbn.
  destruct (Nat.eqb p q); reflexivity.
Qed.

Lemma callsOf_log_app c (w w' : World) l :
  settle_log w' = settle_log w ++ l ->
  callsOf c w' = callsOf c w ++ map snd (filter (fun e => Nat.eqb (fst e) c) l).
Proof.
  unfold callsOf. intros ->. rewrite filter_app, map_app. reflexivity.
Qed.


(** A timer runs at or after the time it was armed for. *)
Lemma timer_fires_when_due tid (w w' : World) :
  step (TimerFire tid) w = Some w' ->
  exists t, findTimer tid (timers w) = Some t /\ due t <= now w.
Proof.
  unfold step. destruct (findTimer tid (timers w)) as [t|]; [|discriminate].
  destruct (Z.leb_spec (due t) (now w)); [|discriminate].
  intros _. exists t. split; [reflexivity|assumption].
Qed.


(** *** Invariants of the event loop *)

Lemma wf_spec (w : World) :
  wf w = true <->
  queue_ok w = true /\ reactions_ok w = true
  /\ JsMap.uniqueKeys (messageCallbacksRef w) = true.
Proof. unfold wf. rewrite !andb_true_iff. tauto. Qed.

Lemma ok_step_refl w : ok_step w w.
Proof. split; [auto|split; [lia|auto]]. Qed.

Lemma ok_step_trans w1 w2 w3 : ok_step w1 w2 -> ok_step w2 w3 -> ok_step w1 w3.
Proof.
  intros [A [B C]] [D [E F]]. split; [auto|split; [lia|auto]].
Qed.

Lemma same_core_ok w w' : same_core w w' -> ok_step w w'.
Proof.
  intros (Hn & Hr & Hq & Hc). split.
  - unfold wf, queue_ok, reactions_ok, caller_ok. rewrite Hn, Hr, Hq, Hc. auto.
  - split; [lia|]. intros c. unfold caller_ok. rewrite Hn, Hr. auto.
Qed.

Lemma keeps_traffic_core w w' : keeps_traffic w w' -> same_core w w'.
Proof. unfold keeps_traffic, same_core. tauto. Qed.

Lemma extends_forallb (w w' : World) (qs : list QueuedMessage) :
  extends w w' ->
  forallb (fun q => caller_ok (q_caller q) w) qs = true ->
  forallb (fun q => caller_ok (q_caller q) w') qs = true.
Proof.
  intros [_ H]. rewrite !forallb_forall. intros Hq q Hin. apply H, Hq, Hin.
Qed.

Lemma reactionOf_In p r rs : reactionOf p rs = Some r -> In (p, r) rs.
Proof.
  induction rs as [|[p' r'] rs IH]; cbn; [discriminate|].
  destruct (Nat.eqb_spec p p') as [->|]; intros H.
  - left. congruence.
  - right. apply IH. exact H.
Qed.

Lemma reactionOf_fresh c rs :
  (forall e, In e rs -> (fst e < c)%nat) -> reactionOf c rs = None.
Proof.
  induction rs as [|[p' r'] rs IH]; cbn; intros H; [reflexivity|].
  destruct (Nat.eqb_spec c p') as [->|].
  - specialize (H (p', r') (or_introl eq_refl)). cbn in H. lia.
  - apply IH. intros e He. apply H. right. exact He.
Qed.

(** The caller of a registered reaction is a caller's promise. *)
Lemma reactions_ok_caller p r (w : World) :
  reactions_ok w = true -> reactionOf p (reactions w) = Some r ->
  caller_ok (callerOf r) w = true.
Proof.
  unfold reactions_ok. rewrite forallb_forall. intros H Hr.
  apply reactionOf_In in Hr. specialize (H _ Hr). cbn in H.
  apply andb_true_iff in H. tauto.
Qed.

(** A state in which one more entry, for the caller's promise [c], has
    joined the queue. *)
Lemma enqueued_ok (w w' : World) q :
  caller_ok (q_caller q) w = true ->
  next_promise w' = next_promise w -> reactions w' = reactions w ->
  messageQueueRef w' = messageQueueRef w ++ [q] ->
  messageCallbacksRef w' = messageCallbacksRef w ->
  ok_step w w'.
Proof.
  intros Hc Hn Hr Hq Hm. split.
  - rewrite !wf_spec. intros (Q & R & U). repeat split.
    + unfold queue_ok, caller_ok in *. rewrite Hn, Hr, Hq, forallb_app, Q.
      cbn [forallb andb]. rewrite andb_true_r. exact Hc.
    + unfold reactions_ok, caller_ok in *. rewrite Hn, Hr. exact R.
    + rewrite Hm. exact U.
  - split; [lia|]. intros c. unfold caller_ok. rewrite Hn, Hr. auto.
Qed.

(** A state in which a fresh promise with reaction [r] has been
    registered, and the table is [m']. *)
Lemma registered_ok (w w' : World) r :
  caller_ok (callerOf r) w = true ->
  next_promise w' = S (next_promise w) ->
  reactions w' = (next_promise w, r) :: reactions w ->
  messageQueueRef w' = messageQueueRef w ->
  (JsMap.uniqueKeys (messageCallbacksRef w) = true ->
   JsMap.uniqueKeys (messageCallbacksRef w') = true) ->
  ok_step w w'.
Proof.
  intros Hc Hn Hr Hq Hm.
  assert (extends w w') as E.
  { split; [lia|]. intros c H. eapply caller_ok_fresh_reaction; eauto. }
  split; [|exact E].
  rewrite !wf_spec. intros (Q & R & U). repeat split.
  - unfold queue_ok in *. rewrite Hq. eapply extends_forallb; eauto.
  - unfold reactions_ok in *. rewrite Hr. cbn [forallb fst snd].
    rewrite Hn. rewrite (proj2 E _ Hc).
    replace (next_promise w <? S (next_promise w))%nat with true
      by (symmetry; apply Nat.ltb_lt; lia).
    cbn [andb]. rewrite forallb_forall in *. intros e He. specialize (R e He).
    apply andb_true_iff in R. destruct R as [R1 R2].
    apply Nat.ltb_lt in R1. apply andb_true_iff. split.
    + apply Nat.ltb_lt. lia.
    + apply (proj2 E). exact R2.
  - apply Hm. exact U.
Qed.

Lemma enqueue_ok req c (w : World) :
  caller_ok c w = true -> ok_step w (enqueue req c w).
Proof.
  intros Hc.
  apply (enqueued_ok w (enqueue req c w)
           {| request := req; q_caller := c; q_timestamp := now w |});
    try reflexivity. exact Hc.
Qed.

Lemma connect_ok (w : World) : ok_step w (connect w).
Proof. apply same_core_ok, keeps_traffic_core, connect_keeps_traffic. Qed.

Lemma reconnect_ok (w : World) : ok_step w (reconnect w).
Proof. apply same_core_ok, keeps_traffic_core, reconnect_keeps_traffic. Qed.

Lemma sendMessageRoute_ok req c cs (w : World) :
  caller_ok c w = true -> ok_step w (sendMessageRoute req c cs w).
Proof.
  intros Hc. unfold sendMessageRoute. destruct cs.
  - apply enqueue_ok. exact Hc.
  - apply same_core_ok. repeat split.
  - eapply ok_step_trans; [apply reconnect_ok|].
    apply enqueue_ok. apply (proj2 (proj2 (reconnect_ok w))). exact Hc.
  - eapply ok_step_trans; [apply reconnect_ok|].
    apply enqueue_ok. apply (proj2 (proj2 (reconnect_ok w))). exact Hc.
Qed.

Lemma logSettle_ok p o (w : World) : ok_step w (logSettle p o w).
Proof. apply same_core_ok. repeat split. Qed.

Lemma settle_ok p o (w : World) :
  reactions_ok w = true -> ok_step w (settle p o w).
Proof.
  intros R. unfold settle.
  destruct (negb (settled p w)); [|apply logSettle_ok].
  change (reactions (logSettle p o w)) with (reactions w).
  destruct (reactionOf p (reactions w)) as [[c | c req cs] |] eqn:E.
  - apply same_core_ok. repeat split.
  - destruct o.
    + apply same_core_ok. repeat split.
    + eapply ok_step_trans; [apply (logSettle_ok p (Rejected msg))|].
      apply sendMessageRoute_ok.
      apply (reactions_ok_caller p (Await c req cs) w R E).
  - apply logSettle_ok.
Qed.

Lemma wf_reactions_ok (w : World) : wf w = true -> reactions_ok w = true.
Proof. intros H. apply wf_spec in H. tauto. Qed.

Lemma wf_queue_ok (w : World) : wf w = true -> queue_ok w = true.
Proof. intros H. apply wf_spec in H. tauto. Qed.

Lemma sendMessageInternal_ok req r (w : World) :
  wf w = true -> caller_ok (callerOf r) w = true ->
  ok_step w (snd (sendMessageInternal req r w)).
Proof.
  intros W C. unfold sendMessageInternal, newPromise. cbv beta iota.
  set (w1 := set_reactions _ _).
  assert (ok_step w w1) as S1
      by (apply (registered_ok w w1 r); auto; reflexivity).
  destruct (negb (currentIs OPEN w1)).
  - cbn [snd]. eapply ok_step_trans; [exact S1|].
    apply settle_ok, wf_reactions_ok, S1, W.
  - unfold Date_now, setTimer, ws_send. cbn.
    destruct (wsRef w); cbn;
      (apply (registered_ok w _ r); [exact C|reflexivity|reflexivity|reflexivity|]);
      cbn; apply JsMap_unique_set.
Qed.

Lemma processOne_ok (w : World) q :
  wf w = true -> caller_ok (q_caller q) w = true -> ok_step w (processOne w q).
Proof.
  intros W C. rewrite processOne_eq.
  set (w1 := set_reads (S (reads w)) w).
  assert (ok_step w w1) as S1 by (apply same_core_ok; repeat split).
  destruct (expiredAt (clock (reads w)) q).
  - eapply ok_step_trans; [exact S1|].
    apply settle_ok, wf_reactions_ok, S1, W.
  - eapply ok_step_trans; [exact S1|].
    apply sendMessageInternal_ok; [apply S1, W|]. exact C.
Qed.

Lemma drain_ok qs : forall (w : World),
  wf w = true ->
  forallb (fun q => caller_ok (q_caller q) w) qs = true ->
  ok_step w (fold_left processOne qs w).
Proof.
  induction qs as [|q qs IH]; intros w W Hq; cbn [fold_left].
  - apply ok_step_refl.
  - cbn [forallb] in Hq. apply andb_true_iff in Hq. destruct Hq as [Hq Hqs].
    pose proof (processOne_ok w q W Hq) as S1.
    eapply ok_step_trans; [exact S1|]. apply IH.
    + apply S1, W.
    + eapply extends_forallb; [apply S1|exact Hqs].
Qed.

(** Once the queue has been taken, the state is well formed again. *)
Lemma emptied_queue_wf (w : World) :
  wf w = true -> wf (set_messageQueueRef [] w) = true.
Proof.
  rewrite !wf_spec. intros (Q & R & U). repeat split; assumption.
Qed.

Lemma processMessageQueue_wf (w : World) :
  wf w = true -> wf (processMessageQueue w) = true.
Proof.
  intros W. unfold processMessageQueue.
  destruct (negb (currentIs OPEN w)); [exact W|].
  pose proof (emptied_queue_wf w W) as W1.
  refine (proj1 (drain_ok _ _ W1 _) W1).
  apply wf_queue_ok in W. exact W.
Qed.

Lemma onopen_wf (w : World) : wf w = true -> wf (onopen w) = true.
Proof.
  intros W. rewrite onopen_eq.
  assert (wf (onopen_prefix w) = true) as W1.
  { apply (same_core_ok w); [|exact W].
    pose proof (onopen_prefix_frame w) as P. cbn zeta in P.
    unfold same_core. repeat split; try apply P.
    unfold onopen_prefix. cbn. destruct (reconnectTimeoutRef w); reflexivity. }
  apply processMessageQueue_wf in W1.
  refine (proj1 (same_core_ok _ _ _) W1).
  unfold startHeartbeat, setTimer, clearTimer.
  destruct (heartbeatTimeoutRef (processMessageQueue (onopen_prefix w)));
    repeat split.
Qed.

Lemma deleted_entry_wf k (w : World) :
  wf w = true ->
  wf (set_messageCallbacksRef (JsMap.delete k (messageCallbacksRef w)) w) = true.
Proof.
  rewrite !wf_spec. intros (Q & R & U). repeat split; try assumption.
  apply JsMap_unique_delete, U.
Qed.

Lemma cleared_table_wf (w : World) :
  wf w = true -> wf (set_messageCallbacksRef [] w) = true.
Proof.
  rewrite !wf_spec. intros (Q & R & U). repeat split; assumption.
Qed.

Lemma settle_wf p o (w : World) : wf w = true -> wf (settle p o w) = true.
Proof. intros W. apply (settle_ok p o w); [apply wf_reactions_ok, W|exact W]. Qed.

Lemma onmessage_wf m (w : World) : wf w = true -> wf (onmessage m w) = true.
Proof.
  intros W. unfold onmessage. destruct m as [|type data]; [exact W|].
  destruct (String.eqb type "pong"); [exact W|].
  assert (wf (setLastMessage (Parsed type data) w) = true) as W1
      by (apply (same_core_ok w); [repeat split|exact W]).
  destruct (String.eqb type "chat_response").
  - destruct data as [d|]; [|exact W1].
    match goal with |- context [JsMap.get ?k ?m] => destruct (JsMap.get k m) end;
      [|exact W1].
    apply deleted_entry_wf, settle_wf, W1.
  - destruct (String.eqb type "settings_updated");
      [apply (same_core_ok _ _ ltac:(repeat split)), W1|].
    destruct (String.eqb type "service_status");
      [apply (same_core_ok _ _ ltac:(repeat split)), W1|exact W1].
Qed.

Lemma connectionLost_fold_wf entries : forall (w : World),
  wf w = true -> wf (fold_left connectionLost entries w) = true.
Proof.
  induction entries as [|e es IH]; intros w W; cbn [fold_left]; [exact W|].
  apply IH. unfold connectionLost, Date_now. apply settle_wf.
  apply (same_core_ok w); [repeat split|exact W].
Qed.

Lemma stopHeartbeat_core (w : World) : same_core w (stopHeartbeat w).
Proof. unfold stopHeartbeat. destruct (heartbeatTimeoutRef w); repeat split. Qed.

Lemma onclose_wf code (w : World) : wf w = true -> wf (onclose code w) = true.
Proof.
  intros W. unfold onclose.
  set (w1 := stopHeartbeat _).
  assert (wf w1 = true) as W1.
  { apply (same_core_ok w); [|exact W].
    destruct (stopHeartbeat_core
                (set_wsRef None
                   (setConnectionState disconnected (setIsConnected false w))))
      as (A & B & C & D).
    repeat split; assumption. }
  set (w2 := set_messageCallbacksRef [] _).
  assert (wf w2 = true) as W2
      by (apply cleared_table_wf, connectionLost_fold_wf, W1).
  repeat break_match; try exact W2;
    apply (same_core_ok w2); try exact W2; repeat split.
Qed.

Lemma requestTimeout_wf k p (w : World) :
  wf w = true -> wf (requestTimeout k p w) = true.
Proof.
  intros W. unfold requestTimeout.
  destruct (JsMap.has k (messageCallbacksRef w)); [|exact W].
  apply settle_wf, deleted_entry_wf, W.
Qed.

Lemma sendMessage_wf req (w : World) :
  wf w = true -> wf (snd (sendMessage req w)) = true.
Proof.
  intros W. unfold sendMessage, newPromise. cbv beta iota.
  set (w1 := set_next_promise (S (next_promise w)) w).
  assert (wf w1 = true /\ caller_ok (next_promise w) w1 = true) as [W1 C1].
  { apply wf_spec in W. destruct W as (Q & R & U).
    assert (forall c, caller_ok c w = true -> caller_ok c w1 = true) as E.
    { intros c. rewrite !caller_ok_spec. cbn. intros [? ?]. split; [lia|auto]. }
    split.
    - apply wf_spec. repeat split.
      + unfold queue_ok in *. rewrite forallb_forall in *.
        intros q Hin. apply E, Q, Hin.
      + unfold reactions_ok in *. rewrite forallb_forall in *.
        intros e Hin. specialize (R e Hin). apply andb_true_iff in R.
        destruct R as [R1 R2]. apply Nat.ltb_lt in R1.
        apply andb_true_iff. split; [apply Nat.ltb_lt; cbn; lia|apply E, R2].
      + exact U.
    - apply caller_ok_spec. cbn. split; [lia|].
      apply reactionOf_fresh. unfold reactions_ok in R.
      rewrite forallb_forall in R. intros e Hin. specialize (R e Hin).
      apply andb_true_iff in R. destruct R as [R1 _].
      apply Nat.ltb_lt in R1. exact R1. }
  destruct (currentIs OPEN w1); cbn [snd].
  - apply (sendMessageInternal_ok req _ w1); assumption.
  - apply (sendMessageRoute_ok req _ _ w1); assumption.
Qed.

Lemma clearTimer_core tid (w : World) : same_core w (clearTimer tid w).
Proof. repeat split. Qed.

Lemma fire_wf tid t (w : World) : wf w = true -> wf (fire tid t w) = true.
Proof.
  intros W. unfold fire. destruct (action t).
  - apply requestTimeout_wf. exact W.
  - unfold reconnectTimerFired. apply connect_ok.
    apply (same_core_ok w); [repeat split|exact W].
  - unfold heartbeatTick.
    match goal with |- context [currentIs OPEN ?x] =>
      destruct (currentIs OPEN x) end.
    + unfold Date_now, ws_send. cbn. destruct (wsRef w);
        apply (same_core_ok w); try exact W; repeat split.
    + exact W.
Qed.

Lemma unmount_wf (w : World) : wf w = true -> wf (unmount w) = true.
Proof.
  intros W. apply (same_core_ok w); [|exact W].
  unfold unmount, stopHeartbeat, ws_close, setReadyState, clearTimer.
  repeat break_match; repeat split.
Qed.

(** Every turn of the event loop keeps the state well formed. *)
Lemma step_wf e (w w' : World) :
  wf w = true -> step e w = Some w' -> wf w' = true.
Proof.
  intros W. destruct e; cbn [step].
  - intros [= <-]. apply connect_ok, W.
  - intros [= <-]. apply unmount_wf, W.
  - destruct (readyStateOf s w) as [[]|]; try discriminate.
    intros [= <-]. apply onopen_wf. exact W.
  - destruct (readyStateOf s w) as [[]|]; try discriminate;
      intros [= <-]; apply onmessage_wf, W.
  - destruct (readyStateOf s w) as [[]|]; try discriminate;
      intros [= <-]; exact W.
  - destruct (readyStateOf s w) as [[]|]; try discriminate;
      intros [= <-]; apply onclose_wf; exact W.
  - destruct (findTimer tid (timers w)) as [t|]; [|discriminate].
    destruct (due t <=? now w); [|discriminate].
    intros [= <-]. apply fire_wf, W.
  - intros [= <-]. apply sendMessage_wf, W.
  - intros [= <-]. apply reconnect_ok, W.
  - destruct (awaitsHttp c w); [|discriminate].
    intros [= <-]. apply settle_wf. exact W.
  - intros [= <-]. exact W.
Qed.

Lemma run_wf es : forall (w w' : World),
  wf w = true -> run es w = Some w' -> wf w' = true.
Proof.
  induction es as [|e es IH]; intros w w' W; cbn [run].
  - intros [= <-]. exact W.
  - destruct (step e w) as [w1|] eqn:E; [|discriminate].
    apply IH. eapply step_wf; eauto.
Qed.

Lemma reachable_wf (w : World) : reachable w -> wf w = true.
Proof. intros [es H]. eapply run_wf; [|exact H]. reflexivity. Qed.

(** *** The queue between two opens *)

Lemma queue_kept_same (w w' : World) :
  messageQueueRef w' = messageQueueRef w -> queue_kept w w'.
Proof. intros H. exists []. rewrite app_nil_r. exact H. Qed.

Lemma queue_kept_trans w1 w2 w3 :
  queue_kept w1 w2 -> queue_kept w2 w3 -> queue_kept w1 w3.
Proof.
  intros [n1 H1] [n2 H2]. exists (n1 ++ n2). rewrite H2, H1, app_assoc.
  reflexivity.
Qed.

Lemma same_core_queue_kept (w w' : World) : same_core w w' -> queue_kept w w'.
Proof. intros (_ & _ & H & _). apply queue_kept_same, H. Qed.

Lemma sendMessageRoute_queue_kept req c cs (w : World) :
  queue_kept w (sendMessageRoute req c cs w).
Proof.
  unfold sendMessageRoute.
  assert (forall w0, queue_kept w0 (enqueue req c w0)) as E
      by (intros w0; eexists; reflexivity).
  pose proof (same_core_queue_kept _ _
                (keeps_traffic_core _ _ (reconnect_keeps_traffic w))) as R.
  destruct cs.
  - apply E.
  - apply queue_kept_same. reflexivity.
  - eapply queue_kept_trans; [exact R|apply E].
  - eapply queue_kept_trans; [exact R|apply E].
Qed.

Lemma settle_queue_kept p o (w : World) : queue_kept w (settle p o w).
Proof.
  unfold settle. destruct (negb (settled p w));
    [|apply queue_kept_same; reflexivity].
  change (reactions (logSettle p o w)) with (reactions w).
  destruct (reactionOf p (reactions w)) as [[c | c req cs] |];
    try (apply queue_kept_same; reflexivity).
  destruct o; [apply queue_kept_same; reflexivity|].
  apply (queue_kept_trans w (logSettle p (Rejected msg) w));
    [apply queue_kept_same; reflexivity|apply sendMessageRoute_queue_kept].
Qed.

Lemma sendMessageInternal_queue_kept req r (w : World) :
  queue_kept w (snd (sendMessageInternal req r w)).
Proof.
  unfold sendMessageInternal, newPromise. cbv beta iota.
  set (w1 := set_reactions _ _).
  destruct (negb (currentIs OPEN w1)); cbn [snd].
  - apply (queue_kept_trans w w1); [apply queue_kept_same; reflexivity|].
    apply settle_queue_kept.
  - unfold Date_now, setTimer, ws_send. cbn.
    destruct (wsRef w); apply queue_kept_same; reflexivity.
Qed.

Lemma onmessage_queue_kept m (w : World) : queue_kept w (onmessage m w).
Proof.
  unfold onmessage. repeat break_match; try (apply queue_kept_same; reflexivity).
  match goal with |- context [settle ?p ?o ?x] =>
    pose proof (settle_queue_kept p o x) as [new H] end.
  exists new. exact H.
Qed.

Lemma connectionLost_fold_queue_kept entries : forall (w : World),
  queue_kept w (fold_left connectionLost entries w).
Proof.
  induction entries as [|e es IH]; intros w; cbn [fold_left].
  - apply queue_kept_same. reflexivity.
  - eapply queue_kept_trans; [|apply IH].
    unfold connectionLost, Date_now.
    match goal with |- context [settle ?p ?o ?x] =>
      pose proof (settle_queue_kept p o x) as [new H] end.
    exists new. exact H.
Qed.

Lemma onclose_queue_kept code (w : World) : queue_kept w (onclose code w).
Proof.
  unfold onclose.
  set (w1 := stopHeartbeat _).
  assert (queue_kept w w1) as K1.
  { apply queue_kept_same.
    destruct (stopHeartbeat_core
                (set_wsRef None
                   (setConnectionState disconnected (setIsConnected false w))))
      as (_ & _ & H & _). exact H. }
  pose proof (connectionLost_fold_queue_kept (messageCallbacksRef w1) w1) as K2.
  pose proof (queue_kept_trans _ _ _ K1 K2) as [new K].
  repeat break_match; exists new; exact K.
Qed.

Lemma requestTimeout_queue_kept k p (w : World) :
  queue_kept w (requestTimeout k p w).
Proof.
  unfold requestTimeout. destruct (JsMap.has k (messageCallbacksRef w)).
  - match goal with |- context [settle ?p ?o ?x] =>
      pose proof (settle_queue_kept p o x) as [new H] end.
    exists new. exact H.
  - apply queue_kept_same. reflexivity.
Qed.

Lemma fire_queue_kept tid t (w : World) : queue_kept w (fire tid t w).
Proof.
  unfold fire. destruct (action t).
  - pose proof (requestTimeout_queue_kept messageId p (clearTimer tid w))
      as [new H].
    exists new. exact H.
  - unfold reconnectTimerFired.
    match goal with |- queue_kept _ (connect ?x) =>
      destruct (connect_keeps_traffic x) as (_ & _ & _ & _ & H & _) end.
    apply queue_kept_same. exact H.
  - unfold heartbeatTick.
    match goal with |- context [currentIs OPEN ?x] =>
      destruct (currentIs OPEN x) end.
    + unfold Date_now, ws_send. cbn.
      destruct (wsRef w); apply queue_kept_same; reflexivity.
    + apply queue_kept_same. reflexivity.
Qed.

Lemma sendMessage_queue_kept req (w : World) :
  queue_kept w (snd (sendMessage req w)).
Proof.
  unfold sendMessage, newPromise. cbv beta iota.
  set (w1 := set_next_promise (S (next_promise w)) w).
  destruct (currentIs OPEN w1); cbn [snd].
  - pose proof (sendMessageInternal_queue_kept
                  req (Await (next_promise w) req (connectionState w1)) w1)
      as [new H].
    exists new. exact H.
  - pose proof (sendMessageRoute_queue_kept
                  req (next_promise w) (connectionState w1) w1) as [new H].
    exists new. exact H.
Qed.

(** No turn other than the open event of a socket takes anything out of
    the queue. *)
Lemma step_queue_kept e (w w' : World) :
  (forall s, e <> SocketOpen s) -> step e w = Some w' -> queue_kept w w'.
Proof.
  intros Hne. destruct e; cbn [step].
  - intros [= <-]. apply same_core_queue_kept, keeps_traffic_core,
                     connect_keeps_traffic.
  - intros [= <-]. apply queue_kept_same.
    unfold unmount, stopHeartbeat, ws_close, setReadyState, clearTimer.
    repeat break_match; reflexivity.
  - exfalso. apply (Hne s). reflexivity.
  - destruct (readyStateOf s w) as [[]|]; try discriminate;
      intros [= <-]; apply onmessage_queue_kept.
  - destruct (readyStateOf s w) as [[]|]; try discriminate;
      intros [= <-]; apply queue_kept_same; reflexivity.
  - destruct (readyStateOf s w) as [[]|]; try discriminate;
      intros [= <-];
      pose proof (onclose_queue_kept code (setReadyState s CLOSED w)) as [new H];
      exists new; exact H.
  - destruct (findTimer tid (timers w)) as [t|]; [|discriminate].
    destruct (due t <=? now w); [|discriminate].
    intros [= <-]. apply fire_queue_kept.
  - intros [= <-]. apply sendMessage_queue_kept.
  - intros [= <-]. apply same_core_queue_kept, keeps_traffic_core,
                     reconnect_keeps_traffic.
  - destruct (awaitsHttp c w); [|discriminate].
    intros [= <-].
    match goal with |- context [settle ?p ?o ?x] =>
      pose proof (settle_queue_kept p o x) as [new H] end.
    exists new. exact H.
  - intros [= <-]. apply queue_kept_same. reflexivity.
Qed.

Lemma in_combine_with {A B} (a : A) (l : list A) (l' : list B) :
  List.length l' = List.length l -> In a l ->
  exists b, In (a, b) (combine l l') /\ In b l'.
Proof.
  revert l'. induction l as [|x l IH]; intros [|y l'] Hlen Hin; cbn in *;
    try discriminate; try contradiction.
  destruct Hin as [->|Hin].
  - exists y. split; left; reflexivity.
  - destruct (IH l' ltac:(lia) Hin) as (b & H1 & H2).
    exists b. split; right; assumption.
Qed.

Lemma first_call_constant c o (l : list (Promise * Outcome)) :
  (forall e, In e l -> snd e = o) ->
  (exists e, In e l /\ fst e = c) ->
  hd_error (map snd (filter (fun e => Nat.eqb (fst e) c) l)) = Some o.
Proof.
  induction l as [|[p o'] l IH]; intros Hall [e0 [Hin Hc]]; [contradiction|].
  cbn [filter fst]. destruct (Nat.eqb_spec p c) as [E|E].
  - cbn. f_equal. apply (Hall (p, o')). left. reflexivity.
  - apply IH.
    + intros e1 H1. apply Hall. right. exact H1.
    + destruct Hin as [Hin|Hin]; [subst e0; cbn in Hc; congruence|].
      exists e0. split; assumption.
Qed.

(** C5, as the code has it.  A queued message that is older than 300000 ms
    at every later reading of the clock is rejected with 'Message expired'
    and leaves the queue in the turn in which the current socket opens and
    the queue is drained.  Expiry is checked only there: any other event
    leaves the message in the queue. *)
Theorem stale_message_expires_only_when_drained (w : World) q s :
  In q (messageQueueRef w) ->
  wsRef w = Some s -> readyStateOf s w = Some CONNECTING ->
  queue_ok w = true ->
  callsOf (q_caller q) w = [] ->
  (forall k, (reads w <= k)%nat -> clock k - q_timestamp q > 300000) ->
  (exists w',
      step (SocketOpen s) w = Some w'
      /\ messageQueueRef w' = []
      /\ stateOf (q_caller q) w' = Some (Rejected "Message expired"))
  /\ (forall e w',
        (forall s', e <> SocketOpen s') -> step e w = Some w' ->
        In q (messageQueueRef w')).
Proof.
  intros Hin Hs Hr Hq Hnone Hstale. split.
  - destruct (onopen_spec w s Hs Hr Hq) as (w' & Hstep & _ & _ & Hqe & Hd & _).
    cbn zeta in Hd. destruct Hd as (Hb & _ & Hl).
    exists w'. repeat split; try assumption.
    unfold stateOf. rewrite (callsOf_log_app _ _ _ _ Hl), Hnone.
    cbn [app]. apply first_call_constant.
    + intros e He. apply in_map_iff in He. destruct He as (qk & <- & _).
      reflexivity.
    + destruct (in_combine_with q (messageQueueRef w)
                  (checkReads (reads w) (messageQueueRef w))
                  (checkReads_length _ _) Hin) as (k & Hqk & Hk).
      exists (expiredEntry (q, k)). split; [|reflexivity].
      apply in_map. apply filter_In. split; [exact Hqk|].
      unfold keptAt, expiredAt. cbn [fst snd].
      rewrite Forall_forall in Hb. specialize (Hb k Hk).
      specialize (Hstale k ltac:(lia)).
      rewrite negb_involutive. apply Z.gtb_lt. lia.
  - intros e w' Hne Hstep.
    destruct (step_queue_kept e w w' Hne Hstep) as [new Hnew].
    rewrite Hnew. apply in_or_app. left. exact Hin.
Qed.

(** *** Registration *)

Lemma JsMap_unique_NoDup {V} (m : list (string * V)) :
  JsMap.uniqueKeys m = true -> NoDup (JsMap.keys m).
Proof.
  induction m as [|[k v] m IH]; cbn; [constructor|].
  rewrite andb_true_iff, negb_true_iff. intros [Hn Hu].
  constructor; [|apply IH, Hu].
  clear -Hn. unfold JsMap.has in Hn. induction m as [|[k' v'] m IH]; cbn in *.
  - auto.
  - destruct (String.eqb_spec k k') as [->|Hk]; [discriminate|].
    intros [E|E]; [congruence|]. apply IH; assumption.
Qed.



(** *** Connection loss *)

Lemma connectionLost_fold_spec entries : forall (w : World),
  exists n l,
    fold_left connectionLost entries w
    = set_settle_log (settle_log w ++ l) (set_reads n w)
    /\ forall e, In e entries ->
                 exists t, In (snd e, Fulfilled (connectionLostResponse t)) l.
Proof.
  induction entries as [|e es IH]; intros w; cbn [fold_left].
  - exists (reads w), []. split; [|intros e []].
    rewrite app_nil_r. destruct w; reflexivity.
  - unfold connectionLost at 2. unfold Date_now.
    fold (connectionLostResponse (now w)).
    destruct (settle_fulfilled (snd e) (connectionLostResponse (now w))
                               (set_reads (S (reads w)) w)) as [l0 H0].
    rewrite H0.
    match goal with |- context [fold_left _ _ ?x] =>
      destruct (IH x) as (n & l & Hf & Hl) end.
    exists n, ((snd e, Fulfilled (connectionLostResponse (now w))) :: l0 ++ l).
    split.
    + rewrite Hf. cbn. rewrite <- app_assoc. reflexivity.
    + intros e1 [<-|H1].
      * exists (now w). left. reflexivity.
      * destruct (Hl e1 H1) as [t Ht]. exists t. right.
        apply in_or_app. right. exact Ht.
Qed.

(** What [ws.onclose] does to the pending requests: the table is emptied,
    the callback of every entry has been called with the 'Connection
    lost' response, and a reconnect timer is armed when the close code is
    not 1000 and the attempt cap is not reached. *)
Lemma onclose_spec code (w : World) :
  let w' := onclose code w in
  messageCallbacksRef w' = []
  /\ wsRef w' = None
  /\ (forall e, In e (messageCallbacksRef w) ->
       exists t, In (snd e, Fulfilled (connectionLostResponse t)) (settle_log w'))
  /\ (code <> 1000 -> (reconnectAttempts w < maxReconnectAttempts)%nat ->
      exists tid,
        reconnectTimeoutRef w' = Some tid
        /\ In (tid, {| due := now w' + reconnectDelay (reconnectAttempts w);
                       action := ReconnectTimer |}) (timers w')).
Proof.
  cbn zeta. unfold onclose.
  set (w1 := stopHeartbeat _).
  assert (messageCallbacksRef w1 = messageCallbacksRef w
          /\ reconnectAttempts w1 = reconnectAttempts w
          /\ wsRef w1 = None) as (M1 & A1 & R1)
      by (subst w1; unfold stopHeartbeat; cbn;
          destruct (heartbeatTimeoutRef w); repeat split).
  destruct (connectionLost_fold_spec (messageCallbacksRef w1) w1)
    as (n & l & Hf & Hl).
  rewrite Hf. cbn [reconnectAttempts set_messageCallbacksRef set_settle_log
                   set_reads].
  rewrite A1.
  assert (forall e, In e (messageCallbacksRef w) ->
            exists t, In (snd e, Fulfilled (connectionLostResponse t))
                         (settle_log w1 ++ l)) as Hall.
  { intros e He. rewrite <- M1 in He. destruct (Hl e He) as [t Ht].
    exists t. apply in_or_app. right. exact Ht. }
  destruct (negb (code =? 1000)) eqn:Hcode;
    destruct (reconnectAttempts w <? maxReconnectAttempts)%nat eqn:Hatt;
    cbn [andb].
  - repeat split; try exact Hall; try exact R1.
    intros _ _. eexists. split; [reflexivity|].
    unfold scheduleReconnect, setTimer, now. cbn. rewrite A1.
    apply in_or_app. right. left. reflexivity.
  - destruct (maxReconnectAttempts <=? reconnectAttempts w)%nat;
      (repeat split; try exact Hall; try exact R1);
      intros _ Hlt; apply Nat.ltb_lt in Hlt; congruence.
  - destruct (maxReconnectAttempts <=? reconnectAttempts w)%nat;
      (repeat split; try exact Hall; try exact R1);
      intros Hc _; apply negb_false_iff, Z.eqb_eq in Hcode; contradiction.
  - destruct (maxReconnectAttempts <=? reconnectAttempts w)%nat;
      (repeat split; try exact Hall; try exact R1);
      intros Hc _; apply negb_false_iff, Z.eqb_eq in Hcode; contradiction.
Qed.


(** *** A promise nothing refers to is never settled *)

Section Quiet.

Variable dead : Promise -> bool.
Variable bound : nat.
Hypothesis dead_below_bound : forall x, dead x = true -> (x < bound)%nat.

Lemma fresh_promise_alive (w : World) :
  (bound <= next_promise w)%nat -> negb (dead (next_promise w)) = true.
Proof.
  intros H. destruct (dead (next_promise w)) eqn:E; [|reflexivity].
  apply dead_below_bound in E. lia.
Qed.

Lemma quiet_same_promises (w w' : World) :
  same_promises dead w w' -> quiet dead bound w -> quiet dead bound w'.
Proof.
  intros (H1 & H2 & H3 & H4 & H5 & H6 & H7) (Q1 & Q2 & Q3 & Q4 & Q5 & Q6 & Q7).
  unfold quiet. rewrite H1, H2, H3, H4, H5, H6. repeat split; try assumption.
  rewrite forallb_forall in *. intros t Ht.
  destruct (H7 t Ht) as [Hin|Hok]; [apply Q3, Hin|exact Hok].
Qed.

Lemma same_promises_refl w : same_promises dead w w.
Proof. unchanged_promises. Qed.

Lemma same_promises_trans w1 w2 w3 :
  same_promises dead w1 w2 -> same_promises dead w2 w3 -> same_promises dead w1 w3.
Proof.
  intros (A1 & A2 & A3 & A4 & A5 & A6 & A7) (B1 & B2 & B3 & B4 & B5 & B6 & B7).
  repeat split; try congruence.
  intros t Ht. destruct (B7 t Ht) as [H|H]; [apply A7, H|right; exact H].
Qed.

Lemma clearTimer_same_promises tid (w : World) :
  same_promises dead w (clearTimer tid w).
Proof.
  repeat split. intros t Ht. left. unfold clearTimer in Ht. cbn in Ht.
  apply filter_In in Ht. tauto.
Qed.

Lemma setTimer_same_promises delay a (w : World) :
  (forall k p, a <> RequestTimeout k p) ->
  same_promises dead w (snd (setTimer delay a w)).
Proof.
  intros Ha. repeat split. intros t Ht. unfold setTimer in Ht. cbn in Ht.
  apply in_app_or in Ht. destruct Ht as [Ht|[<-|[]]]; [left; exact Ht|right].
  unfold timerAvoids. cbn. destruct a; try reflexivity.
  exfalso. eapply Ha. reflexivity.
Qed.

Lemma scheduleReconnect_same_promises (w : World) :
  same_promises dead w (scheduleReconnect w).
Proof.
  unfold scheduleReconnect.
  pose proof (setTimer_same_promises
                (reconnectDelay (reconnectAttempts w)) ReconnectTimer w
                ltac:(discriminate)) as H.
  destruct (setTimer (reconnectDelay (reconnectAttempts w)) ReconnectTimer w)
    as [tid w1]. cbn [snd] in H.
  eapply same_promises_trans; [exact H|]. repeat split.
  intros t Ht. left. exact Ht.
Qed.

Lemma connect_same_promises (w : World) : same_promises dead w (connect w).
Proof.
  unfold connect. destruct (currentIs CONNECTING w); [unchanged_promises|].
  set (w1 := setConnectionState connecting w).
  assert (same_promises dead w w1) as H1 by unchanged_promises.
  destruct (ctor_throws (List.length (sockets w1))); [|exact H1].
  destruct (reconnectAttempts (setConnectionState error w1) <? maxReconnectAttempts)%nat;
    [|exact H1].
  eapply same_promises_trans; [exact H1|].
  apply (scheduleReconnect_same_promises (setConnectionState error w1)).
Qed.

Lemma ws_close_same_promises s (w : World) : same_promises dead w (ws_close s w).
Proof.
  unfold ws_close, setReadyState. repeat break_match; unchanged_promises.
Qed.

Lemma reconnect_same_promises (w : World) : same_promises dead w (reconnect w).
Proof.
  unfold reconnect.
  eapply same_promises_trans; [|apply connect_same_promises].
  set (w1 := match reconnectTimeoutRef w with Some _ => _ | None => _ end).
  assert (same_promises dead w w1) as H1.
  { subst w1. destruct (reconnectTimeoutRef w) as [t|];
      [|unchanged_promises].
    eapply same_promises_trans; [apply (clearTimer_same_promises t)|].
    unchanged_promises. }
  set (w2 := set_reconnectAttempts 0%nat w1).
  assert (same_promises dead w w2) as H2 by exact H1.
  destruct (wsRef w2) as [s|]; [|exact H2].
  eapply same_promises_trans; [exact H2|apply ws_close_same_promises].
Qed.

Lemma stopHeartbeat_same_promises (w : World) :
  same_promises dead w (stopHeartbeat w).
Proof.
  unfold stopHeartbeat. destruct (heartbeatTimeoutRef w) as [t|];
    [|unchanged_promises].
  eapply same_promises_trans; [apply (clearTimer_same_promises t)|].
  unchanged_promises.
Qed.

Lemma startHeartbeat_same_promises (w : World) :
  same_promises dead w (startHeartbeat w).
Proof.
  unfold startHeartbeat.
  set (w1 := match heartbeatTimeoutRef w with Some _ => _ | None => _ end).
  assert (same_promises dead w w1) as H1.
  { subst w1. destruct (heartbeatTimeoutRef w) as [t|];
      [apply clearTimer_same_promises|unchanged_promises]. }
  pose proof (setTimer_same_promises 30000 HeartbeatInterval w1
                ltac:(discriminate)) as H.
  destruct (setTimer 30000 HeartbeatInterval w1) as [tid w2]. cbn [snd] in H.
  eapply same_promises_trans; [exact H1|].
  eapply same_promises_trans; [exact H|].
  unchanged_promises.
Qed.

Lemma quiet_logSettle x o (w : World) :
  negb (dead x) = true -> quiet dead bound w ->
  quiet dead bound (logSettle x o w).
Proof.
  intros Hx (Q1 & Q2 & Q3 & Q4 & Q5 & Q6 & Q7).
  unfold quiet, logSettle. cbn. rewrite forallb_app, Q1. cbn. rewrite Hx.
  repeat split; assumption.
Qed.

Lemma quiet_enqueue req c (w : World) :
  negb (dead c) = true -> quiet dead bound w ->
  quiet dead bound (enqueue req c w).
Proof.
  intros Hc (Q1 & Q2 & Q3 & Q4 & Q5 & Q6 & Q7).
  unfold quiet, enqueue, Date_now. cbn. rewrite forallb_app, Q4. cbn.
  rewrite Hc. repeat split; assumption.
Qed.

Lemma quiet_sendHttpMessage req c (w : World) :
  negb (dead c) = true -> quiet dead bound w ->
  quiet dead bound (sendHttpMessage req c w).
Proof.
  intros Hc (Q1 & Q2 & Q3 & Q4 & Q5 & Q6 & Q7).
  unfold quiet, sendHttpMessage. cbn. rewrite forallb_app, Q5. cbn.
  rewrite Hc. repeat split; assumption.
Qed.

Lemma quiet_sendMessageRoute req c cs (w : World) :
  negb (dead c) = true -> quiet dead bound w ->
  quiet dead bound (sendMessageRoute req c cs w).
Proof.
  intros Hc Q. unfold sendMessageRoute. destruct cs.
  - apply quiet_enqueue; assumption.
  - apply quiet_sendHttpMessage; assumption.
  - apply quiet_enqueue; [assumption|].
    apply (quiet_same_promises w); [apply reconnect_same_promises|exact Q].
  - apply quiet_enqueue; [assumption|].
    apply (quiet_same_promises w); [apply reconnect_same_promises|exact Q].
Qed.

Lemma quiet_reaction_caller x r (w : World) :
  quiet dead bound w -> negb (dead x) = true ->
  reactionOf x (reactions w) = Some r -> negb (dead (callerOf r)) = true.
Proof.
  intros (_ & _ & _ & _ & _ & Q6 & _) Hx Hr.
  apply reactionOf_In in Hr. rewrite forallb_forall in Q6.
  specialize (Q6 _ Hr). cbn in Q6.
  apply negb_true_iff in Hx. rewrite Hx in Q6. exact Q6.
Qed.

Lemma quiet_settle x o (w : World) :
  negb (dead x) = true -> quiet dead bound w -> quiet dead bound (settle x o w).
Proof.
  intros Hx Q. unfold settle.
  pose proof (quiet_logSettle x o w Hx Q) as Q1.
  destruct (negb (settled x w)); [|exact Q1].
  change (reactions (logSettle x o w)) with (reactions w).
  destruct (reactionOf x (reactions w)) as [r|] eqn:E; [|exact Q1].
  pose proof (quiet_reaction_caller x r w Q Hx E) as Hc.
  destruct r as [c | c req cs]; cbn in Hc.
  - apply quiet_logSettle; assumption.
  - destruct o.
    + apply quiet_logSettle; assumption.
    + apply quiet_sendMessageRoute; assumption.
Qed.

Lemma forallb_JsMap_set {V} (f : string * V -> bool) k v m :
  (forall k', f (k', v) = f (k, v)) ->
  f (k, v) = true -> forallb f m = true -> forallb f (JsMap.set k v m) = true.
Proof.
  intros Hk Hv. induction m as [|[k0 v0] m IH]; cbn.
  - rewrite Hv. reflexivity.
  - rewrite andb_true_iff. intros [H0 Hm].
    destruct (String.eqb k k0); cbn.
    + rewrite (Hk k0), Hv, Hm. reflexivity.
    + rewrite H0, (IH Hm). reflexivity.
Qed.

Lemma forallb_JsMap_delete {V} (f : string * V -> bool) k m :
  forallb f m = true -> forallb f (JsMap.delete k m) = true.
Proof.
  induction m as [|[k0 v0] m IH]; cbn; [auto|].
  rewrite andb_true_iff. intros [H0 Hm].
  destruct (String.eqb k k0); cbn; [exact Hm|].
  rewrite H0, (IH Hm). reflexivity.
Qed.

Lemma forallb_JsMap_get {V} (f : string * V -> bool) k v m :
  forallb f m = true -> JsMap.get k m = Some v -> exists k', f (k', v) = true.
Proof.
  induction m as [|[k0 v0] m IH]; cbn; [discriminate|].
  rewrite andb_true_iff. intros [H0 Hm].
  destruct (String.eqb k k0).
  - intros [= <-]. exists k0. exact H0.
  - apply IH. exact Hm.
Qed.

Lemma quiet_sendMessageInternal req r (w : World) :
  negb (dead (callerOf r)) = true -> quiet dead bound w ->
  quiet dead bound (snd (sendMessageInternal req r w)).
Proof.
  intros Hc Q. pose proof Q as (Q1 & Q2 & Q3 & Q4 & Q5 & Q6 & Q7).
  pose proof (fresh_promise_alive w Q7) as Hp.
  destruct (currentIs OPEN w) eqn:E.
  - apply currentIs_true in E. destruct E as (s & Hs & Hr).
    rewrite (sendMessageInternal_open req r s w Hs Hr). cbn [snd].
    unfold quiet.
    cbn [settle_log messageCallbacksRef timers messageQueueRef http_calls
         reactions next_promise set_wire set_next_timer set_timers
         set_messageCallbacksRef set_reads set_reactions set_next_promise].
    repeat split; try assumption.
    + apply forallb_JsMap_set; auto.
    + rewrite forallb_app, Q3. cbn [forallb andb]. unfold timerAvoids.
      cbn [snd action]. rewrite Hp. reflexivity.
    + cbn [forallb fst snd]. rewrite Hc, orb_true_r, Q6. reflexivity.
    + lia.
  - unfold sendMessageInternal, newPromise. cbv beta iota.
    set (w1 := set_reactions _ _).
    change (currentIs OPEN w1) with (currentIs OPEN w). rewrite E.
    cbn [negb snd]. apply quiet_settle; [exact Hp|].
    unfold quiet. subst w1.
    cbn [settle_log messageCallbacksRef timers messageQueueRef http_calls
         reactions next_promise set_reactions set_next_promise].
    repeat split; try assumption; [|lia].
    cbn [forallb fst snd]. rewrite Hc, orb_true_r, Q6. reflexivity.
Qed.


Lemma quiet_set_reads n (w : World) :
  quiet dead bound w -> quiet dead bound (set_reads n w).
Proof. intros Q. exact Q. Qed.

Lemma quiet_processOne (w : World) q :
  negb (dead (q_caller q)) = true -> quiet dead bound w ->
  quiet dead bound (processOne w q).
Proof.
  intros Hq Q. rewrite processOne_eq.
  destruct (expiredAt (clock (reads w)) q).
  - apply quiet_settle; [exact Hq|exact Q].
  - apply quiet_sendMessageInternal; [exact Hq|exact Q].
Qed.

Lemma quiet_drain qs : forall (w : World),
  forallb (fun q => negb (dead (q_caller q))) qs = true ->
  quiet dead bound w -> quiet dead bound (fold_left processOne qs w).
Proof.
  induction qs as [|q qs IH]; intros w Hqs Q; cbn [fold_left]; [exact Q|].
  cbn [forallb] in Hqs. apply andb_true_iff in Hqs. destruct Hqs as [Hq Hqs].
  apply IH; [exact Hqs|]. apply quiet_processOne; assumption.
Qed.

Lemma quiet_processMessageQueue (w : World) :
  quiet dead bound w -> quiet dead bound (processMessageQueue w).
Proof.
  intros Q. unfold processMessageQueue.
  destruct (negb (currentIs OPEN w)); [exact Q|].
  pose proof Q as (Q1 & Q2 & Q3 & Q4 & Q5 & Q6 & Q7).
  apply quiet_drain; [exact Q4|]. repeat split; assumption.
Qed.

Lemma quiet_onopen (w : World) :
  quiet dead bound w -> quiet dead bound (onopen w).
Proof.
  intros Q. rewrite onopen_eq.
  apply (quiet_same_promises _ _ (startHeartbeat_same_promises _)).
  apply quiet_processMessageQueue.
  refine (quiet_same_promises w _ _ Q).
  unfold onopen_prefix. cbn.
  destruct (reconnectTimeoutRef w) as [t|]; [|unchanged_promises].
  repeat split. intros t0 Ht. left. cbn in Ht. apply filter_In in Ht. tauto.
Qed.

Lemma quiet_delete k (w : World) :
  quiet dead bound w ->
  quiet dead bound
        (set_messageCallbacksRef (JsMap.delete k (messageCallbacksRef w)) w).
Proof.
  intros (Q1 & Q2 & Q3 & Q4 & Q5 & Q6 & Q7). repeat split; try assumption.
  apply forallb_JsMap_delete. exact Q2.
Qed.

Lemma quiet_onmessage m (w : World) :
  quiet dead bound w -> quiet dead bound (onmessage m w).
Proof.
  intros Q. unfold onmessage. destruct m as [|type data]; [exact Q|].
  destruct (String.eqb type "pong"); [exact Q|].
  destruct (String.eqb type "chat_response").
  - destruct data as [d|]; [|exact Q].
    cbn [messageCallbacksRef setLastMessage].
    destruct (JsMap.get (context_id d) (messageCallbacksRef w)) as [p|] eqn:E;
      [|exact Q].
    destruct Q as (Q1 & Q2 & Q3 & Q4 & Q5 & Q6 & Q7).
    destruct (forallb_JsMap_get _ _ _ _ Q2 E) as [k' Hp]. cbn in Hp.
    apply quiet_delete. apply quiet_settle; [exact Hp|].
    repeat split; assumption.
  - destruct (String.eqb type "settings_updated"); [exact Q|].
    destruct (String.eqb type "service_status"); exact Q.
Qed.

Lemma quiet_connectionLost_fold entries : forall (w : World),
  forallb (fun e => negb (dead (snd e))) entries = true ->
  quiet dead bound w -> quiet dead bound (fold_left connectionLost entries w).
Proof.
  induction entries as [|e es IH]; intros w He Q; cbn [fold_left]; [exact Q|].
  cbn [forallb] in He. apply andb_true_iff in He. destruct He as [He Hes].
  apply IH; [exact Hes|]. unfold connectionLost, Date_now.
  apply quiet_settle; [exact He|exact Q].
Qed.

Lemma quiet_onclose code (w : World) :
  quiet dead bound w -> quiet dead bound (onclose code w).
Proof.
  intros Q. unfold onclose.
  set (w1 := stopHeartbeat _).
  assert (quiet dead bound w1) as Q1.
  { refine (quiet_same_promises w _ _ Q).
    eapply same_promises_trans; [|apply stopHeartbeat_same_promises].
    unchanged_promises. }
  set (w2 := fold_left connectionLost (messageCallbacksRef w1) w1).
  assert (quiet dead bound w2) as Q2
      by (apply quiet_connectionLost_fold; [apply Q1|exact Q1]).
  set (w3 := set_messageCallbacksRef [] w2).
  assert (quiet dead bound w3) as Q3.
  { destruct Q2 as (A1 & A2 & A3 & A4 & A5 & A6 & A7).
    repeat split; assumption. }
  destruct (negb (code =? 1000) && (reconnectAttempts w3 <? maxReconnectAttempts)%nat).
  - apply (quiet_same_promises w3);
      [apply scheduleReconnect_same_promises|exact Q3].
  - destruct (maxReconnectAttempts <=? reconnectAttempts w3)%nat; exact Q3.
Qed.

Lemma quiet_requestTimeout k p (w : World) :
  negb (dead p) = true -> quiet dead bound w ->
  quiet dead bound (requestTimeout k p w).
Proof.
  intros Hp Q. unfold requestTimeout.
  destruct (JsMap.has k (messageCallbacksRef w)); [|exact Q].
  apply quiet_settle; [exact Hp|]. apply quiet_delete. exact Q.
Qed.

Lemma quiet_sendMessage req (w : World) :
  quiet dead bound w -> quiet dead bound (snd (sendMessage req w)).
Proof.
  intros Q. pose proof Q as (Q1 & Q2 & Q3 & Q4 & Q5 & Q6 & Q7).
  pose proof (fresh_promise_alive w Q7) as Hp.
  unfold sendMessage, newPromise. cbv beta iota.
  set (w1 := set_next_promise (S (next_promise w)) w).
  assert (quiet dead bound w1) as QA
      by (repeat split; try assumption; cbn; lia).
  destruct (currentIs OPEN w1); cbn [snd].
  - apply quiet_sendMessageInternal; [exact Hp|exact QA].
  - apply quiet_sendMessageRoute; [exact Hp|exact QA].
Qed.

Lemma findTimer_In tid t ts : findTimer tid ts = Some t -> In (tid, t) ts.
Proof.
  induction ts as [|[tid' t'] ts IH]; cbn; [discriminate|].
  destruct (Nat.eqb_spec tid tid') as [->|]; intros H.
  - left. congruence.
  - right. apply IH. exact H.
Qed.

Lemma quiet_fire tid t (w : World) :
  findTimer tid (timers w) = Some t ->
  quiet dead bound w -> quiet dead bound (fire tid t w).
Proof.
  intros Hf Q. unfold fire.
  destruct (action t) as [k p| |] eqn:Ha.
  - apply quiet_requestTimeout.
    + destruct Q as (_ & _ & Q3 & _). rewrite forallb_forall in Q3.
      specialize (Q3 _ (findTimer_In _ _ _ Hf)).
      unfold timerAvoids in Q3. cbn in Q3. rewrite Ha in Q3. exact Q3.
    + apply (quiet_same_promises w);
        [apply clearTimer_same_promises|exact Q].
  - unfold reconnectTimerFired.
    refine (quiet_same_promises w _ _ Q).
    eapply same_promises_trans; [|apply connect_same_promises].
    eapply same_promises_trans; [apply (clearTimer_same_promises tid)|].
    unchanged_promises.
  - refine (quiet_same_promises w _ _ Q).
    set (w1 := set_timers _ w).
    assert (same_promises dead w w1) as H1.
    { repeat split. intros t0 Ht. subst w1. cbn in Ht.
      apply in_map_iff in Ht. destruct Ht as (e & He & Hin).
      destruct (Nat.eqb (fst e) tid); [|left; congruence].
      right. subst t0. unfold timerAvoids. cbn. try rewrite Ha. reflexivity. }
    eapply same_promises_trans; [exact H1|].
    unfold heartbeatTick. destruct (currentIs OPEN w1); [|unchanged_promises].
    unfold Date_now, ws_send. cbn. destruct (wsRef w); unchanged_promises.
Qed.

Lemma quiet_unmount (w : World) :
  quiet dead bound w -> quiet dead bound (unmount w).
Proof.
  intros Q. refine (quiet_same_promises w _ _ Q).
  unfold unmount.
  set (w1 := match reconnectTimeoutRef w with Some _ => _ | None => _ end).
  assert (same_promises dead w w1) as H1
      by (subst w1; destruct (reconnectTimeoutRef w);
          [apply clearTimer_same_promises|unchanged_promises]).
  assert (same_promises dead w (stopHeartbeat w1)) as H2
      by (eapply same_promises_trans;
          [exact H1|apply stopHeartbeat_same_promises]).
  destruct (wsRef (stopHeartbeat w1)); [|exact H2].
  eapply same_promises_trans; [exact H2|apply ws_close_same_promises].
Qed.

Lemma awaitsHttp_alive c (w : World) :
  quiet dead bound w -> awaitsHttp c w = true -> negb (dead c) = true.
Proof.
  intros (_ & _ & _ & _ & Q5 & _) H. unfold awaitsHttp in H.
  apply existsb_exists in H. destruct H as (e & Hin & He).
  apply Nat.eqb_eq in He. subst c.
  rewrite forallb_forall in Q5. apply Q5, Hin.
Qed.

(** No turn of the event loop settles a promise of the set, or makes one
    reachable again. *)
Lemma quiet_step e (w w' : World) :
  quiet dead bound w -> step e w = Some w' -> quiet dead bound w'.
Proof.
  intros Q. destruct e; cbn [step].
  - intros [= <-].
    apply (quiet_same_promises w); [apply connect_same_promises|exact Q].
  - intros [= <-]. apply quiet_unmount, Q.
  - destruct (readyStateOf s w) as [[]|]; try discriminate.
    intros [= <-]. apply quiet_onopen. exact Q.
  - destruct (readyStateOf s w) as [[]|]; try discriminate;
      intros [= <-]; apply quiet_onmessage, Q.
  - destruct (readyStateOf s w) as [[]|]; try discriminate;
      intros [= <-]; exact Q.
  - destruct (readyStateOf s w) as [[]|]; try discriminate;
      intros [= <-]; apply quiet_onclose; exact Q.
  - destruct (findTimer tid (timers w)) as [t|] eqn:Hf; [|discriminate].
    destruct (due t <=? now w); [|discriminate].
    intros [= <-]. apply quiet_fire; assumption.
  - intros [= <-]. apply quiet_sendMessage, Q.
  - intros [= <-].
    apply (quiet_same_promises w);
      [apply reconnect_same_promises|exact Q].
  - destruct (awaitsHttp c w) eqn:Hc; [|discriminate].
    intros [= <-]. apply quiet_settle; [apply (awaitsHttp_alive c w Q Hc)|].
    destruct Q as (Q1 & Q2 & Q3 & Q4 & Q5 & Q6 & Q7).
    repeat split; try assumption. cbn.
    rewrite forallb_forall in *. intros e He. apply filter_In in He.
    apply Q5, He.
  - intros [= <-]. exact Q.
Qed.

Lemma quiet_run es : forall (w w' : World),
  quiet dead bound w -> run es w = Some w' -> quiet dead bound w'.
Proof.
  induction es as [|e es IH]; intros w w' Q; cbn [run].
  - intros [= <-]. exact Q.
  - destruct (step e w) as [w1|] eqn:E; [|discriminate].
    apply IH. eapply quiet_step; eauto.
Qed.

(** Whatever happens next, the callbacks of such a promise are never
    called. *)
Lemma quiet_never_called es x (w w' : World) :
  quiet dead bound w -> dead x = true -> run es w = Some w' ->
  callsOf x w' = [].
Proof.
  intros Q Hx Hrun. destruct (quiet_run es w w' Q Hrun) as (Q1 & _).
  unfold callsOf. rewrite forallb_forall in Q1.
  induction (settle_log w') as [|e l IH]; cbn [filter map]; [reflexivity|].
  match goal with |- context [Nat.eqb ?a ?b] =>
    destruct (Nat.eqb_spec a b) as [E|E] end.
  - specialize (Q1 e (or_introl eq_refl)). apply negb_true_iff in Q1.
    destruct e as [p o]. cbn in *. congruence.
  - apply IH. intros e0 H0. apply Q1. right. exact H0.
Qed.

End Quiet.


(** ** Further properties of the provider *)

(** *** Routing of [sendMessage] *)

(** X1.  [sendMessage] returns a new promise, settles nothing while it runs,
    and hands the request to exactly one path: one frame on the open
    socket, or one HTTP call when no socket is open and [connectionState]
    is 'connected', or one more entry at the end of the queue. *)
Theorem sendMessage_takes_one_path (req : ChatRequest) (w : World) :
  let c := fst (sendMessage req w) in
  let w' := snd (sendMessage req w) in
  c = next_promise w
  /\ settle_log w' = settle_log w
  /\ ((currentIs OPEN w = true
       /\ (exists s, wsRef w = Some s
                     /\ wire w' = wire w ++ [(s, ChatFrame req (toString (now w)))])
       /\ messageQueueRef w' = messageQueueRef w
       /\ http_calls w' = http_calls w)
      \/ (currentIs OPEN w = false /\ connectionState w = connected
          /\ http_calls w' = http_calls w ++ [(c, req)]
          /\ wire w' = wire w
          /\ messageQueueRef w' = messageQueueRef w)
      \/ (currentIs OPEN w = false /\ connectionState w <> connected
          /\ messageQueueRef w'
             = messageQueueRef w ++ [{| request := req; q_caller := c;
                                        q_timestamp := now w |}]
          /\ wire w' = wire w
          /\ http_calls w' = http_calls w)).
Proof.
  cbn zeta. unfold sendMessage, newPromise. cbv beta iota.
  set (w1 := set_next_promise (S (next_promise w)) w).
  change (currentIs OPEN w1) with (currentIs OPEN w).
  change (connectionState w1) with (connectionState w).
  destruct (currentIs OPEN w) eqn:Ho; cbn [fst snd].
  - apply currentIs_true in Ho. destruct Ho as (s & Hs & Hr).
    rewrite (sendMessageInternal_open req _ s w1 Hs Hr). cbn [snd].
    split; [reflexivity|]. split; [reflexivity|]. left.
    split; [reflexivity|]. split; [|split; reflexivity].
    exists s. split; [exact Hs|reflexivity].
  - split; [reflexivity|].
    pose proof (reconnect_keeps_traffic w1) as (K1 & K2 & K3 & K4 & K5 & _).
    destruct (connectionState w) eqn:Hcs;
      unfold sendMessageRoute, enqueue, sendHttpMessage, Date_now, now; cbn.
    + split; [reflexivity|]. right. right. repeat split. discriminate.
    + split; [reflexivity|]. right. left. repeat split.
    + rewrite K1, K2, K3, K4, K5. split; [reflexivity|]. right. right.
      repeat split. discriminate.
    + rewrite K1, K2, K3, K4, K5. split; [reflexivity|]. right. right.
      repeat split. discriminate.
Qed.

(** *** Inbound messages *)

(** A [resolve]: the call is recorded, and when it is the first call on
    the promise, so is the call it makes on the promise that waits. *)
Lemma settle_fulfilled_log p v (w : World) :
  settle p (Fulfilled v) w
  = set_settle_log
      (settle_log w
         ++ (p, Fulfilled v)
            :: match reactionOf p (reactions w) with
               | Some r =>
                   if settled p w then [] else [(callerOf r, Fulfilled v)]
               | None => []
               end) w.
Proof.
  unfold settle. cbn [reactions logSettle set_settle_log].
  destruct (settled p w); cbn [negb].
  - destruct (reactionOf p (reactions w)); reflexivity.
  - destruct (reactionOf p (reactions w)) as [[c | c req cs] |];
      unfold logSettle, set_settle_log; cbn; rewrite <- ?app_assoc; reflexivity.
Qed.

(** X2.  A message from the server sends nothing and leaves the queue, the
    sockets, the timers and the HTTP calls alone.  A 'chat_response'
    whose [context_id] is in the table removes exactly that entry and
    calls the [resolve] stored there with the response data; when that
    is the first call on the promise, the promise of the caller that
    waits for it is fulfilled with the same data; nothing else is
    called.  Every other message leaves the table and all promises as
    they were. *)
Theorem onmessage_touches_only_its_entry (m : Inbound) (w : World) :
  let w' := onmessage m w in
  wire w' = wire w /\ messageQueueRef w' = messageQueueRef w
  /\ timers w' = timers w /\ sockets w' = sockets w /\ wsRef w' = wsRef w
  /\ http_calls w' = http_calls w
  /\ reconnectAttempts w' = reconnectAttempts w
  /\ (forall d p,
        m = Parsed "chat_response" (Some d) ->
        JsMap.get (context_id d) (messageCallbacksRef w) = Some p ->
        messageCallbacksRef w'
        = JsMap.delete (context_id d) (messageCallbacksRef w)
        /\ settle_log w'
           = settle_log w
               ++ (p, Fulfilled d)
                  :: match reactionOf p (reactions w) with
                     | Some r =>
                         if settled p w then []
                         else [(callerOf r, Fulfilled d)]
                     | None => []
                     end)
  /\ ((forall d, m = Parsed "chat_response" (Some d) ->
                 JsMap.get (context_id d) (messageCallbacksRef w) = None) ->
      messageCallbacksRef w' = messageCallbacksRef w
      /\ settle_log w' = settle_log w).
Proof.
  cbn zeta. unfold onmessage. destruct m as [|type data].
  { do 7 (split; [reflexivity|]).
    split; [intros d p H; discriminate H|intros _; split; reflexivity]. }
  destruct (String.eqb_spec type "pong") as [->|Hp].
  { do 7 (split; [reflexivity|]).
    split; [intros d p H; discriminate H|intros _; split; reflexivity]. }
  destruct (String.eqb_spec type "chat_response") as [->|Hc].
  - destruct data as [d0|].
    + cbn [messageCallbacksRef setLastMessage].
      destruct (JsMap.get (context_id d0) (messageCallbacksRef w)) as [p0|] eqn:E.
      * rewrite settle_fulfilled_log.
        cbn [wire messageQueueRef timers sockets wsRef http_calls
             reconnectAttempts messageCallbacksRef settle_log reactions
             set_messageCallbacksRef set_settle_log setLastMessage].
        do 7 (split; [reflexivity|]). split.
        -- intros d p H G. injection H as <-. rewrite E in G.
           injection G as <-. split; reflexivity.
        -- intros H. specialize (H d0 eq_refl). rewrite E in H. discriminate H.
      * do 7 (split; [reflexivity|]). split.
        -- intros d p H G. injection H as <-. rewrite E in G. discriminate G.
        -- intros _. split; reflexivity.
    + do 7 (split; [reflexivity|]).
      split; [intros d p H; discriminate H|intros _; split; reflexivity].
  - assert (forall d p, Parsed type data = Parsed "chat_response" (Some d) ->
                        JsMap.get (context_id d) (messageCallbacksRef w) = Some p ->
                        False) as Hno
        by (intros d p H _; injection H as H _; exact (Hc H)).
    destruct (String.eqb type "settings_updated");
      [|destruct (String.eqb type "service_status")];
      (do 7 (split; [reflexivity|]));
      (split; [intros d p H G; destruct (Hno d p H G)
              |intros _; split; reflexivity]).
Qed.

Lemma JsMap_get_delete_same {V} k (m : list (string * V)) :
  JsMap.uniqueKeys m = true -> JsMap.get k (JsMap.delete k m) = None.
Proof.
  intros U. pose proof (JsMap_has_delete_same k m U) as H.
  unfold JsMap.has in H. destruct (JsMap.get k (JsMap.delete k m)); congruence.
Qed.

(** X3.  A response that arrives a second time calls no callback: the entry
    was removed when the first one was handled. *)
Theorem repeated_response_settles_nothing (m : Inbound) (w : World) :
  JsMap.uniqueKeys (messageCallbacksRef w) = true ->
  settle_log (onmessage m (onmessage m w)) = settle_log (onmessage m w)
  /\ messageCallbacksRef (onmessage m (onmessage m w))
     = messageCallbacksRef (onmessage m w).
Proof.
  intros U. destruct m as [|type data]; [split; reflexivity|].
  destruct (String.eqb type "pong") eqn:Ep.
  { assert (forall w0, onmessage (Parsed type data) w0 = w0) as E
        by (intros w0; unfold onmessage; rewrite Ep; reflexivity).
    rewrite !E. split; reflexivity. }
  destruct (String.eqb type "chat_response") eqn:Ec.
  - destruct data as [d|].
    + destruct (JsMap.get (context_id d) (messageCallbacksRef w)) as [p|] eqn:G.
      * destruct (settle_fulfilled p d (setLastMessage (Parsed type (Some d)) w))
          as [l Hl].
        assert (onmessage (Parsed type (Some d)) w
                = set_messageCallbacksRef
                    (JsMap.delete (context_id d) (messageCallbacksRef w))
                    (set_settle_log (settle_log w ++ (p, Fulfilled d) :: l)
                       (setLastMessage (Parsed type (Some d)) w))) as E.
        { unfold onmessage. rewrite Ep, Ec.
          cbn [messageCallbacksRef setLastMessage]. rewrite G, Hl. reflexivity. }
        rewrite E. unfold onmessage. rewrite Ep, Ec.
        cbn [messageCallbacksRef setLastMessage set_messageCallbacksRef
             set_settle_log].
        rewrite (JsMap_get_delete_same _ _ U). split; reflexivity.
      * assert (forall w0, messageCallbacksRef w0 = messageCallbacksRef w ->
                  onmessage (Parsed type (Some d)) w0
                  = setLastMessage (Parsed type (Some d)) w0) as E.
        { intros w0 H0. unfold onmessage. rewrite Ep, Ec.
          cbn [messageCallbacksRef setLastMessage]. rewrite H0, G. reflexivity. }
        rewrite (E w eq_refl).
        rewrite (E (setLastMessage (Parsed type (Some d)) w) eq_refl).
        split; reflexivity.
    + assert (forall w0, onmessage (Parsed type None) w0
                         = setLastMessage (Parsed type None) w0) as E
          by (intros w0; unfold onmessage; rewrite Ep, Ec; reflexivity).
      rewrite !E. split; reflexivity.
  - unfold onmessage. rewrite Ep, Ec.
    destruct (String.eqb type "settings_updated"); [split; reflexivity|].
    destruct (String.eqb type "service_status"); split; reflexivity.
Qed.



(** *** Closing without a retry *)

Lemma stopHeartbeat_timers (w : World) :
  forall t, In t (timers (stopHeartbeat w)) -> In t (timers w).
Proof.
  intros t. unfold stopHeartbeat. destruct (heartbeatTimeoutRef w); [|auto].
  cbn. intros H. apply filter_In in H. tauto.
Qed.

Lemma stopHeartbeat_timers_iff (w : World) :
  forall t, In t (timers (stopHeartbeat w))
            <-> In t (timers w) /\ heartbeatTimeoutRef w <> Some (fst t).
Proof.
  intros t. unfold stopHeartbeat. destruct (heartbeatTimeoutRef w) as [h|].
  - cbn. rewrite filter_In, negb_true_iff, Nat.eqb_neq.
    split; intros [H1 H2]; (split; [exact H1|]); congruence.
  - split; [intros H; split; [exact H|discriminate]|tauto].
Qed.

(** X4.  After a close with code 1000, or once the counter has reached the
    cap of 10, this run of [ws.onclose] arms no timer and cancels none
    but the heartbeat interval: the timers left are the earlier ones
    without the interval [heartbeatTimeoutRef] names, so a reconnect
    timer that was armed before is still armed.  [reconnectTimeoutRef]
    and the counter are left as they were; [connectionState] ends as
    'error' when the cap is reached and as 'disconnected' otherwise. *)
Theorem onclose_final_arms_no_timer (code : Z) (w : World) :
  code = 1000 \/ (maxReconnectAttempts <= reconnectAttempts w)%nat ->
  let w' := onclose code w in
  (forall t, In t (timers w')
             <-> In t (timers w) /\ heartbeatTimeoutRef w <> Some (fst t))
  /\ reconnectTimeoutRef w' = reconnectTimeoutRef w
  /\ reconnectAttempts w' = reconnectAttempts w
  /\ connectionState w'
     = if (maxReconnectAttempts <=? reconnectAttempts w)%nat
       then error else disconnected.
Proof.
  intros Hstop. cbn zeta. unfold onclose.
  set (w0 := set_wsRef None _).
  set (w1 := stopHeartbeat w0).
  assert (reconnectAttempts w1 = reconnectAttempts w
          /\ reconnectTimeoutRef w1 = reconnectTimeoutRef w
          /\ connectionState w1 = disconnected) as (A1 & R1 & C1)
      by (subst w1 w0; unfold stopHeartbeat; cbn;
          destruct (heartbeatTimeoutRef w); repeat split).
  assert (forall t, In t (timers w1)
                    <-> In t (timers w) /\ heartbeatTimeoutRef w <> Some (fst t))
    as T1 by (intros t; exact (stopHeartbeat_timers_iff w0 t)).
  destruct (connectionLost_fold_spec (messageCallbacksRef w1) w1)
    as (n & l & Hf & _).
  rewrite Hf.
  cbn [reconnectAttempts set_messageCallbacksRef set_settle_log set_reads].
  rewrite A1.
  assert (negb (code =? 1000) && (reconnectAttempts w <? maxReconnectAttempts)%nat
          = false) as ->.
  { destruct Hstop as [-> | Hcap]; [reflexivity|].
    apply andb_false_iff. right. apply Nat.ltb_ge. exact Hcap. }
  destruct (maxReconnectAttempts <=? reconnectAttempts w)%nat; cbn;
    (split; [exact T1|]); repeat split; assumption.
Qed.

(** *** Nothing is lost by the drain *)

Lemma filter_partition_length {A} (f : A -> bool) (l : list A) :
  (List.length (filter f l) + List.length (filter (fun x => negb (f x)) l)
   = List.length l)%nat.
Proof.
  induction l as [|x l IH]; cbn; [reflexivity|].
  destruct (f x); cbn; lia.
Qed.

(** X5.  When the current socket opens, every queued message is either sent or
    rejected with 'Message expired': the frames sent and the rejections
    add up to the length of the queue. *)
Theorem drain_sends_or_rejects_every_message (w : World) s :
  wsRef w = Some s -> readyStateOf s w = Some CONNECTING -> queue_ok w = true ->
  exists w' sent rejected,
    step (SocketOpen s) w = Some w'
    /\ wire w' = wire w ++ sent
    /\ settle_log w' = settle_log w ++ rejected
    /\ (List.length sent + List.length rejected
        = List.length (messageQueueRef w))%nat
    /\ Forall (fun e => snd e = Rejected "Message expired") rejected.
Proof.
  intros Hs Hr Hq.
  destruct (onopen_spec w s Hs Hr Hq) as (w' & Hstep & _ & _ & _ & Hd & _).
  cbn zeta in Hd. destruct Hd as (_ & Hw & Hl).
  eexists w', _, _. split; [exact Hstep|]. split; [exact Hw|].
  split; [exact Hl|]. split.
  - rewrite !length_map, filter_partition_length, length_combine,
      checkReads_length. apply Nat.min_id.
  - apply Forall_forall. intros e He. apply in_map_iff in He.
    destruct He as (qk & <- & _). reflexivity.
Qed.

(** *** The timeout of a request that came from the queue *)

(** X6.  For a request that was sent from the queue, the timeout reaches the
    caller: when the timer runs and the id is still in the table, the
    caller's promise is rejected with 'Message timeout', once, and
    nothing is queued or sent over HTTP. *)
Theorem requestTimeout_rejects_queued_caller
        (w : World) messageId p c :
  JsMap.has messageId (messageCallbacksRef w) = true ->
  settled p w = false ->
  reactionOf p (reactions w) = Some (Forward c) ->
  callsOf c w = [] ->
  c <> p ->
  let w' := requestTimeout messageId p w in
  callsOf c w' = [Rejected "Message timeout"]
  /\ stateOf p w' = Some (Rejected "Message timeout")
  /\ messageCallbacksRef w' = JsMap.delete messageId (messageCallbacksRef w)
  /\ messageQueueRef w' = messageQueueRef w
  /\ http_calls w' = http_calls w
  /\ wire w' = wire w.
Proof.
  intros Hh Hs Hr Hc Hne. cbn zeta. unfold requestTimeout. rewrite Hh.
  set (w1 := set_messageCallbacksRef _ w).
  assert (settle p (Rejected "Message timeout") w1
          = logSettle c (Rejected "Message timeout")
                      (logSettle p (Rejected "Message timeout") w1)) as ->.
  { unfold settle.
    change (settled p w1) with (settled p w). rewrite Hs.
    change (reactions (logSettle p (Rejected "Message timeout") w1))
      with (reactions w).
    rewrite Hr. reflexivity. }
  repeat split.
  - rewrite !callsOf_logSettle.
    change (callsOf c w1) with (callsOf c w). rewrite Hc, Nat.eqb_refl.
    destruct (Nat.eqb_spec p c); [congruence|reflexivity].
  - unfold stateOf. rewrite !callsOf_logSettle.
    change (callsOf p w1) with (callsOf p w).
    rewrite (callsOf_unsettled p w Hs), Nat.eqb_refl. reflexivity.
Qed.

(** *** The explicit retry *)

Lemma update_nth_length {A} n (v : A) l :
  List.length (update_nth n v l) = List.length l.
Proof.
  revert n. induction l as [|x l IH]; intros [|n]; cbn; auto.
Qed.

Lemma findTimer_cleared tid ts :
  findTimer tid (filter (fun t => negb (Nat.eqb (fst t) tid)) ts) = None.
Proof.
  induction ts as [|[tid' t] ts IH]; cbn; [reflexivity|].
  destruct (Nat.eqb_spec tid' tid) as [->|Hne]; cbn; [exact IH|].
  destruct (Nat.eqb_spec tid tid'); [congruence|exact IH].
Qed.

Lemma connect_creates_socket (w : World) :
  currentIs CONNECTING w = false ->
  ctor_throws (List.length (sockets w)) = false ->
  connect w
  = set_wsRef (Some (List.length (sockets w)))
      (set_sockets (sockets w ++ [CONNECTING]) (setConnectionState connecting w)).
Proof.
  intros Hg Hc. unfold connect. rewrite Hg.
  cbn [sockets setConnectionState]. rewrite Hc. reflexivity.
Qed.

(** X7.  Unless the constructor throws, [reconnect()] always ends with a new
    socket as the current one, connecting, with the attempt counter at 0
    and no reconnect timer pending; the socket it found, if it was
    connecting or open, is left closing. *)
Theorem reconnect_opens_a_new_socket (w : World) :
  ctor_throws (List.length (sockets w)) = false ->
  let w' := reconnect w in
  let n := List.length (sockets w) in
  wsRef w' = Some n
  /\ readyStateOf n w' = Some CONNECTING
  /\ connectionState w' = connecting
  /\ reconnectAttempts w' = 0%nat
  /\ reconnectTimeoutRef w' = None
  /\ (forall t, reconnectTimeoutRef w = Some t ->
               findTimer t (timers w') = None)
  /\ (forall s r, wsRef w = Some s -> readyStateOf s w = Some r ->
                 readyStateOf s w'
                 = Some match r with
                        | CONNECTING | OPEN => CLOSING
                        | _ => r
                        end).
Proof.
  intros Hc. cbn zeta. unfold reconnect.
  set (w1 := match reconnectTimeoutRef w with Some _ => _ | None => _ end).
  assert (sockets w1 = sockets w /\ wsRef w1 = wsRef w
          /\ reconnectTimeoutRef w1 = None
          /\ (forall t, reconnectTimeoutRef w = Some t ->
                        findTimer t (timers w1) = None))
    as (S1 & W1 & R1 & T1).
  { subst w1. destruct (reconnectTimeoutRef w) as [t0|] eqn:E; cbn;
      (split; [reflexivity|]); (split; [reflexivity|]);
      (split; [try reflexivity; exact E|]).
    - intros t Ht. injection Ht as <-. apply findTimer_cleared.
    - intros t Ht. discriminate Ht. }
  set (w2 := set_reconnectAttempts 0%nat w1).
  set (w3 := match wsRef w2 with Some s => ws_close s w2 | None => w2 end).
  assert (List.length (sockets w3) = List.length (sockets w)
          /\ wsRef w3 = wsRef w /\ reconnectTimeoutRef w3 = None
          /\ reconnectAttempts w3 = 0%nat /\ timers w3 = timers w1
          /\ currentIs CONNECTING w3 = false
          /\ (forall s r, wsRef w = Some s -> readyStateOf s w = Some r ->
                         readyStateOf s w3
                         = Some match r with
                                | CONNECTING | OPEN => CLOSING
                                | _ => r
                                end))
    as (L3 & W3 & R3 & A3 & T3 & C3 & O3).
  { subst w3 w2. cbn [wsRef set_reconnectAttempts]. rewrite W1.
    destruct (wsRef w) as [s|] eqn:Hs.
    - unfold ws_close, readyStateOf. cbn [sockets set_reconnectAttempts].
      rewrite S1.
      destruct (nth_error (sockets w) s) as [r|] eqn:Hr.
      + assert (nth_error (update_nth s CLOSING (sockets w)) s = Some CLOSING)
          as Hu by (eapply update_nth_same; exact Hr).
        destruct r; unfold currentIs, readyStateOf, setReadyState; cbn;
          rewrite ?update_nth_length, ?W1, ?S1, ?Hu, ?Hr;
          repeat split; try assumption;
          intros s0 r0 [= <-]; rewrite ?Hr, ?Hu; intros [= <-]; reflexivity.
      + unfold currentIs, readyStateOf. cbn. rewrite W1, S1, Hr.
        repeat split; try assumption. intros s0 r0 [= <-]. rewrite Hr.
        discriminate.
    - unfold currentIs. cbn. rewrite W1, S1.
      repeat split; try assumption. intros s0 r0 [=]. }
  assert (ctor_throws (List.length (sockets w3)) = false) as Hc3
      by (rewrite L3; exact Hc).
  rewrite (connect_creates_socket w3 C3 Hc3).
  unfold readyStateOf.
  cbn [wsRef sockets connectionState reconnectAttempts reconnectTimeoutRef
       timers set_wsRef set_sockets setConnectionState].
  rewrite L3. repeat split; try assumption.
  - rewrite <- L3. rewrite nth_error_app2 by lia. rewrite Nat.sub_diag.
    reflexivity.
  - intros t Ht. rewrite T3. apply T1. exact Ht.
  - intros s r Hs Hr. specialize (O3 s r Hs Hr). unfold readyStateOf in O3.
    rewrite nth_error_app1; [exact O3|].
    apply nth_error_Some. rewrite O3. discriminate.
Qed.

(** *** Sending while disconnected *)

Lemma reconnect_eq (w : World) : reconnect w = connect (reconnect_prefix w).
Proof. reflexivity. Qed.

(** What [reconnect] has done when it reaches [connect()]. *)
Lemma reconnect_prefix_frame (w : World) :
  let w3 := reconnect_prefix w in
  List.length (sockets w3) = List.length (sockets w)
  /\ wsRef w3 = wsRef w /\ reconnectTimeoutRef w3 = None
  /\ reconnectAttempts w3 = 0%nat
  /\ next_timer w3 = next_timer w /\ reads w3 = reads w
  /\ (forall t, reconnectTimeoutRef w = Some t ->
                findTimer t (timers w3) = None)
  /\ currentIs CONNECTING w3 = false
  /\ (forall s r, wsRef w = Some s -> readyStateOf s w = Some r ->
                  readyStateOf s w3
                  = Some match r with
                         | CONNECTING | OPEN => CLOSING
                         | _ => r
                         end).
Proof.
  cbn zeta. unfold reconnect_prefix.
  set (w1 := match reconnectTimeoutRef w with Some _ => _ | None => _ end).
  assert (sockets w1 = sockets w /\ wsRef w1 = wsRef w
          /\ reconnectTimeoutRef w1 = None
          /\ next_timer w1 = next_timer w /\ reads w1 = reads w
          /\ (forall t, reconnectTimeoutRef w = Some t ->
                        findTimer t (timers w1) = None))
    as (S1 & W1 & R1 & N1 & D1 & T1).
  { subst w1. destruct (reconnectTimeoutRef w) as [t0|] eqn:E; cbn;
      (split; [reflexivity|]); (split; [reflexivity|]);
      (split; [try reflexivity; exact E|]);
      (split; [reflexivity|]); (split; [reflexivity|]).
    - intros t Ht. injection Ht as <-. apply findTimer_cleared.
    - intros t Ht. discriminate Ht. }
  cbn [wsRef set_reconnectAttempts]. rewrite W1.
  destruct (wsRef w) as [s|] eqn:Hs.
  - unfold ws_close, readyStateOf. cbn [sockets set_reconnectAttempts].
    rewrite S1.
    destruct (nth_error (sockets w) s) as [r|] eqn:Hr.
    + assert (nth_error (update_nth s CLOSING (sockets w)) s = Some CLOSING)
        as Hu by (eapply update_nth_same; exact Hr).
      destruct r; unfold currentIs, readyStateOf, setReadyState; cbn;
        rewrite ?update_nth_length, ?W1, ?S1, ?Hu, ?Hr;
        repeat split; try assumption;
        intros s0 r0 [= <-]; rewrite ?Hr, ?Hu; intros [= <-]; reflexivity.
    + unfold currentIs, readyStateOf. cbn. rewrite W1, S1, Hr.
      repeat split; try assumption. intros s0 r0 [= <-]. rewrite Hr.
      discriminate.
  - unfold currentIs. cbn. rewrite W1, S1.
    repeat split; try assumption. intros s0 r0 [=].
Qed.

(** [reconnect()], whatever the constructor does: the counter is at 0 and
    the socket it found, if connecting or open, is closing.  When the
    constructor returns, a new socket is the current one, connecting,
    and no reconnect timer is pending; when it throws, [connectionState]
    is 'error', the current socket is the old one and a reconnect timer
    is armed 1000 ms ahead. *)
Lemma reconnect_effects (w : World) :
  let w' := reconnect w in
  let n := List.length (sockets w) in
  reconnectAttempts w' = 0%nat
  /\ (forall s r, wsRef w = Some s -> readyStateOf s w = Some r ->
                  readyStateOf s w'
                  = Some match r with
                         | CONNECTING | OPEN => CLOSING
                         | _ => r
                         end)
  /\ (ctor_throws n = false ->
      wsRef w' = Some n /\ readyStateOf n w' = Some CONNECTING
      /\ connectionState w' = connecting
      /\ reconnectTimeoutRef w' = None
      /\ forall t, reconnectTimeoutRef w = Some t ->
                   findTimer t (timers w') = None)
  /\ (ctor_throws n = true ->
      wsRef w' = wsRef w /\ connectionState w' = error
      /\ reconnectTimeoutRef w' = Some (next_timer w)
      /\ In (next_timer w, {| due := now w + 1000; action := ReconnectTimer |})
            (timers w')).
Proof.
  cbn zeta. rewrite reconnect_eq.
  pose proof (reconnect_prefix_frame w) as P. cbn zeta in P.
  set (w3 := reconnect_prefix w) in *.
  destruct P as (L3 & W3 & R3 & A3 & N3 & D3 & T3 & C3 & O3).
  split; [rewrite connect_reconnectAttempts; exact A3|].
  destruct (ctor_throws (List.length (sockets w))) eqn:Hc.
  - assert (connect w3
            = scheduleReconnect (setConnectionState error
                                   (setConnectionState connecting w3))) as E.
    { unfold connect. rewrite C3. cbn [sockets setConnectionState].
      rewrite L3, Hc.
      cbn [reconnectAttempts setConnectionState]. rewrite A3. reflexivity. }
    rewrite E. split; [|split; [intros H; discriminate H|intros _]].
    + intros s r Hs Hr. exact (O3 s r Hs Hr).
    + destruct (scheduleReconnect_due
                  (setConnectionState error (setConnectionState connecting w3)))
        as [Ht Href].
      split; [exact W3|]. split; [reflexivity|].
      split; [rewrite Href; cbn; rewrite N3; reflexivity|].
      rewrite Ht. apply in_or_app. right. left.
      cbn [next_timer reconnectAttempts setConnectionState]. rewrite N3, A3.
      unfold now. cbn [reads setConnectionState]. rewrite D3. reflexivity.
  - assert (ctor_throws (List.length (sockets w3)) = false) as Hc3
        by (rewrite L3; exact Hc).
    rewrite (connect_creates_socket w3 C3 Hc3).
    unfold readyStateOf.
    cbn [wsRef sockets connectionState reconnectAttempts reconnectTimeoutRef
         timers set_wsRef set_sockets setConnectionState].
    rewrite L3. split; [|split; [intros _|intros H; discriminate H]].
    + intros s r Hs Hr. specialize (O3 s r Hs Hr). unfold readyStateOf in O3.
      rewrite nth_error_app1; [exact O3|].
      apply nth_error_Some. rewrite O3. discriminate.
    + split; [reflexivity|]. split.
      * rewrite <- L3. rewrite nth_error_app2 by lia. rewrite Nat.sub_diag.
        reflexivity.
      * split; [reflexivity|]. split; [exact R3|exact T3].
Qed.

(** C3, as the code has it.  With no open socket and [connectionState]
    'disconnected' or 'error', [sendMessage] calls [reconnect()] and puts
    the request at the end of the queue; it makes no HTTP call, sends
    nothing and settles nothing.  The call of [reconnect()] shows in the
    state: the attempt counter is 0 and the socket it found, if
    connecting, is closing; when the constructor returns, a new socket is
    the current one, connecting, [connectionState] is 'connecting' and
    the reconnect timer that was pending is cancelled; when it throws,
    [connectionState] is 'error' and a reconnect timer is armed 1000 ms
    ahead. *)
Theorem sendMessage_disconnected_reconnects_and_enqueues
        (req : ChatRequest) (w : World) :
  currentIs OPEN w = false ->
  connectionState w = disconnected \/ connectionState w = error ->
  let c := fst (sendMessage req w) in
  let w' := snd (sendMessage req w) in
  let n := List.length (sockets w) in
  http_calls w' = http_calls w
  /\ settle_log w' = settle_log w
  /\ wire w' = wire w
  /\ messageQueueRef w'
     = messageQueueRef w ++ [{| request := req; q_caller := c;
                                q_timestamp := now w |}]
  /\ reconnectAttempts w' = 0%nat
  /\ (forall s r, wsRef w = Some s -> readyStateOf s w = Some r ->
                  readyStateOf s w'
                  = Some match r with
                         | CONNECTING | OPEN => CLOSING
                         | _ => r
                         end)
  /\ (ctor_throws n = false ->
      wsRef w' = Some n /\ readyStateOf n w' = Some CONNECTING
      /\ connectionState w' = connecting
      /\ reconnectTimeoutRef w' = None
      /\ forall t, reconnectTimeoutRef w = Some t ->
                   findTimer t (timers w') = None)
  /\ (ctor_throws n = true ->
      wsRef w' = wsRef w /\ connectionState w' = error
      /\ reconnectTimeoutRef w' = Some (next_timer w)
      /\ In (next_timer w, {| due := now w + 1000; action := ReconnectTimer |})
            (timers w')).
Proof.
  intros Ho Hcs. cbn zeta.
  destruct (sendMessage_disconnected_enqueues req w Ho Hcs)
    as (H1 & H2 & H3 & H4 & _).
  cbn zeta in H1, H2, H3, H4.
  assert (fst (sendMessage req w) = next_promise w) as Hc
      by (unfold sendMessage, newPromise; cbv beta iota;
          destruct (currentIs OPEN _); reflexivity).
  split; [exact H1|]. split; [exact H2|]. split; [exact H3|].
  split; [rewrite Hc; exact H4|].
  unfold sendMessage, newPromise.
  assert (currentIs OPEN (set_next_promise (S (next_promise w)) w) = false) as ->
      by exact Ho.
  cbn [snd connectionState set_next_promise].
  set (w1 := set_next_promise (S (next_promise w)) w).
  assert (sendMessageRoute req (next_promise w) (connectionState w) w1
          = enqueue req (next_promise w) (reconnect w1)) as ->
      by (destruct Hcs as [-> | ->]; reflexivity).
  exact (reconnect_effects w1).
Qed.



(** *** New promises are new *)

Lemma alive_below n x : negb (deadFrom n x) = true <-> (x < n)%nat.
Proof.
  unfold deadFrom. rewrite negb_true_iff, Nat.leb_gt. reflexivity.
Qed.

Lemma forallb_weaken {A} (f g : A -> bool) (l : list A) :
  (forall x, f x = true -> g x = true) ->
  forallb f l = true -> forallb g l = true.
Proof.
  intros H. rewrite !forallb_forall. intros Hf x Hx. apply H, Hf, Hx.
Qed.

(** What holds below [n] holds below the counter of a well-formed state
    that has reached [n]. *)
Lemma quiet_raise n (w : World) :
  reactions_ok w = true ->
  quiet (deadFrom n) n w -> allocated w.
Proof.
  intros R (Q1 & Q2 & Q3 & Q4 & Q5 & Q6 & Q7).
  assert (forall x, negb (deadFrom n x) = true ->
                    negb (deadFrom (next_promise w) x) = true) as Hup
      by (intros x; rewrite !alive_below; lia).
  unfold allocated, quiet. repeat split.
  - eapply forallb_weaken; [|exact Q1]. intros e. apply Hup.
  - eapply forallb_weaken; [|exact Q2]. intros e. apply Hup.
  - eapply forallb_weaken; [|exact Q3]. intros t. unfold timerAvoids.
    destruct (action (snd t)); auto.
  - eapply forallb_weaken; [|exact Q4]. intros e. apply Hup.
  - eapply forallb_weaken; [|exact Q5]. intros e. apply Hup.
  - unfold reactions_ok in R. eapply forallb_weaken; [|exact R].
    intros e He. apply andb_true_iff in He. destruct He as [_ He].
    apply caller_ok_spec in He. destruct He as [He _].
    apply orb_true_iff. right. apply alive_below. exact He.
  - lia.
Qed.

Lemma allocated_settle x o (w : World) :
  wf w = true -> (x < next_promise w)%nat -> allocated w ->
  allocated (settle x o w).
Proof.
  intros W Hx A.
  apply (quiet_raise (next_promise w));
    [apply wf_reactions_ok, settle_wf, W|].
  apply quiet_settle; [apply alive_below, Hx|exact A].
Qed.

Lemma allocated_sendMessageInternal req r (w : World) :
  wf w = true -> caller_ok (callerOf r) w = true -> allocated w ->
  allocated (snd (sendMessageInternal req r w)).
Proof.
  intros W C A.
  pose proof (proj1 (sendMessageInternal_ok req r w W C) W) as W'.
  apply caller_ok_spec in C. destruct C as [C _].
  set (n := next_promise w) in *.
  assert (quiet (deadFrom (S n)) n w) as Q.
  { destruct A as (Q1 & Q2 & Q3 & Q4 & Q5 & Q6 & Q7).
    assert (forall x, negb (deadFrom n x) = true ->
                      negb (deadFrom (S n) x) = true) as Hup
        by (intros x; rewrite !alive_below; lia).
    repeat split; try lia.
    - eapply forallb_weaken; [|exact Q1]. intros e. apply Hup.
    - eapply forallb_weaken; [|exact Q2]. intros e. apply Hup.
    - eapply forallb_weaken; [|exact Q3]. intros t. unfold timerAvoids.
      destruct (action (snd t)); auto.
    - eapply forallb_weaken; [|exact Q4]. intros e. apply Hup.
    - eapply forallb_weaken; [|exact Q5]. intros e. apply Hup.
    - apply wf_reactions_ok in W. unfold reactions_ok in W.
      eapply forallb_weaken; [|exact W].
      intros e He. apply andb_true_iff in He. destruct He as [_ He].
      apply caller_ok_spec in He. destruct He as [He _].
      apply orb_true_iff. right. apply alive_below. unfold n.
      apply Nat.lt_lt_succ_r. exact He. }
  destruct Q as (Q1 & Q2 & Q3 & Q4 & Q5 & Q6 & Q7).
  assert (negb (deadFrom (S n) n) = true) as Hp by (apply alive_below; lia).
  assert (negb (deadFrom (S n) (callerOf r)) = true) as Hc
      by (apply alive_below; lia).
  apply (quiet_raise (S n)); [apply wf_reactions_ok, W'|].
  destruct (currentIs OPEN w) eqn:E.
  - apply currentIs_true in E. destruct E as (s & Hs & Hr).
    rewrite (sendMessageInternal_open req r s w Hs Hr). cbn [snd].
    unfold quiet.
    cbn [settle_log messageCallbacksRef timers messageQueueRef http_calls
         reactions next_promise set_wire set_next_timer set_timers
         set_messageCallbacksRef set_reads set_reactions set_next_promise].
    fold n. repeat split; try assumption.
    + apply forallb_JsMap_set; auto.
    + rewrite forallb_app, Q3. cbn [forallb andb]. unfold timerAvoids.
      cbn [snd action]. rewrite Hp. reflexivity.
    + cbn [forallb fst snd]. rewrite Hc, orb_true_r, Q6. reflexivity.
    + lia.
  - unfold sendMessageInternal, newPromise. cbv beta iota.
    set (w1 := set_reactions _ _).
    change (currentIs OPEN w1) with (currentIs OPEN w). rewrite E.
    cbn [negb snd]. apply quiet_settle; [exact Hp|].
    unfold quiet. subst w1.
    cbn [settle_log messageCallbacksRef timers messageQueueRef http_calls
         reactions next_promise set_reactions set_next_promise].
    fold n. repeat split; try assumption; [|lia].
    cbn [forallb fst snd]. rewrite Hc, orb_true_r, Q6. reflexivity.
Qed.

Lemma allocated_processOne (w : World) q :
  wf w = true -> caller_ok (q_caller q) w = true -> allocated w ->
  allocated (processOne w q).
Proof.
  intros W C A. rewrite processOne_eq.
  assert (wf (set_reads (S (reads w)) w) = true) as W1 by exact W.
  assert (allocated (set_reads (S (reads w)) w)) as A1 by exact A.
  destruct (expiredAt (clock (reads w)) q).
  - apply allocated_settle; [exact W1| |exact A1].
    apply caller_ok_spec in C. apply C.
  - apply allocated_sendMessageInternal; assumption.
Qed.

Lemma allocated_drain qs : forall (w : World),
  wf w = true ->
  forallb (fun q => caller_ok (q_caller q) w) qs = true ->
  allocated w -> allocated (fold_left processOne qs w).
Proof.
  induction qs as [|q qs IH]; intros w W Hq A; cbn [fold_left]; [exact A|].
  cbn [forallb] in Hq. apply andb_true_iff in Hq. destruct Hq as [Hq Hqs].
  pose proof (processOne_ok w q W Hq) as S1.
  apply IH.
  - apply S1, W.
  - eapply extends_forallb; [apply S1|exact Hqs].
  - apply allocated_processOne; assumption.
Qed.

Lemma allocated_onopen (w : World) :
  wf w = true -> allocated w -> allocated (onopen w).
Proof.
  intros W A. rewrite onopen_eq.
  set (w1 := onopen_prefix w).
  assert (wf w1 = true /\ allocated w1) as [W1 A1].
  { pose proof (onopen_prefix_frame w) as P. cbn zeta in P. fold w1 in P.
    destruct P as (_ & _ & _ & _ & P5 & P6 & P7 & P8 & _).
    split.
    - apply (same_core_ok w); [|exact W]. repeat split; try assumption.
      subst w1. unfold onopen_prefix. cbn.
      destruct (reconnectTimeoutRef w); reflexivity.
    - unfold allocated. rewrite P7.
      refine (quiet_same_promises _ _ w _ _ A).
      subst w1. unfold onopen_prefix. cbn.
      destruct (reconnectTimeoutRef w) as [t|]; [|unchanged_promises].
      repeat split. intros t0 Ht. left. cbn in Ht. apply filter_In in Ht.
      tauto. }
  assert (wf (processMessageQueue w1) = true /\ allocated (processMessageQueue w1))
    as [W2 A2].
  { split; [apply processMessageQueue_wf, W1|].
    unfold processMessageQueue.
    destruct (negb (currentIs OPEN w1)); [exact A1|].
    apply allocated_drain.
    - apply emptied_queue_wf, W1.
    - apply wf_queue_ok in W1. exact W1.
    - destruct A1 as (Q1 & Q2 & Q3 & Q4 & Q5 & Q6 & Q7).
      repeat split; assumption. }
  set (w2 := processMessageQueue w1) in *.
  pose proof (startHeartbeat_same_promises (deadFrom (next_promise w2)) 0%nat w2) as H.
  pose proof H as (_ & _ & _ & _ & _ & Hn & _).
  unfold allocated. rewrite Hn.
  exact (quiet_same_promises _ _ w2 _ H A2).
Qed.

Lemma allocated_sendMessage req (w : World) :
  wf w = true -> allocated w -> allocated (snd (sendMessage req w)).
Proof.
  intros W A.
  pose proof (sendMessage_wf req w W) as W'.
  unfold sendMessage, newPromise in *. cbv beta iota in *.
  set (w1 := set_next_promise (S (next_promise w)) w) in *.
  set (n := next_promise w) in *.
  assert (wf w1 = true /\ caller_ok n w1 = true) as [W1 C1].
  { apply wf_spec in W. destruct W as (Q & R & U).
    assert (forall c, caller_ok c w = true -> caller_ok c w1 = true) as E.
    { intros c. rewrite !caller_ok_spec. cbn. intros [? ?]. split; [lia|auto]. }
    split.
    - apply wf_spec. repeat split.
      + unfold queue_ok in *. rewrite forallb_forall in *.
        intros q Hin. apply E, Q, Hin.
      + unfold reactions_ok in *. rewrite forallb_forall in *.
        intros e Hin. specialize (R e Hin). apply andb_true_iff in R.
        destruct R as [R1 R2]. apply Nat.ltb_lt in R1.
        apply andb_true_iff. split; [apply Nat.ltb_lt; cbn; lia|apply E, R2].
      + exact U.
    - apply caller_ok_spec. cbn. split; [lia|].
      apply reactionOf_fresh. unfold reactions_ok in R.
      rewrite forallb_forall in R. intros e Hin. specialize (R e Hin).
      apply andb_true_iff in R. destruct R as [R1 _].
      apply Nat.ltb_lt in R1. exact R1. }
  assert (allocated w1) as A1.
  { apply (quiet_raise n); [apply wf_reactions_ok, W1|].
    destruct A as (Q1 & Q2 & Q3 & Q4 & Q5 & Q6 & Q7).
    repeat split; try assumption. cbn. lia. }
  destruct (currentIs OPEN w1); cbn [snd] in *.
  - apply allocated_sendMessageInternal; assumption.
  - apply (quiet_raise (next_promise w1)); [apply wf_reactions_ok, W'|].
    apply quiet_sendMessageRoute; [|exact A1].
    apply alive_below. cbn. lia.
Qed.

(** Every turn of the event loop keeps the promises allocated. *)
Lemma allocated_step e (w w' : World) :
  wf w = true -> allocated w -> step e w = Some w' -> allocated w'.
Proof.
  intros W A Hstep.
  pose proof (step_wf e w w' W Hstep) as W'.
  assert (forall w0, quiet (deadFrom (next_promise w)) (next_promise w) w0 ->
                     w0 = w' -> allocated w') as Hraise.
  { intros w0 Q <-. apply (quiet_raise (next_promise w));
      [apply wf_reactions_ok, W'|exact Q]. }
  destruct e; cbn [step] in Hstep.
  - injection Hstep as <-.
    apply (Hraise _ (quiet_same_promises _ _ w _ (connect_same_promises _ w) A)).
    reflexivity.
  - injection Hstep as <-.
    apply (Hraise _ (quiet_unmount _ _ w A)). reflexivity.
  - destruct (readyStateOf s w) as [[]|]; try discriminate.
    injection Hstep as <-. apply allocated_onopen; [exact W|exact A].
  - destruct (readyStateOf s w) as [[]|]; try discriminate;
      injection Hstep as <-;
      apply (Hraise _ (quiet_onmessage _ _ m w A)); reflexivity.
  - destruct (readyStateOf s w) as [[]|]; try discriminate;
      injection Hstep as <-; exact A.
  - destruct (readyStateOf s w) as [[]|]; try discriminate;
      injection Hstep as <-;
      apply (Hraise _ (quiet_onclose _ _ code (setReadyState s CLOSED w) A));
      reflexivity.
  - destruct (findTimer tid (timers w)) as [t|] eqn:Hf; [|discriminate].
    destruct (due t <=? now w); [|discriminate].
    injection Hstep as <-.
    apply (Hraise _ (quiet_fire _ _ tid t w Hf A)). reflexivity.
  - injection Hstep as <-. apply allocated_sendMessage; assumption.
  - injection Hstep as <-.
    apply (Hraise _ (quiet_same_promises _ _ w _
                       (reconnect_same_promises _ 0%nat w) A)).
    reflexivity.
  - destruct (awaitsHttp c w) eqn:Hc; [|discriminate].
    injection Hstep as <-.
    refine (Hraise _ (quiet_settle _ _ c o _ (awaitsHttp_alive _ _ c w A Hc) _)
                   eq_refl).
    destruct A as (Q1 & Q2 & Q3 & Q4 & Q5 & Q6 & Q7).
    repeat split; try assumption. cbn.
    rewrite forallb_forall in *. intros e He. apply filter_In in He.
    apply Q5, He.
  - injection Hstep as <-. exact A.
Qed.

Lemma allocated_run es : forall (w w' : World),
  wf w = true -> allocated w -> run es w = Some w' -> allocated w'.
Proof.
  induction es as [|e es IH]; intros w w' W A; cbn [run].
  - intros [= <-]. exact A.
  - destruct (step e w) as [w1|] eqn:E; [|discriminate].
    apply IH; [eapply step_wf; eauto|eapply allocated_step; eauto].
Qed.

Lemma reachable_allocated (w : World) : reachable w -> allocated w.
Proof.
  intros [es H]. eapply allocated_run; [| |exact H].
  - reflexivity.
  - repeat split. cbn. lia.
Qed.

(** In a reachable state a promise that is still to be allocated has
    never been settled. *)
Lemma reachable_unallocated_unsettled x (w : World) :
  reachable w -> (next_promise w <= x)%nat ->
  settled x w = false /\ callsOf x w = [].
Proof.
  intros Hr Hx. destruct (reachable_allocated w Hr) as (Q1 & _).
  assert (settled x w = false) as Hs.
  { unfold settled. destruct (existsb _ _) eqn:E; [|reflexivity].
    apply existsb_exists in E. destruct E as (e & Hin & He).
    apply Nat.eqb_eq in He. rewrite forallb_forall in Q1.
    specialize (Q1 e Hin). apply alive_below in Q1.
    destruct e as [p o]. cbn in He, Q1. subst p.
    exfalso. exact (Nat.lt_irrefl _ (Nat.lt_le_trans _ _ _ Q1 Hx)). }
  split; [exact Hs|apply callsOf_unsettled, Hs].
Qed.


(** *** A request and its response *)

(** X8.  In a reachable state with the current socket open, a request sent by
    [sendMessage] and answered by a 'chat_response' carrying the id it was
    sent under fulfils the caller's promise with the response data,
    exactly once, and leaves no entry for that id in the table. *)
Theorem response_fulfils_the_sender (w : World) req s d :
  reachable w ->
  wsRef w = Some s -> readyStateOf s w = Some OPEN ->
  context_id d = toString (now w) ->
  let c := fst (sendMessage req w) in
  let w1 := snd (sendMessage req w) in
  let w2 := onmessage (Parsed "chat_response" (Some d)) w1 in
  wire w1 = wire w ++ [(s, ChatFrame req (context_id d))]
  /\ callsOf c w1 = []
  /\ callsOf c w2 = [Fulfilled d]
  /\ JsMap.has (context_id d) (messageCallbacksRef w2) = false.
Proof.
  intros Hreach Hs Hr Hid. cbn zeta.
  pose proof (reachable_wf w Hreach) as W.
  destruct (reachable_unallocated_unsettled (next_promise w) w Hreach (le_n _))
    as [_ Hc].
  destruct (reachable_unallocated_unsettled (S (next_promise w)) w Hreach
              (Nat.le_succ_diag_r _)) as [Hp _].
  apply wf_spec in W. destruct W as (_ & _ & U).
  unfold sendMessage, newPromise. cbv beta iota.
  set (w0 := set_next_promise (S (next_promise w)) w).
  assert (currentIs OPEN w0 = true) as ->
      by (apply currentIs_true; exists s; split; assumption).
  cbn [fst snd].
  rewrite (sendMessageInternal_open req _ s w0 Hs Hr). cbn [snd].
  set (w1 := set_wire _ _).
  assert (settle_log w1 = settle_log w
          /\ reactions w1
             = (S (next_promise w),
                Await (next_promise w) req (connectionState w)) :: reactions w
          /\ messageCallbacksRef w1
             = JsMap.set (context_id d) (S (next_promise w))
                         (messageCallbacksRef w)) as (L1 & R1 & M1)
      by (rewrite Hid; repeat split).
  split; [rewrite Hid; reflexivity|].
  split; [exact Hc|].
  unfold onmessage.
  change (String.eqb "chat_response" "pong") with false.
  change (String.eqb "chat_response" "chat_response") with true.
  cbv beta iota. cbn [messageCallbacksRef setLastMessage].
  rewrite M1, JsMap_get_set, String.eqb_refl.
  set (w1' := setLastMessage _ w1).
  assert (settle (S (next_promise w)) (Fulfilled d) w1'
          = logSettle (next_promise w) (Fulfilled d)
                      (logSettle (S (next_promise w)) (Fulfilled d) w1')) as E.
  { unfold settle.
    assert (settled (S (next_promise w)) w1' = false) as ->
        by (unfold settled; change (settle_log w1') with (settle_log w1);
            rewrite L1; exact Hp).
    change (reactions (logSettle (S (next_promise w)) (Fulfilled d) w1'))
      with (reactions w1).
    rewrite R1. cbn [negb reactionOf]. rewrite Nat.eqb_refl. reflexivity. }
  rewrite E. split.
  - match goal with |- callsOf _ ?x = _ =>
      change (callsOf (next_promise w) x)
        with (callsOf (next_promise w)
                (logSettle (next_promise w) (Fulfilled d)
                   (logSettle (S (next_promise w)) (Fulfilled d) w1')))
    end.
    rewrite !callsOf_logSettle.
    assert (callsOf (next_promise w) w1' = []) as ->
        by (unfold callsOf; change (settle_log w1') with (settle_log w1);
            rewrite L1; exact Hc).
    rewrite Nat.eqb_refl.
    destruct (Nat.eqb_spec (S (next_promise w)) (next_promise w)); [lia|].
    reflexivity.
  - cbn [messageCallbacksRef set_messageCallbacksRef logSettle set_settle_log
         setLastMessage].
    change (messageCallbacksRef w1') with (messageCallbacksRef w1).
    rewrite M1. apply JsMap_has_delete_same, JsMap_unique_set, U.
Qed.

(** *** Sending without an open socket *)



(** *** Frames only go to an open socket *)

Lemma sendMessageRoute_wire req c cs (w : World) :
  wire (sendMessageRoute req c cs w) = wire w.
Proof.
  unfold sendMessageRoute.
  pose proof (reconnect_keeps_traffic w) as (_ & K2 & _).
  destruct cs; unfold enqueue, sendHttpMessage, Date_now; cbn;
    try reflexivity; exact K2.
Qed.

Lemma settle_wire p o (w : World) : wire (settle p o w) = wire w.
Proof.
  unfold settle. destruct (negb (settled p w)); [|reflexivity].
  change (reactions (logSettle p o w)) with (reactions w).
  destruct (reactionOf p (reactions w)) as [[c | c req cs] |];
    try reflexivity.
  destruct o; [reflexivity|].
  apply (sendMessageRoute_wire req c cs (logSettle p (Rejected msg) w)).
Qed.

Lemma onmessage_wire m (w : World) : wire (onmessage m w) = wire w.
Proof.
  unfold onmessage. repeat break_match; try reflexivity.
  cbn [wire set_messageCallbacksRef]. rewrite settle_wire. reflexivity.
Qed.

Lemma onclose_wire code (w : World) : wire (onclose code w) = wire w.
Proof.
  unfold onclose.
  set (w1 := stopHeartbeat _).
  assert (wire w1 = wire w) as H1
      by (subst w1; unfold stopHeartbeat; cbn;
          destruct (heartbeatTimeoutRef w); reflexivity).
  destruct (connectionLost_fold_spec (messageCallbacksRef w1) w1)
    as (n & l & Hf & _).
  rewrite Hf. repeat break_match; exact H1.
Qed.

(** The frames [ws.onopen] sends go to the current socket, which is open. *)
Lemma onopen_wire (w : World) :
  wf w = true ->
  exists new,
    wire (onopen w) = wire w ++ new
    /\ wsRef (onopen w) = wsRef w /\ sockets (onopen w) = sockets w
    /\ forall s f, In (s, f) new ->
                   wsRef w = Some s /\ readyStateOf s w = Some OPEN.
Proof.
  intros W. rewrite onopen_eq.
  pose proof (onopen_prefix_frame w) as P. cbn zeta in P.
  destruct P as (P1 & P2 & _ & P4 & _ & P6 & P7 & P8 & _).
  set (w1 := onopen_prefix w) in *.
  pose proof (startHeartbeat_frame (processMessageQueue w1)) as H.
  cbn zeta in H. destruct H as (H1 & H2 & _ & H4 & _).
  rewrite H1, H2, H4. unfold processMessageQueue.
  destruct (currentIs OPEN w1) eqn:E; cbn [negb].
  - apply currentIs_true in E. destruct E as (s & Hs & Hr).
    assert (forallb (fun q => caller_ok (q_caller q)
                                        (set_messageQueueRef [] w1))
                    (messageQueueRef w1) = true) as Hq.
    { apply wf_queue_ok in W. unfold queue_ok in W. rewrite P6.
      rewrite forallb_forall in *. intros q Hin. rewrite <- (W q Hin).
      apply caller_ok_same; cbn; assumption. }
    destruct (drain_spec (messageQueueRef w1) (set_messageQueueRef [] w1) s
                         Hs Hr Hq) as (Dc & _ & Dw & _).
    destruct Dc as (C1 & C2 & _).
    eexists. split; [rewrite Dw; cbn; rewrite P4; reflexivity|].
    split; [rewrite C1; cbn; exact P1|].
    split; [rewrite C2; cbn; exact P2|].
    intros s0 f Hin. apply in_map_iff in Hin.
    destruct Hin as (qk & Hqk & _). unfold sentFrame in Hqk.
    injection Hqk as <- _. unfold readyStateOf in *.
    rewrite <- P1, <- P2. split; assumption.
  - exists []. rewrite app_nil_r. split; [exact P4|].
    split; [exact P1|]. split; [exact P2|]. intros s f [].
Qed.

(** X10.  In a well-formed state (every reachable state is one), whatever a
    turn of the event loop sends goes to the socket that is current at
    the end of the turn, and that socket is open: no frame is ever handed
    to a socket that is connecting, closing or closed. *)
Theorem frames_only_on_the_open_socket e (w w' : World) :
  wf w = true -> step e w = Some w' ->
  exists new,
    wire w' = wire w ++ new
    /\ forall s f, In (s, f) new ->
                   wsRef w' = Some s /\ readyStateOf s w' = Some OPEN.
Proof.
  intros W.
  assert (forall w0 : World, wire w0 = wire w ->
            exists new, wire w0 = wire w ++ new
                        /\ forall s f, In (s, f) new ->
                              wsRef w0 = Some s /\ readyStateOf s w0 = Some OPEN)
    as Hnone
      by (intros w0 H0; exists []; rewrite app_nil_r; split;
          [exact H0|intros s f []]).
  destruct e; cbn [step].
  - intros [= <-]. apply Hnone. apply (connect_keeps_traffic w).
  - intros [= <-]. apply Hnone.
    unfold unmount, stopHeartbeat, ws_close, setReadyState, clearTimer.
    repeat break_match; reflexivity.
  - destruct (readyStateOf s w) as [[]|]; try discriminate.
    intros [= <-].
    destruct (onopen_wire (setReadyState s OPEN w) W)
      as (new & Hw & Hws & Hso & Hin).
    exists new. split; [exact Hw|].
    intros s0 f H0. destruct (Hin s0 f H0) as [A B].
    unfold readyStateOf in *. rewrite Hws, Hso. split; assumption.
  - destruct (readyStateOf s w) as [[]|]; try discriminate;
      intros [= <-]; apply Hnone, onmessage_wire.
  - destruct (readyStateOf s w) as [[]|]; try discriminate;
      intros [= <-]; apply Hnone; reflexivity.
  - destruct (readyStateOf s w) as [[]|]; try discriminate;
      intros [= <-]; apply Hnone;
      apply (onclose_wire code (setReadyState s CLOSED w)).
  - destruct (findTimer tid (timers w)) as [t|]; [|discriminate].
    destruct (due t <=? now w); [|discriminate].
    intros [= <-]. unfold fire. destruct (action t).
    + apply Hnone. unfold requestTimeout. break_match; [|reflexivity].
      rewrite settle_wire. reflexivity.
    + apply Hnone. unfold reconnectTimerFired.
      match goal with |- wire (connect ?x) = _ =>
        apply (connect_keeps_traffic x) end.
    + unfold heartbeatTick.
      match goal with |- context [currentIs OPEN ?x] =>
        set (w1 := x); destruct (currentIs OPEN w1) eqn:E end.
      * apply currentIs_true in E. destruct E as (s & Hs & Hr).
        unfold Date_now, ws_send. cbn [wsRef set_reads]. rewrite Hs.
        eexists. split; [reflexivity|].
        intros s0 f [H0|[]]. injection H0 as <- _. split; assumption.
      * apply Hnone. reflexivity.
  - intros [= <-]. unfold sendMessage, newPromise. cbv beta iota.
    set (w0 := set_next_promise (S (next_promise w)) w).
    destruct (currentIs OPEN w0) eqn:E; cbn [snd].
    + apply currentIs_true in E. destruct E as (s & Hs & Hr).
      rewrite (sendMessageInternal_open req _ s w0 Hs Hr). cbn [snd].
      eexists. split; [reflexivity|].
      intros s0 f [H0|[]]. injection H0 as <- _. split; assumption.
    + apply Hnone.
      apply (sendMessageRoute_wire req (next_promise w)
               (connectionState w0) w0).
  - intros [= <-]. apply Hnone. apply (reconnect_keeps_traffic w).
  - destruct (awaitsHttp c w); [|discriminate].
    intros [= <-]. apply Hnone. rewrite settle_wire. reflexivity.
  - intros [= <-]. apply Hnone. reflexivity.
Qed.


(** *** At most one heartbeat interval *)

Lemma NoDup_map_filter {A B} (g : A -> B) (f : A -> bool) (l : list A) :
  NoDup (map g l) -> NoDup (map g (filter f l)).
Proof.
  induction l as [|x l IH]; cbn; intros H; [constructor|].
  inversion H as [|? ? Hn Hd]; subst.
  destruct (f x); cbn; [constructor|]; auto.
  intros Hin. apply Hn. apply in_map_iff in Hin.
  destruct Hin as (y & Hy & Hin). apply filter_In in Hin.
  apply in_map_iff. exists y. tauto.
Qed.

Lemma timers_ok_same (w w' : World) :
  timers w' = timers w -> next_timer w' = next_timer w ->
  heartbeatTimeoutRef w' = heartbeatTimeoutRef w ->
  timers_ok w -> timers_ok w'.
Proof.
  intros Ht Hn Hh (T1 & T2 & T3). unfold timers_ok.
  rewrite Ht, Hn, Hh. repeat split; assumption.
Qed.

Lemma timers_ok_clearTimer tid (w : World) :
  timers_ok w -> timers_ok (clearTimer tid w).
Proof.
  intros (T1 & T2 & T3). unfold timers_ok, clearTimer. cbn. repeat split.
  - intros t Ht. apply filter_In in Ht. apply T1, Ht.
  - apply NoDup_map_filter, T2.
  - intros t Ht Hb. apply filter_In in Ht. apply T3; tauto.
Qed.

Lemma timers_ok_setTimer delay a (w : World) :
  a <> HeartbeatInterval ->
  timers_ok w -> timers_ok (snd (setTimer delay a w)).
Proof.
  intros Ha (T1 & T2 & T3). unfold timers_ok, setTimer. cbn. repeat split.
  - intros t Ht. apply in_app_or in Ht. destruct Ht as [Ht|[<-|[]]].
    + specialize (T1 t Ht). lia.
    + cbn. lia.
  - rewrite map_app. cbn. apply NoDup_app; [exact T2|repeat constructor; auto|].
    intros x Hx [<-|[]]. apply in_map_iff in Hx.
    destruct Hx as (t & Hf & Ht). specialize (T1 t Ht). lia.
  - intros t Ht Hb. apply in_app_or in Ht. destruct Ht as [Ht|[<-|[]]].
    + apply T3; assumption.
    + exfalso. unfold isHeartbeat in Hb. cbn in Hb.
      destruct a; try discriminate. apply Ha. reflexivity.
Qed.

Lemma no_heartbeat_after_clear (w : World) :
  timers_ok w ->
  forall t,
    In t (timers (match heartbeatTimeoutRef w with
                  | Some h => clearTimer h w
                  | None => w
                  end)) ->
    isHeartbeat t = false.
Proof.
  intros (T1 & T2 & T3) t Ht.
  destruct (isHeartbeat t) eqn:Hb; [|reflexivity]. exfalso.
  destruct (heartbeatTimeoutRef w) as [h|] eqn:Hh.
  - unfold clearTimer in Ht. cbn in Ht. apply filter_In in Ht.
    destruct Ht as [Ht Hne]. specialize (T3 t Ht Hb).
    injection T3 as ->. rewrite Nat.eqb_refl in Hne. discriminate.
  - specialize (T3 t Ht Hb). discriminate.
Qed.

Lemma timers_ok_startHeartbeat (w : World) :
  timers_ok w -> timers_ok (startHeartbeat w).
Proof.
  intros T. pose proof (no_heartbeat_after_clear w T) as Hnone.
  unfold startHeartbeat.
  set (w1 := match heartbeatTimeoutRef w with Some _ => _ | None => _ end) in *.
  assert (timers_ok w1) as (T1 & T2 & T3)
      by (subst w1; destruct (heartbeatTimeoutRef w);
          [apply timers_ok_clearTimer|]; exact T).
  unfold timers_ok, setTimer. cbn. repeat split.
  - intros t Ht. apply in_app_or in Ht. destruct Ht as [Ht|[<-|[]]].
    + specialize (T1 t Ht). lia.
    + cbn. lia.
  - rewrite map_app. cbn. apply NoDup_app; [exact T2|repeat constructor; auto|].
    intros x Hx [<-|[]]. apply in_map_iff in Hx.
    destruct Hx as (t & Hf & Ht). specialize (T1 t Ht). lia.
  - intros t Ht Hb. apply in_app_or in Ht. destruct Ht as [Ht|[<-|[]]].
    + rewrite (Hnone t Ht) in Hb. discriminate.
    + reflexivity.
Qed.

Lemma timers_ok_stopHeartbeat (w : World) :
  timers_ok w -> timers_ok (stopHeartbeat w).
Proof.
  intros T. pose proof (no_heartbeat_after_clear w T) as Hnone.
  unfold stopHeartbeat. destruct (heartbeatTimeoutRef w) as [h|]; [|exact T].
  destruct (timers_ok_clearTimer h w T) as (T1 & T2 & T3).
  repeat split; try assumption.
  intros t Ht Hb. cbn in Ht. rewrite (Hnone t Ht) in Hb. discriminate.
Qed.

Lemma timers_ok_scheduleReconnect (w : World) :
  timers_ok w -> timers_ok (scheduleReconnect w).
Proof.
  intros T. unfold scheduleReconnect.
  pose proof (timers_ok_setTimer (reconnectDelay (reconnectAttempts w))
                ReconnectTimer w ltac:(discriminate) T) as H.
  destruct (setTimer (reconnectDelay (reconnectAttempts w)) ReconnectTimer w)
    as [tid w1]. cbn [snd] in H.
  revert H. apply timers_ok_same; reflexivity.
Qed.

Lemma timers_ok_connect (w : World) : timers_ok w -> timers_ok (connect w).
Proof.
  intros T. unfold connect. destruct (currentIs CONNECTING w); [exact T|].
  set (w1 := setConnectionState connecting w).
  destruct (ctor_throws (List.length (sockets w1))); [|exact T].
  destruct (reconnectAttempts (setConnectionState error w1) <? maxReconnectAttempts)%nat;
    [|exact T].
  apply timers_ok_scheduleReconnect. exact T.
Qed.

Lemma timers_ok_ws_close s (w : World) : timers_ok w -> timers_ok (ws_close s w).
Proof.
  intros T. unfold ws_close, setReadyState. repeat break_match; exact T.
Qed.

Lemma timers_ok_reconnect (w : World) : timers_ok w -> timers_ok (reconnect w).
Proof.
  intros T. unfold reconnect. apply timers_ok_connect.
  set (w1 := match reconnectTimeoutRef w with Some _ => _ | None => _ end).
  assert (timers_ok w1) as T1.
  { subst w1. destruct (reconnectTimeoutRef w) as [t|]; [|exact T].
    apply (timers_ok_same (clearTimer t w)); try reflexivity.
    apply timers_ok_clearTimer, T. }
  set (w2 := set_reconnectAttempts 0%nat w1).
  assert (timers_ok w2) as T2 by exact T1.
  destruct (wsRef w2); [apply timers_ok_ws_close|]; exact T2.
Qed.

Lemma timers_ok_sendMessageRoute req c cs (w : World) :
  timers_ok w -> timers_ok (sendMessageRoute req c cs w).
Proof.
  intros T. unfold sendMessageRoute.
  assert (forall w0, timers_ok w0 -> timers_ok (enqueue req c w0)) as E
      by (intros w0 T0; exact T0).
  destruct cs; [apply E, T|exact T| |]; apply E, timers_ok_reconnect, T.
Qed.

Lemma timers_ok_settle p o (w : World) :
  timers_ok w -> timers_ok (settle p o w).
Proof.
  intros T. unfold settle. destruct (negb (settled p w)); [|exact T].
  change (reactions (logSettle p o w)) with (reactions w).
  destruct (reactionOf p (reactions w)) as [[c | c req cs] |]; try exact T.
  destruct o; [exact T|].
  apply (timers_ok_sendMessageRoute req c cs (logSettle p (Rejected msg) w)).
  exact T.
Qed.

Lemma timers_ok_sendMessageInternal req r (w : World) :
  timers_ok w -> timers_ok (snd (sendMessageInternal req r w)).
Proof.
  intros T. unfold sendMessageInternal, newPromise. cbv beta iota.
  set (w1 := set_reactions _ _).
  assert (timers_ok w1) as T1 by exact T.
  destruct (negb (currentIs OPEN w1)); cbn [snd].
  - apply timers_ok_settle, T1.
  - unfold Date_now. cbv beta iota.
    set (w2 := set_messageCallbacksRef _ _).
    assert (timers_ok w2) as T2 by exact T1.
    pose proof (timers_ok_setTimer 30000
                  (RequestTimeout (toString (now w1)) (next_promise w)) w2
                  ltac:(discriminate) T2) as H.
    destruct (setTimer 30000 _ w2) as [tid w3]. cbn [snd] in *.
    unfold ws_send. destruct (wsRef w3); exact H.
Qed.

Lemma timers_ok_processOne (w : World) q :
  timers_ok w -> timers_ok (processOne w q).
Proof.
  intros T. rewrite processOne_eq.
  assert (timers_ok (set_reads (S (reads w)) w)) as T1 by exact T.
  destruct (expiredAt (clock (reads w)) q);
    [apply timers_ok_settle|apply timers_ok_sendMessageInternal]; exact T1.
Qed.

Lemma timers_ok_drain qs : forall (w : World),
  timers_ok w -> timers_ok (fold_left processOne qs w).
Proof.
  induction qs as [|q qs IH]; intros w T; cbn [fold_left]; [exact T|].
  apply IH, timers_ok_processOne, T.
Qed.

Lemma timers_ok_onopen (w : World) : timers_ok w -> timers_ok (onopen w).
Proof.
  intros T. rewrite onopen_eq. apply timers_ok_startHeartbeat.
  assert (timers_ok (onopen_prefix w)) as T1.
  { unfold onopen_prefix. cbn.
    destruct (reconnectTimeoutRef w) as [t|]; [|exact T].
    apply (timers_ok_same (clearTimer t w)); try reflexivity.
    apply timers_ok_clearTimer, T. }
  unfold processMessageQueue.
  destruct (negb (currentIs OPEN (onopen_prefix w))); [exact T1|].
  apply timers_ok_drain. exact T1.
Qed.

Lemma timers_ok_onmessage m (w : World) :
  timers_ok w -> timers_ok (onmessage m w).
Proof.
  intros T. unfold onmessage. repeat break_match; try exact T.
  match goal with |- context [settle ?p ?o ?x] =>
    pose proof (timers_ok_settle p o x T) as H end.
  exact H.
Qed.

Lemma timers_ok_onclose code (w : World) :
  timers_ok w -> timers_ok (onclose code w).
Proof.
  intros T. unfold onclose.
  set (w1 := stopHeartbeat _).
  assert (timers_ok w1) as T1
      by (subst w1; apply timers_ok_stopHeartbeat; exact T).
  destruct (connectionLost_fold_spec (messageCallbacksRef w1) w1)
    as (n & l & Hf & _).
  rewrite Hf.
  set (w2 := set_messageCallbacksRef [] _).
  assert (timers_ok w2) as T2 by exact T1.
  repeat break_match; try exact T2.
  apply timers_ok_scheduleReconnect, T2.
Qed.

Lemma timers_ok_fire tid t (w : World) :
  findTimer tid (timers w) = Some t ->
  timers_ok w -> timers_ok (fire tid t w).
Proof.
  intros Hf T. unfold fire. destruct (action t) as [k p| |] eqn:Ha.
  - unfold requestTimeout. break_match; [|apply timers_ok_clearTimer, T].
    apply timers_ok_settle.
    apply (timers_ok_same (clearTimer tid w)); try reflexivity.
    apply timers_ok_clearTimer, T.
  - unfold reconnectTimerFired. apply timers_ok_connect.
    apply (timers_ok_same (clearTimer tid w)); try reflexivity.
    apply timers_ok_clearTimer, T.
  - set (w1 := set_timers _ w).
    assert (timers_ok w1) as T1.
    { destruct T as (T1 & T2 & T3). subst w1. unfold timers_ok. cbn.
      assert (forall e : nat * Timer,
                fst (if Nat.eqb (fst e) tid
                     then (tid, {| due := due t + 30000;
                                   action := HeartbeatInterval |})
                     else e) = fst e) as Hfst.
      { intros e. destruct (Nat.eqb_spec (fst e) tid); [cbn; auto|reflexivity]. }
      repeat split.
      - intros t0 Ht. apply in_map_iff in Ht. destruct Ht as (e & <- & He).
        rewrite Hfst. apply T1, He.
      - rewrite map_map. rewrite (map_ext _ fst Hfst). exact T2.
      - intros t0 Ht Hb. apply in_map_iff in Ht. destruct Ht as (e & <- & He).
        rewrite Hfst. destruct (Nat.eqb_spec (fst e) tid) as [E|E].
        + apply T3; [exact He|].
          pose proof (findTimer_In _ _ _ Hf) as Hin.
          assert (e = (tid, t)) as ->.
          { clear -T2 He Hin E. destruct e as [i x]. cbn in E. subst i.
            induction (timers w) as [|[j y] l IH]; [contradiction|].
            cbn in T2. inversion T2 as [|? ? Hn Hd]; subst.
            destruct He as [He|He], Hin as [Hin|Hin].
            - congruence.
            - injection He as -> ->. exfalso. apply Hn.
              apply in_map_iff. exists (tid, t). split; [reflexivity|exact Hin].
            - injection Hin as -> ->. exfalso. apply Hn.
              apply in_map_iff. exists (tid, x). split; [reflexivity|exact He].
            - apply IH; assumption. }
          unfold isHeartbeat. cbn. rewrite Ha. reflexivity.
        + apply T3; assumption. }
    unfold heartbeatTick. destruct (currentIs OPEN w1); [|exact T1].
    unfold Date_now, ws_send. cbn [wsRef set_reads].
    destruct (wsRef w1); exact T1.
Qed.

Lemma timers_ok_sendMessage req (w : World) :
  timers_ok w -> timers_ok (snd (sendMessage req w)).
Proof.
  intros T. unfold sendMessage, newPromise. cbv beta iota.
  set (w1 := set_next_promise (S (next_promise w)) w).
  assert (timers_ok w1) as T1 by exact T.
  destruct (currentIs OPEN w1); cbn [snd].
  - apply timers_ok_sendMessageInternal, T1.
  - apply timers_ok_sendMessageRoute, T1.
Qed.

Lemma timers_ok_unmount (w : World) : timers_ok w -> timers_ok (unmount w).
Proof.
  intros T. unfold unmount.
  set (w1 := match reconnectTimeoutRef w with Some _ => _ | None => _ end).
  assert (timers_ok w1) as T1
      by (subst w1; destruct (reconnectTimeoutRef w);
          [apply timers_ok_clearTimer|]; exact T).
  pose proof (timers_ok_stopHeartbeat w1 T1) as T2.
  destruct (wsRef (stopHeartbeat w1)); [apply timers_ok_ws_close|]; exact T2.
Qed.

Lemma timers_ok_step e (w w' : World) :
  timers_ok w -> step e w = Some w' -> timers_ok w'.
Proof.
  intros T. destruct e; cbn [step].
  - intros [= <-]. apply timers_ok_connect, T.
  - intros [= <-]. apply timers_ok_unmount, T.
  - destruct (readyStateOf s w) as [[]|]; try discriminate.
    intros [= <-]. apply timers_ok_onopen. exact T.
  - destruct (readyStateOf s w) as [[]|]; try discriminate;
      intros [= <-]; apply timers_ok_onmessage, T.
  - destruct (readyStateOf s w) as [[]|]; try discriminate;
      intros [= <-]; exact T.
  - destruct (readyStateOf s w) as [[]|]; try discriminate;
      intros [= <-]; apply timers_ok_onclose; exact T.
  - destruct (findTimer tid (timers w)) as [t|] eqn:Hf; [|discriminate].
    destruct (due t <=? now w); [|discriminate].
    intros [= <-]. apply timers_ok_fire; assumption.
  - intros [= <-]. apply timers_ok_sendMessage, T.
  - intros [= <-]. apply timers_ok_reconnect, T.
  - destruct (awaitsHttp c w); [|discriminate].
    intros [= <-]. apply timers_ok_settle. exact T.
  - intros [= <-]. exact T.
Qed.

Lemma timers_ok_run es : forall (w w' : World),
  timers_ok w -> run es w = Some w' -> timers_ok w'.
Proof.
  induction es as [|e es IH]; intros w w' T; cbn [run].
  - intros [= <-]. exact T.
  - destruct (step e w) as [w1|] eqn:E; [|discriminate].
    apply IH. eapply timers_ok_step; eauto.
Qed.

Lemma at_most_one_with_id {A} (f : nat * A -> bool) h (l : list (nat * A)) :
  NoDup (map fst l) ->
  (forall t, In t l -> f t = true -> fst t = h) ->
  (List.length (filter f l) <= 1)%nat.
Proof.
  induction l as [|t l IH]; cbn; intros Hd Hh; [lia|].
  inversion Hd as [|? ? Hn Hd']; subst.
  assert (List.length (filter f l) <= 1)%nat as IH'
      by (apply IH; [exact Hd'|intros t0 H0; apply Hh; right; exact H0]).
  destruct (f t) eqn:Ef; [|exact IH']. cbn.
  destruct (filter f l) as [|t0 l0] eqn:El; [cbn; lia|].
  exfalso. apply Hn.
  assert (In t0 (filter f l)) as H0 by (rewrite El; left; reflexivity).
  apply filter_In in H0. destruct H0 as [Hin Hf0].
  rewrite (Hh t (or_introl eq_refl) Ef).
  rewrite <- (Hh t0 (or_intror Hin) Hf0).
  apply in_map. exact Hin.
Qed.

(** X11.  In every reachable state at most one heartbeat interval is armed, and
    it is the one [heartbeatTimeoutRef] names: starting the heartbeat
    again never leaves an older interval running. *)
Theorem at_most_one_heartbeat_interval (w : World) :
  reachable w ->
  (List.length (filter isHeartbeat (timers w)) <= 1)%nat
  /\ forall tid t,
       In (tid, t) (timers w) -> action t = HeartbeatInterval ->
       heartbeatTimeoutRef w = Some tid.
Proof.
  intros [es Hrun].
  assert (timers_ok init) as T0.
  { repeat split; [intros t []|constructor|intros t []]. }
  destruct (timers_ok_run es init w T0 Hrun) as (T1 & T2 & T3).
  split.
  - destruct (heartbeatTimeoutRef w) as [h|] eqn:Hh.
    + apply (at_most_one_with_id isHeartbeat h); [exact T2|].
      intros t Ht Hb. specialize (T3 t Ht Hb). congruence.
    + assert (filter isHeartbeat (timers w) = []) as ->; [|cbn; lia].
      destruct (filter isHeartbeat (timers w)) as [|t l] eqn:E; [reflexivity|].
      assert (In t (filter isHeartbeat (timers w))) as H0
          by (rewrite E; left; reflexivity).
      apply filter_In in H0. destruct H0 as [Hin Hb].
      specialize (T3 t Hin Hb). discriminate.
  - intros tid t Hin Ha. apply (T3 (tid, t) Hin).
    unfold isHeartbeat. cbn. rewrite Ha. reflexivity.
Qed.


(** *** A caller's promise is settled at most once *)

Lemma count_le {A} (f g : A -> bool) (l : list A) :
  (forall x, In x l -> f x = true -> g x = true) ->
  (List.length (filter f l) <= List.length (filter g l))%nat.
Proof.
  induction l as [|x l IH]; cbn; intros H; [lia|].
  assert (List.length (filter f l) <= List.length (filter g l))%nat as IH'
      by (apply IH; intros y Hy; apply H; right; exact Hy).
  destruct (f x) eqn:Ef.
  - rewrite (H x (or_introl eq_refl) Ef). cbn. lia.
  - destruct (g x); cbn; lia.
Qed.

Lemma count_lt {A} (f g : A -> bool) (l : list A) x0 :
  (forall x, In x l -> f x = true -> g x = true) ->
  In x0 l -> g x0 = true -> f x0 = false ->
  (S (List.length (filter f l)) <= List.length (filter g l))%nat.
Proof.
  induction l as [|x l IH]; cbn; intros H Hin Hg Hf; [contradiction|].
  assert (List.length (filter f l) <= List.length (filter g l))%nat as Hle
      by (apply count_le; intros y Hy; apply H; right; exact Hy).
  destruct Hin as [->|Hin].
  - rewrite Hf, Hg. cbn. lia.
  - assert (S (List.length (filter f l)) <= List.length (filter g l))%nat as IH'
        by (apply IH; auto).
    destruct (f x) eqn:Ef.
    + rewrite (H x (or_introl eq_refl) Ef). cbn. lia.
    + destruct (g x); cbn; lia.
Qed.

Lemma settled_logSettle x p o (w : World) :
  settled x (logSettle p o w) = settled x w || Nat.eqb p x.
Proof.
  unfold settled, logSettle. cbn. rewrite existsb_app. cbn.
  rewrite orb_false_r. reflexivity.
Qed.

Lemma weight_same c (w w' : World) :
  settle_log w' = settle_log w -> messageQueueRef w' = messageQueueRef w ->
  http_calls w' = http_calls w -> reactions w' = reactions w ->
  weight c w' = weight c w.
Proof.
  intros H1 H2 H3 H4. unfold weight, holders, callsOf, settled.
  rewrite H1, H2, H3, H4. reflexivity.
Qed.

Lemma adds_same c (w w' : World) :
  settle_log w' = settle_log w -> messageQueueRef w' = messageQueueRef w ->
  http_calls w' = http_calls w -> reactions w' = reactions w ->
  adds c 0 w w'.
Proof.
  intros H1 H2 H3 H4 Hc. rewrite H4 in Hc. split; [exact Hc|].
  rewrite (weight_same c w w' H1 H2 H3 H4). lia.
Qed.

Lemma adds_refl c (w : World) : adds c 0 w w.
Proof. apply adds_same; reflexivity. Qed.

Lemma adds_same_promises dead c (w w' : World) :
  same_promises dead w w' -> adds c 0 w w'.
Proof. intros (H1 & _ & H3 & H4 & H5 & _). apply adds_same; assumption. Qed.

Lemma adds_trans c k1 k2 (w1 w2 w3 : World) :
  adds c k1 w1 w2 -> adds c k2 w2 w3 -> adds c (k1 + k2) w1 w3.
Proof.
  intros H12 H23 Hc. destruct (H23 Hc) as [Hc2 L2].
  destruct (H12 Hc2) as [Hc1 L1]. split; [exact Hc1|lia].
Qed.

Lemma adds_none c (w1 w2 w3 : World) k :
  adds c 0 w1 w2 -> adds c k w2 w3 -> adds c k w1 w3.
Proof. intros H12 H23. exact (adds_trans c 0 k w1 w2 w3 H12 H23). Qed.

Lemma holders_logSettle c p o (w : World) :
  (holders c (logSettle p o w) <= holders c w)%nat.
Proof.
  unfold holders.
  change (messageQueueRef (logSettle p o w)) with (messageQueueRef w).
  change (http_calls (logSettle p o w)) with (http_calls w).
  change (reactions (logSettle p o w)) with (reactions w).
  apply Nat.add_le_mono_l. apply count_le. intros e _ He.
  rewrite settled_logSettle in He.
  destruct (Nat.eqb (callerOf (snd e)) c); [|discriminate].
  destruct (settled (fst e) w); [discriminate|reflexivity].
Qed.

(** Settling [p] uses up the continuation registered on it. *)
Lemma holders_fired c p r o (w : World) :
  reactionOf p (reactions w) = Some r -> callerOf r = c ->
  settled p w = false ->
  (S (holders c (logSettle p o w)) <= holders c w)%nat.
Proof.
  intros Hr Hc Hs. unfold holders.
  change (messageQueueRef (logSettle p o w)) with (messageQueueRef w).
  change (http_calls (logSettle p o w)) with (http_calls w).
  change (reactions (logSettle p o w)) with (reactions w).
  rewrite <- Nat.add_succ_r. apply Nat.add_le_mono_l.
  apply (count_lt _ _ _ (p, r)).
  - intros e _ He. rewrite settled_logSettle in He.
    destruct (Nat.eqb (callerOf (snd e)) c); [|discriminate].
    destruct (settled (fst e) w); [discriminate|reflexivity].
  - apply reactionOf_In, Hr.
  - cbn [fst snd]. rewrite Hc, Nat.eqb_refl, Hs. reflexivity.
  - cbn [fst snd]. rewrite settled_logSettle, Nat.eqb_refl, orb_true_r.
    apply andb_false_r.
Qed.

Lemma weight_logSettle c p o (w : World) :
  (weight c (logSettle p o w)
   <= weight c w + (if Nat.eqb p c then 1 else 0))%nat.
Proof.
  unfold weight. rewrite callsOf_logSettle, length_app.
  pose proof (holders_logSettle c p o w).
  destruct (Nat.eqb p c); cbn [List.length]; lia.
Qed.

Lemma adds_logSettle c p o (w : World) :
  adds c (if Nat.eqb p c then 1 else 0) w (logSettle p o w).
Proof. intros Hc. split; [exact Hc|apply weight_logSettle]. Qed.

Lemma weight_enqueue c req c' (w : World) :
  weight c (enqueue req c' w)
  = (weight c w + (if Nat.eqb c' c then 1 else 0))%nat.
Proof.
  unfold weight, holders, callsOf, settled, enqueue, Date_now.
  cbn [messageQueueRef http_calls reactions settle_log
       set_messageQueueRef set_reads].
  rewrite filter_app, length_app. cbn [filter q_caller].
  destruct (Nat.eqb c' c); cbn [List.length]; lia.
Qed.

Lemma weight_sendHttpMessage c req c' (w : World) :
  weight c (sendHttpMessage req c' w)
  = (weight c w + (if Nat.eqb c' c then 1 else 0))%nat.
Proof.
  unfold weight, holders, callsOf, settled, sendHttpMessage.
  cbn [messageQueueRef http_calls reactions settle_log set_http_calls].
  rewrite filter_app, length_app. cbn [filter fst].
  destruct (Nat.eqb c' c); cbn [List.length];
    repeat rewrite ?Nat.add_1_r, ?Nat.add_0_r, ?Nat.add_succ_r, ?Nat.add_succ_l;
    reflexivity.
Qed.

Lemma adds_sendMessageRoute c req c' cs (w : World) :
  adds c (if Nat.eqb c' c then 1 else 0) w (sendMessageRoute req c' cs w).
Proof.
  assert (forall w0 : World,
            adds c (if Nat.eqb c' c then 1 else 0) w0 (enqueue req c' w0)) as E
      by (intros w0 Hc; split; [exact Hc|rewrite weight_enqueue; lia]).
  unfold sendMessageRoute. destruct cs.
  - apply E.
  - intros Hc. split; [exact Hc|rewrite weight_sendHttpMessage; lia].
  - apply (adds_none c w (reconnect w));
      [apply (adds_same_promises (fun _ => false)),
             (reconnect_same_promises _ 0%nat w)|apply E].
  - apply (adds_none c w (reconnect w));
      [apply (adds_same_promises (fun _ => false)),
             (reconnect_same_promises _ 0%nat w)|apply E].
Qed.

Lemma settle_reactions p o (w : World) :
  reactions (settle p o w) = reactions w.
Proof.
  unfold settle. destruct (negb (settled p w)); [|reflexivity].
  change (reactions (logSettle p o w)) with (reactions w).
  destruct (reactionOf p (reactions w)) as [[c | c req cs] |]; try reflexivity.
  destruct o as [v|msg]; [reflexivity|].
  unfold sendMessageRoute, enqueue, sendHttpMessage, Date_now.
  destruct cs; cbn [reactions set_messageQueueRef set_reads set_http_calls];
    try reflexivity;
    match goal with
    |- reactions (reconnect ?x) = _ =>
        destruct (reconnect_same_promises (fun _ => false) 0%nat x)
          as (_ & _ & _ & _ & H & _); exact H
    end.
Qed.

(** A call of [resolve] or [reject] of [p]: a caller's promise gains a
    call when it is [p] itself; when it waits for [p], its one holder is
    exchanged for a call or for another holder. *)
Lemma adds_settle c p o (w : World) :
  adds c (if Nat.eqb p c then 1 else 0) w (settle p o w).
Proof.
  intros Hc. rewrite settle_reactions in Hc. split; [exact Hc|].
  unfold settle. destruct (settled p w) eqn:Es; cbn [negb].
  { apply weight_logSettle. }
  change (reactions (logSettle p o w)) with (reactions w).
  destruct (reactionOf p (reactions w)) as [r|] eqn:Er;
    [|apply weight_logSettle].
  assert (Nat.eqb p c = false) as Hpc.
  { apply Nat.eqb_neq. intros ->. congruence. }
  rewrite Hpc, Nat.add_0_r.
  assert (forall c', callerOf r = c' ->
            (weight c (logSettle p o w)
               + (if Nat.eqb c' c then 1 else 0) <= weight c w)%nat) as Hfired.
  { intros c' Hr. destruct (Nat.eqb_spec c' c) as [->|_].
    - pose proof (holders_fired c p r o w Er Hr Es) as H.
      unfold weight. rewrite callsOf_logSettle, Hpc, app_nil_r. lia.
    - pose proof (weight_logSettle c p o w) as H. rewrite Hpc in H. lia. }
  destruct r as [c' | c' req cs].
  - specialize (Hfired c' eq_refl).
    pose proof (weight_logSettle c c' o (logSettle p o w)). lia.
  - specialize (Hfired c' eq_refl). destruct o as [v|msg].
    + pose proof (weight_logSettle c c' (Fulfilled v)
                    (logSettle p (Fulfilled v) w)).
      lia.
    + destruct (adds_sendMessageRoute c req c' cs
                  (logSettle p (Rejected msg) w)) as [_ H]; [|lia].
      pose proof (settle_reactions p (Rejected msg) w) as Hs.
      unfold settle in Hs. rewrite Es in Hs. cbn [negb] in Hs.
      change (reactions (logSettle p (Rejected msg) w)) with (reactions w) in Hs.
      rewrite Er in Hs. rewrite Hs. exact Hc.
Qed.

Lemma adds_settle_inner c p o (w : World) :
  inner w p = true -> adds c 0 w (settle p o w).
Proof.
  intros Hi Hc. destruct (adds_settle c p o w Hc) as [Hc0 H].
  split; [exact Hc0|].
  assert (Nat.eqb p c = false) as Hpc.
  { apply Nat.eqb_neq. intros ->. unfold inner in Hi. rewrite Hc0 in Hi.
    discriminate. }
  rewrite Hpc in H. exact H.
Qed.


Lemma weight_reaction_added c p r (w w' : World) :
  settle_log w' = settle_log w -> messageQueueRef w' = messageQueueRef w ->
  http_calls w' = http_calls w -> reactions w' = (p, r) :: reactions w ->
  (weight c w' <= weight c w + (if Nat.eqb (callerOf r) c then 1 else 0))%nat.
Proof.
  intros H1 H2 H3 H4. unfold weight, holders, callsOf, settled.
  rewrite H1, H2, H3, H4. cbn [filter fst snd].
  destruct (Nat.eqb (callerOf r) c); cbn [andb];
    [match goal with |- context [negb ?b] => destruct (negb b) end|];
    cbn [List.length]; lia.
Qed.

Lemma weight_queue_emptied c (w : World) :
  (weight c (set_messageQueueRef [] w)
   + List.length (filter (fun q => Nat.eqb (q_caller q) c) (messageQueueRef w))
   = weight c w)%nat.
Proof.
  unfold weight, holders, callsOf, settled.
  cbn [messageQueueRef http_calls reactions settle_log set_messageQueueRef
       filter List.length].
  lia.
Qed.

Lemma sendMessageInternal_reactions req r (w : World) :
  reactions (snd (sendMessageInternal req r w))
  = (next_promise w, r) :: reactions w.
Proof.
  unfold sendMessageInternal, newPromise. cbv beta iota.
  set (w1 := set_reactions _ _).
  destruct (negb (currentIs OPEN w1)); cbn [snd].
  - rewrite settle_reactions. reflexivity.
  - unfold Date_now, setTimer, ws_send. cbv beta iota zeta.
    break_match; reflexivity.
Qed.

Lemma adds_sendMessageInternal c req r (w : World) :
  adds c (if Nat.eqb (callerOf r) c then 1 else 0) w
       (snd (sendMessageInternal req r w)).
Proof.
  intros Hc. rewrite sendMessageInternal_reactions in Hc. cbn [reactionOf] in Hc.
  destruct (Nat.eqb c (next_promise w)) eqn:Ep; [discriminate|].
  split; [exact Hc|].
  unfold sendMessageInternal, newPromise. cbv beta iota.
  set (w1 := set_reactions _ _).
  assert (weight c w1
          <= weight c w + (if Nat.eqb (callerOf r) c then 1 else 0))%nat as H1
      by (apply (weight_reaction_added c (next_promise w) r); reflexivity).
  destruct (negb (currentIs OPEN w1)); cbn [snd].
  - destruct (adds_settle c (next_promise w)
                (Rejected "WebSocket not connected") w1) as [_ H2].
    + rewrite settle_reactions. subst w1. cbn [reactions set_reactions reactionOf].
      rewrite Ep. exact Hc.
    + rewrite Nat.eqb_sym, Ep in H2. lia.
  - match goal with
    | |- (weight c ?x <= _)%nat => assert (weight c x = weight c w1) as ->
    end; [|exact H1].
    apply weight_same; unfold Date_now, setTimer, ws_send; cbv beta iota zeta;
      break_match; reflexivity.
Qed.

Lemma adds_processOne c (w : World) q :
  adds c (if Nat.eqb (q_caller q) c then 1 else 0) w (processOne w q).
Proof.
  rewrite processOne_eq.
  apply (adds_none c w (set_reads (S (reads w)) w));
    [apply adds_same; reflexivity|].
  destruct (expiredAt (clock (reads w)) q).
  - apply adds_settle.
  - apply (adds_sendMessageInternal c (request q) (Forward (q_caller q))).
Qed.

Lemma adds_drain c qs : forall (w : World),
  adds c (List.length (filter (fun q => Nat.eqb (q_caller q) c) qs))
       w (fold_left processOne qs w).
Proof.
  induction qs as [|q qs IH]; intros w; cbn [fold_left filter].
  - apply adds_refl.
  - pose proof (adds_trans c _ _ w _ _ (adds_processOne c w q)
                  (IH (processOne w q))) as H.
    destruct (Nat.eqb (q_caller q) c); exact H.
Qed.

(** Draining moves each caller's promise from the queue to where
    [sendMessageInternal] or the expiry check puts it. *)
Lemma adds_processMessageQueue c (w : World) :
  adds c 0 w (processMessageQueue w).
Proof.
  unfold processMessageQueue.
  destruct (negb (currentIs OPEN w)); [apply adds_refl|].
  intros Hc.
  destruct (adds_drain c (messageQueueRef w) (set_messageQueueRef [] w) Hc)
    as [Hc0 H].
  split; [exact Hc0|].
  pose proof (weight_queue_emptied c w) as E.
  lia.
Qed.

Lemma adds_onopen c (w : World) : adds c 0 w (onopen w).
Proof.
  rewrite onopen_eq.
  apply (adds_none c w (onopen_prefix w)).
  { apply adds_same; unfold onopen_prefix; cbn;
      destruct (reconnectTimeoutRef w); reflexivity. }
  apply (adds_none c _ (processMessageQueue (onopen_prefix w)));
    [apply adds_processMessageQueue|].
  apply (adds_same_promises (fun _ => false)),
        (startHeartbeat_same_promises _ 0%nat).
Qed.

Lemma JsMap_get_In {V} k (v : V) m :
  JsMap.get k m = Some v -> exists k', In (k', v) m.
Proof.
  induction m as [|[k0 v0] m IH]; cbn; [discriminate|].
  destruct (String.eqb k k0).
  - intros [= <-]. exists k0. left. reflexivity.
  - intros H. destruct (IH H) as [k' Hk]. exists k'. right. exact Hk.
Qed.

Lemma adds_onmessage c m (w : World) :
  inner_ok w -> adds c 0 w (onmessage m w).
Proof.
  intros [I1 _]. unfold onmessage.
  destruct m as [|type data]; [apply adds_refl|].
  destruct (String.eqb type "pong"); [apply adds_refl|].
  destruct (String.eqb type "chat_response").
  - destruct data as [d|]; [|apply adds_same; reflexivity].
    change (messageCallbacksRef (setLastMessage (Parsed type (Some d)) w))
      with (messageCallbacksRef w).
    destruct (JsMap.get (context_id d) (messageCallbacksRef w)) as [p|] eqn:G;
      [|apply adds_same; reflexivity].
    destruct (JsMap_get_In _ _ _ G) as [k' Hk].
    apply (adds_none c w (setLastMessage (Parsed type (Some d)) w));
      [apply adds_same; reflexivity|].
    apply (adds_none c _ (settle p (Fulfilled d)
                            (setLastMessage (Parsed type (Some d)) w)));
      [|apply adds_same; reflexivity].
    apply adds_settle_inner. exact (I1 (k', p) Hk).
  - repeat break_match; apply adds_same; reflexivity.
Qed.

Lemma adds_connectionLost_fold c entries : forall (w : World),
  (forall e, In e entries -> inner w (snd e) = true) ->
  adds c 0 w (fold_left connectionLost entries w).
Proof.
  induction entries as [|e entries IH]; intros w H; cbn [fold_left];
    [apply adds_refl|].
  assert (adds c 0 w (connectionLost w e)) as H1.
  { unfold connectionLost, Date_now. cbv beta iota.
    apply (adds_none c w (set_reads (S (reads w)) w));
      [apply adds_same; reflexivity|].
    apply adds_settle_inner. exact (H e (or_introl eq_refl)). }
  apply (adds_none c w (connectionLost w e) _ 0%nat H1). apply IH.
  intros e' He'. unfold inner, connectionLost, Date_now. cbv beta iota.
  rewrite settle_reactions. exact (H e' (or_intror He')).
Qed.

Lemma adds_onclose c code (w : World) :
  inner_ok w -> adds c 0 w (onclose code w).
Proof.
  intros [I1 _]. unfold onclose.
  set (w0 := set_wsRef None _).
  assert (same_promises (fun _ => false) w0 (stopHeartbeat w0)) as S1
      by apply (stopHeartbeat_same_promises _ 0%nat).
  set (w1 := stopHeartbeat w0) in *.
  assert (adds c 0 w w1) as A1.
  { apply (adds_none c w w0); [apply adds_same; reflexivity|].
    apply (adds_same_promises (fun _ => false)), S1. }
  destruct S1 as (_ & S2 & _ & _ & S5 & _).
  assert (adds c 0 w1 (fold_left connectionLost (messageCallbacksRef w1) w1))
    as A2.
  { apply adds_connectionLost_fold. intros e He. rewrite S2 in He.
    unfold inner. rewrite S5. exact (I1 e He). }
  set (w2 := fold_left connectionLost (messageCallbacksRef w1) w1) in *.
  apply (adds_none c w w1 _ 0%nat A1).
  apply (adds_none c w1 w2 _ 0%nat A2).
  apply (adds_none c w2 (set_messageCallbacksRef [] w2));
    [apply adds_same; reflexivity|].
  repeat break_match.
  - apply (adds_same_promises (fun _ => false)),
          scheduleReconnect_same_promises.
  - apply adds_same; reflexivity.
  - apply adds_refl.
Qed.

Lemma adds_requestTimeout c k p (w : World) :
  inner w p = true -> adds c 0 w (requestTimeout k p w).
Proof.
  intros Hi. unfold requestTimeout.
  destruct (JsMap.has k (messageCallbacksRef w)); [|apply adds_refl].
  apply (adds_none c w (set_messageCallbacksRef
                          (JsMap.delete k (messageCallbacksRef w)) w));
    [apply adds_same; reflexivity|].
  apply adds_settle_inner. exact Hi.
Qed.

Lemma adds_fire c tid t (w : World) :
  inner_ok w -> findTimer tid (timers w) = Some t ->
  adds c 0 w (fire tid t w).
Proof.
  intros [_ I2] Hf. unfold fire. destruct (action t) as [k p| |] eqn:Ha.
  - apply (adds_none c w (clearTimer tid w));
      [apply adds_same; reflexivity|].
    apply adds_requestTimeout.
    exact (I2 (tid, t) k p (findTimer_In _ _ _ Hf) Ha).
  - apply (adds_none c w (set_reconnectAttempts
                            (S (reconnectAttempts (clearTimer tid w)))
                            (clearTimer tid w)));
      [apply adds_same; reflexivity|].
    apply (adds_same_promises (fun _ => false)), connect_same_promises.
  - set (w1 := set_timers _ w).
    apply (adds_none c w w1); [apply adds_same; reflexivity|].
    apply adds_same; unfold heartbeatTick, Date_now, ws_send;
      cbv beta iota zeta; repeat break_match; reflexivity.
Qed.

Lemma adds_sendMessage c req (w : World) :
  adds c (if Nat.eqb (next_promise w) c then 1 else 0) w
       (snd (sendMessage req w)).
Proof.
  unfold sendMessage, newPromise. cbv beta iota.
  set (w1 := set_next_promise (S (next_promise w)) w).
  apply (adds_none c w w1); [apply adds_same; reflexivity|].
  destruct (currentIs OPEN w1); cbn [snd].
  - apply (adds_sendMessageInternal c req
             (Await (next_promise w) req (connectionState w1)) w1).
  - apply adds_sendMessageRoute.
Qed.

Lemma adds_unmount c (w : World) : adds c 0 w (unmount w).
Proof.
  apply adds_same;
    unfold unmount, stopHeartbeat, ws_close, setReadyState, clearTimer;
    repeat break_match; reflexivity.
Qed.

Lemma count_sub {A} (f g : A -> bool) (l : list A) :
  (List.length (filter f (filter g l)) <= List.length (filter f l))%nat.
Proof.
  induction l as [|x l IH]; cbn; [lia|].
  destruct (g x); cbn; destruct (f x); cbn; lia.
Qed.

Lemma filter_none {A} (f : A -> bool) (l : list A) :
  (forall x, In x l -> f x = false) -> filter f l = [].
Proof.
  induction l as [|x l IH]; cbn; intros H; [reflexivity|].
  rewrite (H x (or_introl eq_refl)). apply IH.
  intros y Hy. apply H. right. exact Hy.
Qed.

(** A promise that is still to be allocated has no holder and no call. *)
Lemma unallocated_weight x (w : World) :
  wf w = true -> allocated w -> (next_promise w <= x)%nat -> weight x w = 0%nat.
Proof.
  intros W (Q1 & _ & _ & Q4 & Q5 & _) Hx.
  pose proof (wf_reactions_ok w W) as R. unfold reactions_ok in R.
  rewrite forallb_forall in Q1, Q4, Q5, R.
  unfold weight, holders, callsOf.
  rewrite !filter_none; [reflexivity| | | |].
  - intros e He. specialize (Q1 e He). apply alive_below in Q1.
    apply Nat.eqb_neq. unfold Promise in *. lia.
  - intros e He. specialize (R e He). apply andb_true_iff in R.
    destruct R as [_ R]. apply caller_ok_spec in R.
    apply andb_false_intro1, Nat.eqb_neq. unfold Promise in *. lia.
  - intros e He. specialize (Q5 e He). apply alive_below in Q5.
    apply Nat.eqb_neq. unfold Promise in *. lia.
  - intros q Hq. specialize (Q4 q Hq). apply alive_below in Q4.
    apply Nat.eqb_neq. unfold Promise in *. lia.
Qed.

(** The answer to an HTTP call settles the caller's promise and ends the
    call. *)
Lemma adds_httpDone c c' o (w : World) :
  awaitsHttp c' w = true ->
  adds c 0 w
       (settle c' o
          (set_http_calls
             (filter (fun e => negb (Nat.eqb (fst e) c')) (http_calls w)) w)).
Proof.
  intros Ha Hc.
  set (w0 := set_http_calls _ w) in *.
  destruct (adds_settle c c' o w0 Hc) as [Hc0 H]. split; [exact Hc0|].
  assert (weight c w0 + (if Nat.eqb c' c then 1 else 0) <= weight c w)%nat as E;
    [|lia].
  unfold weight, holders, callsOf, settled. subst w0.
  cbn [messageQueueRef http_calls reactions settle_log set_http_calls].
  assert (List.length
            (filter (fun e => Nat.eqb (fst e) c)
                    (filter (fun e => negb (Nat.eqb (fst e) c')) (http_calls w)))
          + (if Nat.eqb c' c then 1 else 0)
          <= List.length (filter (fun e => Nat.eqb (fst e) c) (http_calls w)))%nat
    as Hh; [|lia].
  destruct (Nat.eqb_spec c' c) as [->|_].
  - rewrite (filter_none (fun e : Promise * ChatRequest => Nat.eqb (fst e) c)
                         (filter _ (http_calls w))).
    + unfold awaitsHttp in Ha. apply existsb_exists in Ha.
      destruct Ha as (e & He & Hec).
      pose proof (count_lt (fun _ => false)
                    (fun e0 : Promise * ChatRequest => Nat.eqb (fst e0) c)
                    (http_calls w) e) as Hlt.
      rewrite (filter_none (fun _ => false)) in Hlt by reflexivity.
      cbn [List.length] in *. rewrite Nat.add_0_l.
      apply Hlt; [intros ? _ H0; discriminate H0|exact He|exact Hec|reflexivity].
    + intros e He. apply filter_In in He. destruct He as [_ He].
      apply negb_true_iff in He. exact He.
  - rewrite Nat.add_0_r. apply count_sub.
Qed.



Lemma keeps_kinds_refl (w : World) : keeps_kinds w w.
Proof.
  split; [lia|]. split; [auto|]. split; [auto|].
  split; [intros; left; assumption|intros; left; assumption].
Qed.

Lemma keeps_kinds_trans (w1 w2 w3 : World) :
  keeps_kinds w1 w2 -> keeps_kinds w2 w3 -> keeps_kinds w1 w3.
Proof.
  intros (A0 & A1 & A2 & A3 & A4) (B0 & B1 & B2 & B3 & B4).
  split; [lia|]. split; [|split; [auto|split]].
  - intros c Hlt Hc. apply B1; [lia|]. apply A1; assumption.
  - intros e He. destruct (B3 e He) as [H|H]; [|right; exact H].
    destruct (A3 e H) as [H'|H']; [left; exact H'|right; apply B2, H'].
  - intros t k p Ht Ha. destruct (B4 t k p Ht Ha) as [H|H]; [|right; exact H].
    destruct (A4 t k p H Ha) as [H'|H']; [left; exact H'|right; apply B2, H'].
Qed.

Lemma inner_ok_keeps (w w' : World) :
  inner_ok w -> keeps_kinds w w' -> inner_ok w'.
Proof.
  intros [I1 I2] (_ & _ & A2 & A3 & A4). split.
  - intros e He. destruct (A3 e He) as [H|H]; [apply A2, I1, H|exact H].
  - intros t k p Ht Ha.
    destruct (A4 t k p Ht Ha) as [H|H]; [apply A2, (I2 t k p H Ha)|exact H].
Qed.

(** Nothing allocated or registered, and nothing added to the table or
    to the request timers. *)
Lemma keeps_kinds_shrink (w w' : World) :
  next_promise w' = next_promise w -> reactions w' = reactions w ->
  (forall e, In e (messageCallbacksRef w') -> In e (messageCallbacksRef w)) ->
  (forall t k p, In t (timers w') -> action (snd t) = RequestTimeout k p ->
                 In t (timers w)) ->
  keeps_kinds w w'.
Proof.
  intros H0 H1 H2 H3. unfold keeps_kinds, inner. rewrite H0, H1.
  split; [lia|]. split; [auto|]. split; [auto|]. split.
  - intros e He. left. exact (H2 e He).
  - intros t k p Ht Ha. left. exact (H3 t k p Ht Ha).
Qed.

Lemma keeps_kinds_same (w w' : World) :
  next_promise w' = next_promise w -> reactions w' = reactions w ->
  messageCallbacksRef w' = messageCallbacksRef w -> timers w' = timers w ->
  keeps_kinds w w'.
Proof.
  intros H0 H1 H2 H3. apply keeps_kinds_shrink; try assumption.
  - rewrite H2. auto.
  - rewrite H3. auto.
Qed.

Lemma keeps_kinds_same_promises (w w' : World) :
  same_promises (fun _ => true) w w' -> keeps_kinds w w'.
Proof.
  intros (_ & H2 & _ & _ & H5 & H6 & H7).
  apply keeps_kinds_shrink; [exact H6|exact H5|rewrite H2; auto|].
  intros t k p Ht Ha. destruct (H7 t Ht) as [H|H]; [exact H|].
  unfold timerAvoids in H. rewrite Ha in H. discriminate.
Qed.

Lemma keeps_kinds_sendMessageRoute req c cs (w : World) :
  keeps_kinds w (sendMessageRoute req c cs w).
Proof.
  assert (forall w0 : World, keeps_kinds w0 (enqueue req c w0)) as E
      by (intros w0; apply keeps_kinds_same; reflexivity).
  unfold sendMessageRoute. destruct cs.
  - apply E.
  - apply keeps_kinds_same; reflexivity.
  - apply (keeps_kinds_trans w (reconnect w));
      [apply keeps_kinds_same_promises, (reconnect_same_promises _ 0%nat)|apply E].
  - apply (keeps_kinds_trans w (reconnect w));
      [apply keeps_kinds_same_promises, (reconnect_same_promises _ 0%nat)|apply E].
Qed.

Lemma keeps_kinds_settle p o (w : World) : keeps_kinds w (settle p o w).
Proof.
  unfold settle.
  destruct (negb (settled p w)); [|apply keeps_kinds_same; reflexivity].
  change (reactions (logSettle p o w)) with (reactions w).
  destruct (reactionOf p (reactions w)) as [[c | c req cs] |];
    try (apply keeps_kinds_same; reflexivity).
  destruct o as [v|msg]; [apply keeps_kinds_same; reflexivity|].
  apply (keeps_kinds_trans w (logSettle p (Rejected msg) w));
    [apply keeps_kinds_same; reflexivity|apply keeps_kinds_sendMessageRoute].
Qed.

Lemma JsMap_set_In {V} k (v : V) m e :
  In e (JsMap.set k v m) -> In e m \/ snd e = v.
Proof.
  induction m as [|[k0 v0] m IH]; cbn.
  - intros [<-|[]]. right. reflexivity.
  - destruct (String.eqb k k0); cbn.
    + intros [<-|H]; [right; reflexivity|left; right; exact H].
    + intros [<-|H]; [left; left; reflexivity|].
      destruct (IH H) as [H'|H']; [left; right; exact H'|right; exact H'].
Qed.

Lemma JsMap_delete_In {V} k (m : list (string * V)) e :
  In e (JsMap.delete k m) -> In e m.
Proof.
  induction m as [|[k0 v0] m IH]; cbn; [auto|].
  destruct (String.eqb k k0); cbn; [auto|].
  intros [<-|H]; [left; reflexivity|right; apply IH, H].
Qed.

Lemma keeps_kinds_sendMessageInternal req r (w : World) :
  keeps_kinds w (snd (sendMessageInternal req r w)).
Proof.
  unfold sendMessageInternal, newPromise. cbv beta iota.
  set (w1 := set_reactions _ _).
  assert (inner w1 (next_promise w) = true) as Hp
      by (unfold inner; subst w1; cbn [reactions set_reactions reactionOf];
          rewrite Nat.eqb_refl; reflexivity).
  assert (keeps_kinds w w1) as K1.
  { split; [cbn; lia|]. split; [|split; [|split]].
    - intros c Hlt Hc. subst w1. cbn [reactions set_reactions reactionOf].
      destruct (Nat.eqb_spec c (next_promise w)) as [E|_]; [|exact Hc].
      exfalso. unfold Promise in *. lia.
    - intros p Hi. unfold inner in *. subst w1.
      cbn [reactions set_reactions reactionOf].
      destruct (Nat.eqb p (next_promise w)); [reflexivity|exact Hi].
    - intros e He. left. exact He.
    - intros t k p Ht _. left. exact Ht. }
  destruct (negb (currentIs OPEN w1)); cbn [snd].
  - apply (keeps_kinds_trans w w1 _ K1), keeps_kinds_settle.
  - apply (keeps_kinds_trans w w1 _ K1).
    unfold Date_now, setTimer, ws_send. cbv beta iota zeta.
    assert (forall w2 : World,
              next_promise w2 = next_promise w1 -> reactions w2 = reactions w1 ->
              messageCallbacksRef w2
              = JsMap.set (toString (now w1)) (next_promise w)
                          (messageCallbacksRef w1) ->
              timers w2
              = timers w1
                  ++ [(next_timer w1,
                       {| due := now (set_reads (S (reads w1)) w1) + 30000;
                          action := RequestTimeout (toString (now w1))
                                                   (next_promise w) |})] ->
              keeps_kinds w1 w2) as K2.
    { intros w2 H0 H1 H2 H3. unfold keeps_kinds, inner. rewrite H0, H1, H2, H3.
      split; [lia|]. split; [auto|]. split; [auto|]. split.
      - intros e He. destruct (JsMap_set_In _ _ _ _ He) as [H|H];
          [left; exact H|right; rewrite H; exact Hp].
      - intros t k p Ht Ha. apply in_app_or in Ht.
        destruct Ht as [Ht|[<-|[]]]; [left; exact Ht|right].
        cbn [snd action] in Ha. injection Ha as _ <-. exact Hp. }
    break_match; apply K2; reflexivity.
Qed.

Lemma keeps_kinds_processOne (w : World) q : keeps_kinds w (processOne w q).
Proof.
  rewrite processOne_eq.
  apply (keeps_kinds_trans w (set_reads (S (reads w)) w));
    [apply keeps_kinds_same; reflexivity|].
  destruct (expiredAt (clock (reads w)) q);
    [apply keeps_kinds_settle|apply keeps_kinds_sendMessageInternal].
Qed.

Lemma keeps_kinds_drain qs : forall (w : World),
  keeps_kinds w (fold_left processOne qs w).
Proof.
  induction qs as [|q qs IH]; intros w; cbn [fold_left];
    [apply keeps_kinds_refl|].
  exact (keeps_kinds_trans _ _ _ (keeps_kinds_processOne w q) (IH _)).
Qed.

Lemma keeps_kinds_clearTimer tid (w : World) : keeps_kinds w (clearTimer tid w).
Proof. apply keeps_kinds_same_promises, (clearTimer_same_promises _ 0%nat). Qed.

Lemma keeps_kinds_onopen (w : World) : keeps_kinds w (onopen w).
Proof.
  rewrite onopen_eq.
  apply (keeps_kinds_trans w (onopen_prefix w)).
  { unfold onopen_prefix.
    set (w0 := set_reconnectAttempts 0%nat _).
    apply (keeps_kinds_trans w w0); [apply keeps_kinds_same; reflexivity|].
    destruct (reconnectTimeoutRef w0) as [t|]; [|apply keeps_kinds_refl].
    apply (keeps_kinds_trans w0 (clearTimer t w0));
      [apply keeps_kinds_clearTimer|apply keeps_kinds_same; reflexivity]. }
  apply (keeps_kinds_trans _ (processMessageQueue (onopen_prefix w))).
  { unfold processMessageQueue.
    destruct (negb (currentIs OPEN (onopen_prefix w)));
      [apply keeps_kinds_refl|].
    apply (keeps_kinds_trans _ (set_messageQueueRef [] (onopen_prefix w)));
      [apply keeps_kinds_same; reflexivity|apply keeps_kinds_drain]. }
  apply keeps_kinds_same_promises, (startHeartbeat_same_promises _ 0%nat).
Qed.

Lemma keeps_kinds_deleted k (w : World) :
  keeps_kinds w (set_messageCallbacksRef
                   (JsMap.delete k (messageCallbacksRef w)) w).
Proof.
  apply keeps_kinds_shrink; try reflexivity.
  - intros e He. exact (JsMap_delete_In _ _ _ He).
  - intros t k0 p Ht _. exact Ht.
Qed.

Lemma keeps_kinds_onmessage m (w : World) : keeps_kinds w (onmessage m w).
Proof.
  unfold onmessage. destruct m as [|type data]; [apply keeps_kinds_refl|].
  destruct (String.eqb type "pong"); [apply keeps_kinds_refl|].
  destruct (String.eqb type "chat_response").
  - destruct data as [d|]; [|apply keeps_kinds_same; reflexivity].
    change (messageCallbacksRef (setLastMessage (Parsed type (Some d)) w))
      with (messageCallbacksRef w).
    destruct (JsMap.get (context_id d) (messageCallbacksRef w)) as [p|];
      [|apply keeps_kinds_same; reflexivity].
    apply (keeps_kinds_trans w (setLastMessage (Parsed type (Some d)) w));
      [apply keeps_kinds_same; reflexivity|].
    apply (keeps_kinds_trans _ (settle p (Fulfilled d)
                                  (setLastMessage (Parsed type (Some d)) w)));
      [apply keeps_kinds_settle|apply keeps_kinds_deleted].
  - repeat break_match; apply keeps_kinds_same; reflexivity.
Qed.

Lemma keeps_kinds_connectionLost_fold entries : forall (w : World),
  keeps_kinds w (fold_left connectionLost entries w).
Proof.
  induction entries as [|e entries IH]; intros w; cbn [fold_left];
    [apply keeps_kinds_refl|].
  refine (keeps_kinds_trans _ _ _ _ (IH _)).
  unfold connectionLost, Date_now. cbv beta iota.
  apply (keeps_kinds_trans w (set_reads (S (reads w)) w));
    [apply keeps_kinds_same; reflexivity|apply keeps_kinds_settle].
Qed.

Lemma keeps_kinds_onclose code (w : World) : keeps_kinds w (onclose code w).
Proof.
  unfold onclose.
  set (w0 := set_wsRef None _).
  set (w1 := stopHeartbeat w0).
  set (w2 := fold_left connectionLost (messageCallbacksRef w1) w1).
  assert (keeps_kinds w (set_messageCallbacksRef [] w2)) as K.
  { apply (keeps_kinds_trans w w0); [apply keeps_kinds_same; reflexivity|].
    apply (keeps_kinds_trans w0 w1);
      [apply keeps_kinds_same_promises, (stopHeartbeat_same_promises _ 0%nat)|].
    apply (keeps_kinds_trans w1 w2); [apply keeps_kinds_connectionLost_fold|].
    apply keeps_kinds_shrink; try reflexivity.
    - intros e [].
    - intros t k p Ht _. exact Ht. }
  refine (keeps_kinds_trans _ _ _ K _).
  repeat break_match.
  - apply keeps_kinds_same_promises, scheduleReconnect_same_promises.
  - apply keeps_kinds_same; reflexivity.
  - apply keeps_kinds_refl.
Qed.

Lemma keeps_kinds_requestTimeout k p (w : World) :
  keeps_kinds w (requestTimeout k p w).
Proof.
  unfold requestTimeout.
  destruct (JsMap.has k (messageCallbacksRef w)); [|apply keeps_kinds_refl].
  exact (keeps_kinds_trans _ _ _ (keeps_kinds_deleted k w) (keeps_kinds_settle _ _ _)).
Qed.

Lemma keeps_kinds_fire tid t (w : World) : keeps_kinds w (fire tid t w).
Proof.
  unfold fire. destruct (action t) as [k p| |] eqn:Ha.
  - exact (keeps_kinds_trans _ _ _ (keeps_kinds_clearTimer tid w)
             (keeps_kinds_requestTimeout _ _ _)).
  - apply (keeps_kinds_trans _ _ _ (keeps_kinds_clearTimer tid w)).
    unfold reconnectTimerFired.
    apply (keeps_kinds_trans _ (set_reconnectAttempts
                                  (S (reconnectAttempts (clearTimer tid w)))
                                  (clearTimer tid w)));
      [apply keeps_kinds_same; reflexivity|].
    apply keeps_kinds_same_promises, connect_same_promises.
  - set (w1 := set_timers _ w).
    apply (keeps_kinds_trans w w1).
    + apply keeps_kinds_shrink; try reflexivity; [auto|].
      intros t0 k p Ht Hk. subst w1. cbn [timers set_timers] in Ht.
      apply in_map_iff in Ht. destruct Ht as (e & He & Hin).
      destruct (Nat.eqb (fst e) tid).
      * subst t0. cbn [snd action] in Hk. discriminate.
      * subst t0. exact Hin.
    + apply keeps_kinds_same; unfold heartbeatTick, Date_now, ws_send;
        cbv beta iota zeta; repeat break_match; reflexivity.
Qed.

Lemma keeps_kinds_sendMessage req (w : World) :
  keeps_kinds w (snd (sendMessage req w)).
Proof.
  unfold sendMessage, newPromise. cbv beta iota.
  set (w1 := set_next_promise (S (next_promise w)) w).
  assert (keeps_kinds w w1) as K1.
  { split; [cbn; lia|]. split; [auto|]. split; [auto|].
    split; [intros; left; assumption|intros; left; assumption]. }
  apply (keeps_kinds_trans w w1 _ K1).
  destruct (currentIs OPEN w1); cbn [snd];
    [apply keeps_kinds_sendMessageInternal|apply keeps_kinds_sendMessageRoute].
Qed.

Lemma keeps_kinds_ws_close s (w : World) : keeps_kinds w (ws_close s w).
Proof. apply keeps_kinds_same_promises, ws_close_same_promises. Qed.

Lemma keeps_kinds_unmount (w : World) : keeps_kinds w (unmount w).
Proof.
  unfold unmount.
  set (w1 := match reconnectTimeoutRef w with Some _ => _ | None => _ end).
  assert (keeps_kinds w w1) as K1
      by (subst w1; destruct (reconnectTimeoutRef w);
          [apply keeps_kinds_clearTimer|apply keeps_kinds_refl]).
  apply (keeps_kinds_trans w w1 _ K1).
  apply (keeps_kinds_trans w1 (stopHeartbeat w1));
    [apply keeps_kinds_same_promises, (stopHeartbeat_same_promises _ 0%nat)|].
  destruct (wsRef (stopHeartbeat w1));
    [apply keeps_kinds_ws_close|apply keeps_kinds_refl].
Qed.

Lemma keeps_kinds_step e (w w' : World) :
  step e w = Some w' -> keeps_kinds w w'.
Proof.
  destruct e; cbn [step].
  - intros [= <-]. apply keeps_kinds_same_promises, connect_same_promises.
  - intros [= <-]. apply keeps_kinds_unmount.
  - destruct (readyStateOf s w) as [[]|]; try discriminate.
    intros [= <-].
    apply (keeps_kinds_trans w (setReadyState s OPEN w));
      [apply keeps_kinds_same; reflexivity|apply keeps_kinds_onopen].
  - destruct (readyStateOf s w) as [[]|]; try discriminate;
      intros [= <-]; apply keeps_kinds_onmessage.
  - destruct (readyStateOf s w) as [[]|]; try discriminate;
      intros [= <-]; apply keeps_kinds_same; reflexivity.
  - destruct (readyStateOf s w) as [[]|]; try discriminate;
      intros [= <-];
      (apply (keeps_kinds_trans w (setReadyState s CLOSED w));
       [apply keeps_kinds_same; reflexivity|apply keeps_kinds_onclose]).
  - destruct (findTimer tid (timers w)) as [t|]; [|discriminate].
    destruct (due t <=? now w); [|discriminate].
    intros [= <-]. apply keeps_kinds_fire.
  - intros [= <-]. apply keeps_kinds_sendMessage.
  - intros [= <-].
    apply keeps_kinds_same_promises, (reconnect_same_promises _ 0%nat).
  - destruct (awaitsHttp c w); [|discriminate].
    intros [= <-].
    refine (keeps_kinds_trans _ _ _ _ (keeps_kinds_settle _ _ _)).
    apply keeps_kinds_same; reflexivity.
  - intros [= <-]. apply keeps_kinds_same; reflexivity.
Qed.

Lemma keeps_kinds_run es : forall (w w' : World),
  run es w = Some w' -> keeps_kinds w w'.
Proof.
  induction es as [|e es IH]; intros w w'; cbn [run].
  - intros [= <-]. apply keeps_kinds_refl.
  - destruct (step e w) as [w1|] eqn:E; [|discriminate].
    intros H. exact (keeps_kinds_trans _ _ _ (keeps_kinds_step e w w1 E) (IH _ _ H)).
Qed.

Lemma adds_step c e (w w' : World) :
  inner_ok w -> step e w = Some w' ->
  adds c (match e with
          | CallSendMessage _ => if Nat.eqb (next_promise w) c then 1 else 0
          | _ => 0
          end) w w'.
Proof.
  intros I. destruct e; cbn [step].
  - intros [= <-].
    apply (adds_same_promises (fun _ => false)), connect_same_promises.
  - intros [= <-]. apply adds_unmount.
  - destruct (readyStateOf s w) as [[]|]; try discriminate.
    intros [= <-].
    apply (adds_none c w (setReadyState s OPEN w));
      [apply adds_same; reflexivity|apply adds_onopen].
  - destruct (readyStateOf s w) as [[]|]; try discriminate;
      intros [= <-]; apply adds_onmessage, I.
  - destruct (readyStateOf s w) as [[]|]; try discriminate;
      intros [= <-]; apply adds_same; reflexivity.
  - destruct (readyStateOf s w) as [[]|]; try discriminate;
      intros [= <-];
      (apply (adds_none c w (setReadyState s CLOSED w));
       [apply adds_same; reflexivity|apply adds_onclose; exact I]).
  - destruct (findTimer tid (timers w)) as [t|] eqn:Hf; [|discriminate].
    destruct (due t <=? now w); [|discriminate].
    intros [= <-]. apply adds_fire; assumption.
  - intros [= <-]. apply adds_sendMessage.
  - intros [= <-].
    apply (adds_same_promises (fun _ => false)),
          (reconnect_same_promises _ 0%nat).
  - destruct (awaitsHttp c0 w) eqn:Ha; [|discriminate].
    intros [= <-]. apply adds_httpDone, Ha.
  - intros [= <-]. apply adds_same; reflexivity.
Qed.

Lemma linear_step e (w w' : World) :
  wf w = true -> allocated w -> inner_ok w -> linear w ->
  step e w = Some w' -> linear w'.
Proof.
  intros W A I L Hstep c Hc.
  destruct (adds_step c e w w' I Hstep Hc) as [Hc0 H].
  specialize (L c Hc0).
  destruct e; try lia.
  destruct (Nat.eqb_spec (next_promise w) c) as [E|_]; [|lia].
  rewrite (unallocated_weight c w W A) in H; [exact H|].
  rewrite E. apply le_n.
Qed.

Lemma linear_run es : forall (w w' : World),
  wf w = true -> allocated w -> inner_ok w -> linear w ->
  run es w = Some w' -> linear w'.
Proof.
  induction es as [|e es IH]; intros w w' W A I L; cbn [run].
  - intros [= <-]. exact L.
  - destruct (step e w) as [w1|] eqn:E; [|discriminate].
    apply IH.
    + eapply step_wf; eauto.
    + eapply allocated_step; eauto.
    + exact (inner_ok_keeps w w1 I (keeps_kinds_step e w w1 E)).
    + eapply linear_step; eauto.
Qed.

Lemma reachable_linear (w : World) : reachable w -> linear w.
Proof.
  intros [es H]. apply (linear_run es init w); try exact H.
  - reflexivity.
  - repeat split. cbn. lia.
  - split; [intros e []|intros t k p []].
  - intros c _. cbv. lia.
Qed.

Lemma run_app es1 : forall es2 (w w1 w2 : World),
  run es1 w = Some w1 -> run es2 w1 = Some w2 -> run (es1 ++ es2) w = Some w2.
Proof.
  induction es1 as [|e es1 IH]; intros es2 w w1 w2; cbn [run app].
  - intros [= <-] H. exact H.
  - destruct (step e w) as [w0|]; [|discriminate]. apply IH.
Qed.

(** The promise [sendMessage] returns has no continuation registered on
    it. *)
Lemma sendMessage_returns_caller req (w : World) :
  wf w = true ->
  caller_ok (fst (sendMessage req w)) (snd (sendMessage req w)) = true.
Proof.
  intros W.
  assert (reactionOf (next_promise w) (reactions w) = None) as Hc.
  { apply reactionOf_fresh. intros e He.
    pose proof (wf_reactions_ok w W) as R. unfold reactions_ok in R.
    rewrite forallb_forall in R. specialize (R e He).
    apply andb_true_iff in R. destruct R as [R _]. apply Nat.ltb_lt in R.
    exact R. }
  unfold sendMessage, newPromise. cbv beta iota.
  set (w1 := set_next_promise (S (next_promise w)) w).
  assert (forall w2 : World, keeps_kinds w1 w2 ->
                             caller_ok (next_promise w) w2 = true) as K.
  { intros w2 (K0 & K1 & _). apply caller_ok_spec.
    assert (next_promise w < next_promise w1)%nat as Hlt by (cbn; lia).
    split; [lia|]. apply K1; [exact Hlt|exact Hc]. }
  destruct (currentIs OPEN w1); cbn [fst snd]; apply K;
    [apply keeps_kinds_sendMessageInternal|apply keeps_kinds_sendMessageRoute].
Qed.

(** X12.  The promise [sendMessage] returns is settled at most once.  At any
    later moment its [resolve] and [reject] are held in at most one place
    (an entry of the queue, an HTTP call in flight, or the continuation
    of a duplex send that has not been settled), and once one of them
    has been called they are held nowhere. *)
Theorem sendMessage_promise_settled_at_most_once req es (w w' : World) :
  reachable w ->
  run es (snd (sendMessage req w)) = Some w' ->
  let c := fst (sendMessage req w) in
  (holders c w' + List.length (callsOf c w') <= 1)%nat.
Proof.
  intros [es0 H0] Hrun. cbn zeta.
  assert (reachable w) as Hw by (exists es0; exact H0).
  assert (reachable w') as Hw'.
  { exists (es0 ++ CallSendMessage req :: es).
    apply (run_app es0 _ init w w' H0). cbn [run step]. exact Hrun. }
  pose proof (sendMessage_returns_caller req w (reachable_wf w Hw)) as Hc.
  apply caller_ok_spec in Hc. destruct Hc as [Hlt Hc].
  destruct (keeps_kinds_run es _ w' Hrun) as (_ & K1 & _).
  exact (reachable_linear w' Hw' _ (K1 _ Hlt Hc)).
Qed.


(** *** Unmounting *)

Lemma reachable_timers_ok (w : World) : reachable w -> timers_ok w.
Proof.
  intros [es H]. apply (timers_ok_run es init w); [|exact H].
  repeat split; [intros t []|constructor|intros t []].
Qed.

Lemma ws_close_spec s r (w : World) :
  readyStateOf s w = Some r ->
  readyStateOf s (ws_close s w)
  = Some match r with
         | CONNECTING | OPEN => CLOSING
         | _ => r
         end.
Proof.
  intros Hr. unfold ws_close. rewrite Hr.
  destruct r; try exact Hr;
    unfold readyStateOf, setReadyState; cbn [sockets set_sockets];
    eapply update_nth_same; exact Hr.
Qed.

Lemma findTimer_filter_none tid (f : nat * Timer -> bool) ts :
  findTimer tid ts = None -> findTimer tid (filter f ts) = None.
Proof.
  induction ts as [|[tid' t] ts IH]; cbn; [reflexivity|].
  destruct (Nat.eqb tid tid') eqn:E; [discriminate|].
  intros H. destruct (f (tid', t)); cbn; [rewrite E|]; apply IH, H.
Qed.

(** X13.  The cleanup of the mounting effect, in any reachable state: no
    heartbeat interval is left, the reconnect timer the provider knows
    of is cancelled and no timer is added, and the current socket, if
    connecting or open, is closing.  No promise is settled and nothing is
    sent; the table and the queue stay as they are: unmounting does not
    cancel the requests in flight. *)
Theorem unmount_stops_heartbeat_and_closes (w : World) :
  reachable w ->
  let w' := unmount w in
  (forall t, In t (timers w') -> isHeartbeat t = false /\ In t (timers w))
  /\ (forall tid, reconnectTimeoutRef w = Some tid ->
                  findTimer tid (timers w') = None)
  /\ (forall s r, wsRef w = Some s -> readyStateOf s w = Some r ->
                  readyStateOf s w'
                  = Some match r with
                         | CONNECTING | OPEN => CLOSING
                         | _ => r
                         end)
  /\ settle_log w' = settle_log w
  /\ messageCallbacksRef w' = messageCallbacksRef w
  /\ messageQueueRef w' = messageQueueRef w
  /\ http_calls w' = http_calls w
  /\ wire w' = wire w.
Proof.
  intros Hr. cbn zeta. pose proof (reachable_timers_ok w Hr) as T.
  unfold unmount.
  set (w1 := match reconnectTimeoutRef w with Some _ => _ | None => _ end).
  assert (timers_ok w1) as T1
      by (subst w1; destruct (reconnectTimeoutRef w);
          [apply timers_ok_clearTimer|]; exact T).
  assert ((forall t, In t (timers w1) -> In t (timers w))
          /\ (forall tid, reconnectTimeoutRef w = Some tid ->
                          findTimer tid (timers w1) = None)
          /\ sockets w1 = sockets w /\ wsRef w1 = wsRef w
          /\ settle_log w1 = settle_log w
          /\ messageCallbacksRef w1 = messageCallbacksRef w
          /\ messageQueueRef w1 = messageQueueRef w
          /\ http_calls w1 = http_calls w /\ wire w1 = wire w)
    as (S1 & F1 & K1 & W1 & L1 & M1 & Q1 & H1 & X1).
  { subst w1. destruct (reconnectTimeoutRef w) as [t0|].
    - split; [intros t Ht; cbn in Ht; apply filter_In in Ht; apply Ht|].
      split; [intros tid [= <-]; apply findTimer_cleared|].
      repeat split.
    - split; [auto|]. split; [intros tid [=]|]. repeat split. }
  pose proof (no_heartbeat_after_clear w1 T1) as N.
  set (w2 := stopHeartbeat w1).
  assert ((forall t, In t (timers w2) -> isHeartbeat t = false /\ In t (timers w1))
          /\ (forall tid, findTimer tid (timers w1) = None ->
                          findTimer tid (timers w2) = None)
          /\ sockets w2 = sockets w1 /\ wsRef w2 = wsRef w1
          /\ settle_log w2 = settle_log w1
          /\ messageCallbacksRef w2 = messageCallbacksRef w1
          /\ messageQueueRef w2 = messageQueueRef w1
          /\ http_calls w2 = http_calls w1 /\ wire w2 = wire w1)
    as (S2 & F2 & K2 & W2 & L2 & M2 & Q2 & H2 & X2).
  { subst w2. unfold stopHeartbeat.
    destruct (heartbeatTimeoutRef w1) as [h|].
    - split.
      + intros t Ht. split; [apply N, Ht|].
        cbn in Ht. apply filter_In in Ht. apply Ht.
      + split; [intros tid Hf; cbn; apply findTimer_filter_none, Hf|].
        repeat split.
    - split; [intros t Ht; split; [apply N, Ht|exact Ht]|].
      split; [auto|]. repeat split. }
  assert (forall w3 : World,
            timers w3 = timers w2 -> settle_log w3 = settle_log w2 ->
            messageCallbacksRef w3 = messageCallbacksRef w2 ->
            messageQueueRef w3 = messageQueueRef w2 ->
            http_calls w3 = http_calls w2 -> wire w3 = wire w2 ->
            (forall s r, wsRef w = Some s -> readyStateOf s w = Some r ->
                         readyStateOf s w3
                         = Some match r with
                                | CONNECTING | OPEN => CLOSING
                                | _ => r
                                end) ->
            (forall t, In t (timers w3) -> isHeartbeat t = false /\ In t (timers w))
            /\ (forall tid, reconnectTimeoutRef w = Some tid ->
                            findTimer tid (timers w3) = None)
            /\ (forall s r, wsRef w = Some s -> readyStateOf s w = Some r ->
                            readyStateOf s w3
                            = Some match r with
                                   | CONNECTING | OPEN => CLOSING
                                   | _ => r
                                   end)
            /\ settle_log w3 = settle_log w
            /\ messageCallbacksRef w3 = messageCallbacksRef w
            /\ messageQueueRef w3 = messageQueueRef w
            /\ http_calls w3 = http_calls w
            /\ wire w3 = wire w) as Hfin.
  { intros w3 E1 E2 E3 E4 E5 E6 E7. rewrite E1, E2, E3, E4, E5, E6.
    split; [intros t Ht; destruct (S2 t Ht) as [Hb Hin];
            split; [exact Hb|apply S1, Hin]|].
    split; [intros tid Ht; apply F2, F1, Ht|].
    split; [exact E7|]. repeat split; congruence. }
  assert (forall s, readyStateOf s w2 = readyStateOf s w) as Hrs
      by (intros s; unfold readyStateOf; rewrite K2, K1; reflexivity).
  rewrite W2, W1.
  destruct (wsRef w) as [s|] eqn:Hs.
  - apply Hfin;
      try (unfold ws_close, setReadyState; repeat break_match; reflexivity).
    intros s0 r [= <-] Hr0. apply ws_close_spec. rewrite Hrs. exact Hr0.
  - apply Hfin; try reflexivity. intros s0 r [=].
Qed.


(** *** The answer to an HTTP call *)

Lemma keeps_kinds_caller c (w w' : World) :
  keeps_kinds w w' -> caller_ok c w = true -> caller_ok c w' = true.
Proof.
  intros (K0 & K1 & _). rewrite !caller_ok_spec. intros [Hlt Hc].
  split; [lia|apply K1; assumption].
Qed.

(** Nothing new among the HTTP calls. *)
Lemma http_ok_kept (w w' : World) :
  keeps_kinds w w' ->
  (forall e, In e (http_calls w') -> In e (http_calls w)) ->
  http_ok w -> http_ok w'.
Proof.
  intros K Hsub H e He. apply (keeps_kinds_caller _ w w' K), H, Hsub, He.
Qed.

Lemma http_ok_same_promises (w w' : World) :
  same_promises (fun _ => true) w w' -> http_ok w -> http_ok w'.
Proof.
  intros S. apply http_ok_kept; [apply keeps_kinds_same_promises, S|].
  destruct S as (_ & _ & _ & S4 & _). rewrite S4. auto.
Qed.

Lemma http_ok_sendMessageRoute req c cs (w : World) :
  caller_ok c w = true -> http_ok w -> http_ok (sendMessageRoute req c cs w).
Proof.
  intros Hc H.
  assert (forall w0 : World, http_ok w0 -> http_ok (enqueue req c w0)) as E
      by (intros w0; apply http_ok_kept;
          [apply keeps_kinds_same; reflexivity|auto]).
  unfold sendMessageRoute. destruct cs.
  - apply E, H.
  - intros e He. unfold sendHttpMessage in He. cbn [http_calls set_http_calls] in He.
    apply in_app_or in He. destruct He as [He|[<-|[]]].
    + exact (H e He).
    + exact Hc.
  - apply E, (http_ok_same_promises w), H. apply (reconnect_same_promises _ 0%nat).
  - apply E, (http_ok_same_promises w), H. apply (reconnect_same_promises _ 0%nat).
Qed.

Lemma http_ok_settle p o (w : World) :
  reactions_ok w = true -> http_ok w -> http_ok (settle p o w).
Proof.
  intros R H. unfold settle.
  assert (forall x (w0 : World), http_ok w0 -> http_ok (logSettle x o w0)) as L
      by (intros x w0; apply http_ok_kept;
          [apply keeps_kinds_same; reflexivity|auto]).
  destruct (negb (settled p w)); [|apply L, H].
  change (reactions (logSettle p o w)) with (reactions w).
  destruct (reactionOf p (reactions w)) as [[c | c req cs] |] eqn:E.
  - apply L, L, H.
  - destruct o as [v|msg]; [apply L, L, H|].
    apply http_ok_sendMessageRoute; [|apply L, H].
    exact (reactions_ok_caller p (Await c req cs) w R E).
  - apply L, H.
Qed.

Lemma http_ok_sendMessageInternal req r (w : World) :
  wf w = true -> caller_ok (callerOf r) w = true ->
  http_ok w -> http_ok (snd (sendMessageInternal req r w)).
Proof.
  intros W C H.
  pose proof (keeps_kinds_sendMessageInternal req r w) as K.
  unfold sendMessageInternal, newPromise in *. cbv beta iota in *.
  set (w1 := set_reactions _ _) in *.
  assert (ok_step w w1) as S1
      by (apply (registered_ok w w1 r); auto; reflexivity).
  assert (http_ok w1) as H1.
  { intros e He. apply (proj2 (proj2 S1)). exact (H e He). }
  destruct (negb (currentIs OPEN w1)); cbn [snd] in *.
  - apply http_ok_settle; [apply wf_reactions_ok, S1, W|exact H1].
  - revert H. apply http_ok_kept; [exact K|].
    unfold Date_now, setTimer, ws_send. cbv beta iota zeta.
    break_match; auto.
Qed.

Lemma http_ok_processOne (w : World) q :
  wf w = true -> caller_ok (q_caller q) w = true ->
  http_ok w -> http_ok (processOne w q).
Proof.
  intros W C H. rewrite processOne_eq.
  set (w1 := set_reads (S (reads w)) w).
  assert (ok_step w w1) as S1 by (apply same_core_ok; repeat split).
  assert (http_ok w1) as H1 by exact H.
  destruct (expiredAt (clock (reads w)) q).
  - apply http_ok_settle; [apply wf_reactions_ok, S1, W|exact H1].
  - apply http_ok_sendMessageInternal; [apply S1, W|exact C|exact H1].
Qed.

Lemma http_ok_drain qs : forall (w : World),
  wf w = true ->
  forallb (fun q => caller_ok (q_caller q) w) qs = true ->
  http_ok w -> http_ok (fold_left processOne qs w).
Proof.
  induction qs as [|q qs IH]; intros w W Hq H; cbn [fold_left]; [exact H|].
  cbn [forallb] in Hq. apply andb_true_iff in Hq. destruct Hq as [Hq Hqs].
  pose proof (processOne_ok w q W Hq) as S1.
  apply IH.
  - apply S1, W.
  - eapply extends_forallb; [apply S1|exact Hqs].
  - apply http_ok_processOne; assumption.
Qed.

Lemma http_ok_processMessageQueue (w : World) :
  wf w = true -> http_ok w -> http_ok (processMessageQueue w).
Proof.
  intros W H. unfold processMessageQueue.
  destruct (negb (currentIs OPEN w)); [exact H|].
  apply http_ok_drain;
    [apply emptied_queue_wf, W|exact (wf_queue_ok w W)|exact H].
Qed.

Lemma onopen_prefix_wf (w : World) : wf w = true -> wf (onopen_prefix w) = true.
Proof.
  intros W. apply (same_core_ok w); [|exact W].
  pose proof (onopen_prefix_frame w) as P. cbn zeta in P.
  unfold same_core. repeat split; try apply P.
  unfold onopen_prefix. cbn. destruct (reconnectTimeoutRef w); reflexivity.
Qed.

Lemma http_ok_onopen (w : World) : wf w = true -> http_ok w -> http_ok (onopen w).
Proof.
  intros W H. rewrite onopen_eq.
  apply (http_ok_same_promises (processMessageQueue (onopen_prefix w)));
    [apply (startHeartbeat_same_promises _ 0%nat)|].
  apply http_ok_processMessageQueue; [apply onopen_prefix_wf, W|].
  revert H. apply http_ok_kept.
  - pose proof (keeps_kinds_onopen w) as K. rewrite onopen_eq in K.
    unfold onopen_prefix.
    set (w0 := set_reconnectAttempts 0%nat _).
    apply (keeps_kinds_trans w w0); [apply keeps_kinds_same; reflexivity|].
    destruct (reconnectTimeoutRef w0) as [t|]; [|apply keeps_kinds_refl].
    apply (keeps_kinds_trans w0 (clearTimer t w0));
      [apply keeps_kinds_clearTimer|apply keeps_kinds_same; reflexivity].
  - unfold onopen_prefix. cbn. destruct (reconnectTimeoutRef w); auto.
Qed.

Lemma http_ok_onmessage m (w : World) :
  wf w = true -> http_ok w -> http_ok (onmessage m w).
Proof.
  intros W H. unfold onmessage. destruct m as [|type data]; [exact H|].
  destruct (String.eqb type "pong"); [exact H|].
  destruct (String.eqb type "chat_response").
  - destruct data as [d|]; [|exact H].
    change (messageCallbacksRef (setLastMessage (Parsed type (Some d)) w))
      with (messageCallbacksRef w).
    destruct (JsMap.get (context_id d) (messageCallbacksRef w)) as [p|];
      [|exact H].
    assert (http_ok (settle p (Fulfilled d)
                       (setLastMessage (Parsed type (Some d)) w))) as H1
        by (apply http_ok_settle; [apply wf_reactions_ok, W|exact H]).
    exact H1.
  - repeat break_match; exact H.
Qed.

Lemma http_ok_connectionLost_fold entries : forall (w : World),
  wf w = true -> http_ok w -> http_ok (fold_left connectionLost entries w).
Proof.
  induction entries as [|e entries IH]; intros w W H; cbn [fold_left];
    [exact H|].
  assert (wf (set_reads (S (reads w)) w) = true) as W1 by exact W.
  apply IH.
  - unfold connectionLost, Date_now. cbv beta iota. apply settle_wf, W1.
  - unfold connectionLost, Date_now. cbv beta iota.
    apply http_ok_settle; [apply wf_reactions_ok, W1|exact H].
Qed.

Lemma http_ok_onclose code (w : World) :
  wf w = true -> http_ok w -> http_ok (onclose code w).
Proof.
  intros W H. unfold onclose.
  set (w0 := set_wsRef None _).
  set (w1 := stopHeartbeat w0).
  assert (wf w1 = true) as W1.
  { apply (same_core_ok w0); [apply stopHeartbeat_core|exact W]. }
  assert (http_ok w1) as H1
      by (apply (http_ok_same_promises w0);
          [apply (stopHeartbeat_same_promises _ 0%nat)|exact H]).
  pose proof (http_ok_connectionLost_fold (messageCallbacksRef w1) w1 W1 H1)
    as H2.
  set (w2 := fold_left connectionLost (messageCallbacksRef w1) w1) in *.
  assert (http_ok (set_messageCallbacksRef [] w2)) as H3 by exact H2.
  repeat break_match.
  - apply (http_ok_same_promises (set_messageCallbacksRef [] w2));
      [apply scheduleReconnect_same_promises|exact H3].
  - exact H3.
  - exact H3.
Qed.

Lemma http_ok_fire tid t (w : World) :
  wf w = true -> http_ok w -> http_ok (fire tid t w).
Proof.
  intros W H. unfold fire.
  assert (http_ok (clearTimer tid w)) as H1 by exact H.
  assert (wf (clearTimer tid w) = true) as W1 by exact W.
  destruct (action t) as [k p| |].
  - unfold requestTimeout.
    destruct (JsMap.has k (messageCallbacksRef (clearTimer tid w)));
      [|exact H1].
    apply http_ok_settle; [|exact H1].
    apply wf_reactions_ok. apply (deleted_entry_wf k _ W1).
  - unfold reconnectTimerFired.
    apply (http_ok_same_promises
             (set_reconnectAttempts (S (reconnectAttempts (clearTimer tid w)))
                                    (clearTimer tid w)));
      [apply connect_same_promises|exact H1].
  - set (w1 := set_timers _ w).
    assert (http_ok w1) as H2 by exact H.
    revert H2. apply http_ok_kept.
    + apply keeps_kinds_same; unfold heartbeatTick, Date_now, ws_send;
        cbv beta iota zeta; repeat break_match; reflexivity.
    + unfold heartbeatTick, Date_now, ws_send; cbv beta iota zeta;
        repeat break_match; auto.
Qed.

Lemma http_ok_sendMessage req (w : World) :
  wf w = true -> http_ok w -> http_ok (snd (sendMessage req w)).
Proof.
  intros W H.
  pose proof (sendMessage_returns_caller req w W) as C.
  pose proof (sendMessage_wf req w W) as W'.
  unfold sendMessage, newPromise in *. cbv beta iota in *.
  set (w1 := set_next_promise (S (next_promise w)) w) in *.
  assert (wf w1 = true /\ caller_ok (next_promise w) w1 = true
          /\ http_ok w1) as (W1 & C1 & H1).
  { assert (forall c, caller_ok c w = true -> caller_ok c w1 = true) as E.
    { intros c. rewrite !caller_ok_spec. cbn. intros [? ?]. split; [lia|auto]. }
    apply wf_spec in W. destruct W as (Q & R & U). split; [|split].
    - apply wf_spec. repeat split.
      + unfold queue_ok in *. rewrite forallb_forall in *.
        intros q Hin. apply E, Q, Hin.
      + unfold reactions_ok in *. rewrite forallb_forall in *.
        intros e Hin. specialize (R e Hin). apply andb_true_iff in R.
        destruct R as [R1 R2]. apply Nat.ltb_lt in R1.
        apply andb_true_iff. split; [apply Nat.ltb_lt; cbn; lia|apply E, R2].
      + exact U.
    - apply caller_ok_spec. cbn. split; [lia|].
      apply reactionOf_fresh. unfold reactions_ok in R.
      rewrite forallb_forall in R. intros e Hin. specialize (R e Hin).
      apply andb_true_iff in R. destruct R as [R1 _].
      apply Nat.ltb_lt in R1. exact R1.
    - intros e He. apply E. exact (H e He). }
  destruct (currentIs OPEN w1); cbn [snd fst] in *.
  - apply http_ok_sendMessageInternal; assumption.
  - apply http_ok_sendMessageRoute; assumption.
Qed.

Lemma http_ok_step e (w w' : World) :
  wf w = true -> http_ok w -> step e w = Some w' -> http_ok w'.
Proof.
  intros W H. destruct e; cbn [step].
  - intros [= <-]. apply (http_ok_same_promises w); [|exact H].
    apply connect_same_promises.
  - intros [= <-]. revert H. apply http_ok_kept; [apply keeps_kinds_unmount|].
    unfold unmount, stopHeartbeat, ws_close, setReadyState, clearTimer.
    repeat break_match; auto.
  - destruct (readyStateOf s w) as [[]|]; try discriminate.
    intros [= <-]. apply http_ok_onopen; [exact W|exact H].
  - destruct (readyStateOf s w) as [[]|]; try discriminate;
      intros [= <-]; apply http_ok_onmessage; assumption.
  - destruct (readyStateOf s w) as [[]|]; try discriminate;
      intros [= <-]; exact H.
  - destruct (readyStateOf s w) as [[]|]; try discriminate;
      intros [= <-]; (apply http_ok_onclose; [exact W|exact H]).
  - destruct (findTimer tid (timers w)) as [t|]; [|discriminate].
    destruct (due t <=? now w); [|discriminate].
    intros [= <-]. apply http_ok_fire; assumption.
  - intros [= <-]. apply http_ok_sendMessage; assumption.
  - intros [= <-]. apply (http_ok_same_promises w); [|exact H].
    apply (reconnect_same_promises _ 0%nat).
  - destruct (awaitsHttp c w); [|discriminate].
    intros [= <-]. apply http_ok_settle; [apply wf_reactions_ok, W|].
    intros e He. cbn [http_calls set_http_calls] in He.
    apply filter_In in He. exact (H e (proj1 He)).
  - intros [= <-]. exact H.
Qed.

Lemma http_ok_run es : forall (w w' : World),
  wf w = true -> http_ok w -> run es w = Some w' -> http_ok w'.
Proof.
  induction es as [|e es IH]; intros w w' W H; cbn [run].
  - intros [= <-]. exact H.
  - destruct (step e w) as [w1|] eqn:E; [|discriminate].
    apply IH; [eapply step_wf; eauto|eapply http_ok_step; eauto].
Qed.

Lemma reachable_http_ok (w : World) : reachable w -> http_ok w.
Proof.
  intros [es H]. apply (http_ok_run es init w); [reflexivity| |exact H].
  intros e [].
Qed.

Lemma count_pos {A} (f : A -> bool) (l : list A) x :
  In x l -> f x = true -> (1 <= List.length (filter f l))%nat.
Proof.
  intros Hin Hf.
  assert (In x (filter f l)) as H by (apply filter_In; split; assumption).
  destruct (filter f l); [contradiction|cbn; lia].
Qed.

(** An HTTP call in flight holds the caller's promise. *)
Lemma awaitsHttp_held c (w : World) :
  awaitsHttp c w = true -> (1 <= holders c w)%nat.
Proof.
  intros Ha. unfold awaitsHttp in Ha. apply existsb_exists in Ha.
  destruct Ha as (e & He & Hec). unfold holders.
  match goal with
  | |- (1 <= ?a + ?b + ?d)%nat => assert (1 <= b)%nat as Hb; [|lia]
  end.
  exact (count_pos _ _ e He Hec).
Qed.

(** X14.  When the answer to an HTTP call arrives, in any reachable state, the
    promise of the caller who was waiting for it has not been settled
    before; it is settled with that answer, by this one call, the HTTP
    call is no longer in flight, and nothing holds the promise's
    [resolve] and [reject] any more. *)
Theorem http_answer_settles_the_caller c o (w w' : World) :
  reachable w ->
  step (HttpDone c o) w = Some w' ->
  callsOf c w = []
  /\ callsOf c w' = [o]
  /\ stateOf c w' = Some o
  /\ awaitsHttp c w' = false
  /\ holders c w' = 0%nat.
Proof.
  intros Hr Hstep.
  assert (reachable w') as Hr'.
  { destruct Hr as [es H]. exists (es ++ [HttpDone c o]).
    apply (run_app es _ init w w' H). cbn [run]. rewrite Hstep. reflexivity. }
  cbn [step] in Hstep. destruct (awaitsHttp c w) eqn:Ha; [|discriminate].
  injection Hstep as <-.
  set (w0 := set_http_calls _ w) in *.
  assert (caller_ok c w = true) as Hc.
  { unfold awaitsHttp in Ha. apply existsb_exists in Ha.
    destruct Ha as (e & He & Hec). apply Nat.eqb_eq in Hec. subst c.
    exact (reachable_http_ok w Hr e He). }
  assert (caller_ok c w0 = true) as Hc0 by exact Hc.
  pose proof (proj2 (proj1 (caller_ok_spec c w) Hc)) as Hn.
  assert (callsOf c w = []) as Hcalls.
  { pose proof (reachable_linear w Hr c Hn) as L. unfold weight in L.
    pose proof (awaitsHttp_held c w Ha) as Hh.
    destruct (callsOf c w) as [|x l]; [reflexivity|].
    cbn [List.length] in L. exfalso. lia. }
  rewrite (settle_caller c o w0 Hc0) in *.
  assert (callsOf c (logSettle c o w0) = [o]) as Hcalls'.
  { rewrite callsOf_logSettle, Nat.eqb_refl.
    change (callsOf c w0) with (callsOf c w). rewrite Hcalls. reflexivity. }
  split; [exact Hcalls|]. split; [exact Hcalls'|].
  split; [unfold stateOf; rewrite Hcalls'; reflexivity|]. split.
  - unfold awaitsHttp, logSettle. subst w0.
    cbn [http_calls set_http_calls set_settle_log].
    destruct (existsb _ _) eqn:E; [|reflexivity].
    apply existsb_exists in E. destruct E as (e & He & Hec).
    apply filter_In in He. destruct He as [_ He].
    rewrite Hec in He. discriminate.
  - assert (reactionOf c (reactions (logSettle c o w0)) = None) as Hn' by exact Hn.
    pose proof (reachable_linear _ Hr' c Hn') as L. unfold weight in L.
    rewrite Hcalls' in L. cbn [List.length] in L. lia.
Qed.


(** *** A response reaches the caller who is waiting for it *)

Lemma same_promises_any dead (w w' : World) :
  same_promises (fun _ => true) w w' -> same_promises dead w w'.
Proof.
  intros (H1 & H2 & H3 & H4 & H5 & H6 & H7). repeat split; try assumption.
  intros t Ht. destruct (H7 t Ht) as [H|H]; [left; exact H|right].
  unfold timerAvoids in *. destruct (action (snd t)); [discriminate|auto|auto].
Qed.

Lemma table_ok_same (w w' : World) :
  settle_log w' = settle_log w ->
  messageCallbacksRef w' = messageCallbacksRef w ->
  (forall t k p, In t (timers w') -> action (snd t) = RequestTimeout k p ->
                 In t (timers w)) ->
  table_ok w -> table_ok w'.
Proof.
  intros H1 H2 H3 (T1 & T2 & T3). unfold table_ok, settled. rewrite H1, H2.
  split; [exact T1|]. split; [exact T2|].
  intros e t k He Ht Ha. exact (T3 e t k He (H3 t k _ Ht Ha) Ha).
Qed.

Lemma table_ok_same_promises (w w' : World) :
  same_promises (fun _ => true) w w' -> table_ok w -> table_ok w'.
Proof.
  intros (H1 & H2 & _ & _ & _ & _ & H7). apply table_ok_same; try assumption.
  intros t k p Ht Ha. destruct (H7 t Ht) as [H|H]; [exact H|].
  unfold timerAvoids in H. rewrite Ha in H. discriminate.
Qed.

Lemma sound_same_promises (w w' : World) :
  same_promises (fun _ => true) w w' -> sound w -> sound w'.
Proof.
  intros S (W & A & I & T).
  pose proof S as (_ & S2 & S3 & _ & S5 & S6 & _).
  split; [|split; [|split]].
  - apply (same_core_ok w); [|exact W]. repeat split; assumption.
  - unfold allocated. rewrite S6.
    exact (quiet_same_promises _ _ w w' (same_promises_any _ w w' S) A).
  - exact (inner_ok_keeps w w' I (keeps_kinds_same_promises w w' S)).
  - exact (table_ok_same_promises w w' S T).
Qed.

Lemma table_ok_logSettle x o (w : World) :
  (forall e, In e (messageCallbacksRef w) -> snd e <> x) ->
  table_ok w -> table_ok (logSettle x o w).
Proof.
  intros Hx (T1 & T2 & T3). split; [exact T1|]. split; [|exact T3].
  intros e He. rewrite settled_logSettle.
  change (messageCallbacksRef (logSettle x o w)) with (messageCallbacksRef w) in He.
  rewrite (T2 e He). cbn [orb]. apply Nat.eqb_neq. intros E.
  apply (Hx e He). symmetry. exact E.
Qed.

Lemma table_ok_sendMessageRoute req c cs (w : World) :
  table_ok w -> table_ok (sendMessageRoute req c cs w).
Proof.
  intros T.
  assert (forall w0 : World, table_ok w0 -> table_ok (enqueue req c w0)) as E
      by (intros w0; apply table_ok_same; [reflexivity|reflexivity|auto]).
  unfold sendMessageRoute. destruct cs.
  - apply E, T.
  - revert T. apply table_ok_same; [reflexivity|reflexivity|auto].
  - apply E, (table_ok_same_promises w), T. apply (reconnect_same_promises _ 0%nat).
  - apply E, (table_ok_same_promises w), T. apply (reconnect_same_promises _ 0%nat).
Qed.

(** A promise without a continuation is not in the table. *)
Lemma not_in_table c (w : World) :
  inner_ok w -> reactionOf c (reactions w) = None ->
  forall e, In e (messageCallbacksRef w) -> snd e <> c.
Proof.
  intros [I1 _] Hc e He E. specialize (I1 e He). unfold inner in I1.
  rewrite E, Hc in I1. discriminate.
Qed.

Lemma table_ok_settle x o (w : World) :
  reactions_ok w = true -> inner_ok w ->
  (forall e, In e (messageCallbacksRef w) -> snd e <> x) ->
  table_ok w -> table_ok (settle x o w).
Proof.
  intros R I Hx T. unfold settle.
  pose proof (table_ok_logSettle x o w Hx T) as T1.
  destruct (negb (settled x w)); [|exact T1].
  change (reactions (logSettle x o w)) with (reactions w).
  destruct (reactionOf x (reactions w)) as [r|] eqn:E; [|exact T1].
  assert (forall e, In e (messageCallbacksRef w) -> snd e <> callerOf r) as Hc.
  { apply (not_in_table _ w I).
    pose proof (reactions_ok_caller x r w R E) as C.
    apply caller_ok_spec in C. apply C. }
  destruct r as [c | c req cs]; cbn [callerOf] in Hc.
  - exact (table_ok_logSettle c o (logSettle x o w) Hc T1).
  - destruct o as [v|msg];
      [exact (table_ok_logSettle c (Fulfilled v) (logSettle x (Fulfilled v) w) Hc T1)|].
    apply table_ok_sendMessageRoute. exact T1.
Qed.

Lemma JsMap_set_In_new {V} k (v : V) m e :
  In e (JsMap.set k v m) -> In e m \/ e = (k, v).
Proof.
  induction m as [|[k0 v0] m IH]; cbn.
  - intros [<-|[]]. right. reflexivity.
  - destruct (String.eqb_spec k k0) as [->|_]; cbn.
    + intros [<-|H]; [right; reflexivity|left; right; exact H].
    + intros [<-|H]; [left; left; reflexivity|].
      destruct (IH H) as [H'|H']; [left; right; exact H'|right; exact H'].
Qed.

Lemma JsMap_set_values {V} k (v : V) m :
  NoDup (map snd m) -> ~ In v (map snd m) -> NoDup (map snd (JsMap.set k v m)).
Proof.
  induction m as [|[k0 v0] m IH]; cbn; intros Hd Hn.
  - constructor; [intros []|constructor].
  - inversion Hd as [|? ? Hn0 Hd0]; subst. destruct (String.eqb k k0); cbn.
    + constructor; [|exact Hd0]. intros H. apply Hn. right. exact H.
    + constructor.
      * intros H. apply in_map_iff in H. destruct H as (e & He & Hin).
        destruct (JsMap_set_In_new _ _ _ _ Hin) as [H'|H'].
        -- apply Hn0. apply in_map_iff. exists e. split; assumption.
        -- subst e. cbn in He. apply Hn. left. symmetry. exact He.
      * apply IH; [exact Hd0|]. intros H. apply Hn. right. exact H.
Qed.

Lemma JsMap_delete_values {V} k (m : list (string * V)) :
  NoDup (map snd m) -> NoDup (map snd (JsMap.delete k m)).
Proof.
  induction m as [|[k0 v0] m IH]; cbn; intros Hd; [constructor|].
  inversion Hd as [|? ? Hn0 Hd0]; subst.
  destruct (String.eqb k k0); cbn; [exact Hd0|].
  constructor; [|apply IH, Hd0]. intros H. apply Hn0.
  apply in_map_iff in H. destruct H as (e & He & Hin).
  apply in_map_iff. exists e. split; [exact He|].
  exact (JsMap_delete_In _ _ _ Hin).
Qed.

Lemma JsMap_In_has {V} (m : list (string * V)) e :
  In e m -> JsMap.has (fst e) m = true.
Proof.
  unfold JsMap.has. induction m as [|[k0 v0] m IH]; cbn; [contradiction|].
  intros [<-|H].
  - cbn. rewrite String.eqb_refl. reflexivity.
  - destruct (String.eqb (fst e) k0); [reflexivity|apply IH, H].
Qed.

Lemma JsMap_delete_key {V} k (m : list (string * V)) e :
  JsMap.uniqueKeys m = true -> In e (JsMap.delete k m) -> fst e <> k.
Proof.
  intros U He E. pose proof (JsMap_In_has _ _ He) as H.
  rewrite E, (JsMap_has_delete_same k m U) in H. discriminate.
Qed.

Lemma JsMap_delete_got {V} k (v : V) m :
  NoDup (map snd m) -> JsMap.get k m = Some v ->
  forall e, In e (JsMap.delete k m) -> snd e <> v.
Proof.
  induction m as [|[k0 v0] m IH]; cbn; [discriminate|].
  intros Hd. inversion Hd as [|? ? Hn0 Hd0]; subst.
  destruct (String.eqb k k0).
  - intros [= <-] e He E. apply Hn0. rewrite <- E. apply in_map. exact He.
  - intros G e [<-|He].
    + cbn. intros E. apply Hn0. rewrite E.
      destruct (JsMap_get_In _ _ _ G) as [k' Hk].
      apply in_map_iff. exists (k', v). split; [reflexivity|exact Hk].
    + exact (IH Hd0 G e He).
Qed.

Lemma table_ok_deleted k (w : World) :
  table_ok w ->
  table_ok (set_messageCallbacksRef (JsMap.delete k (messageCallbacksRef w)) w).
Proof.
  intros (T1 & T2 & T3). split; [apply JsMap_delete_values, T1|]. split.
  - intros e He. exact (T2 e (JsMap_delete_In _ _ _ He)).
  - intros e t k0 He Ht Ha. exact (T3 e t k0 (JsMap_delete_In _ _ _ He) Ht Ha).
Qed.

Lemma unallocated_unsettled x (w : World) :
  allocated w -> (next_promise w <= x)%nat -> settled x w = false.
Proof.
  intros (Q1 & _) Hx. unfold settled.
  destruct (existsb _ _) eqn:E; [|reflexivity].
  apply existsb_exists in E. destruct E as (e & Hin & He).
  apply Nat.eqb_eq in He. rewrite forallb_forall in Q1.
  specialize (Q1 e Hin). apply alive_below in Q1.
  exfalso. unfold Promise in *. lia.
Qed.

Lemma keeps_kinds_registered r (w : World) :
  keeps_kinds w (set_reactions ((next_promise w, r) :: reactions w)
                   (set_next_promise (S (next_promise w)) w)).
Proof.
  split; [cbn; lia|]. split; [|split; [|split]].
  - intros c Hlt Hc. cbn [reactions set_reactions reactionOf].
    destruct (Nat.eqb_spec c (next_promise w)) as [E|_]; [|exact Hc].
    exfalso. unfold Promise in *. lia.
  - intros p Hi. unfold inner in *.
    cbn [reactions set_reactions reactionOf].
    destruct (Nat.eqb p (next_promise w)); [reflexivity|exact Hi].
  - intros e He. left. exact He.
  - intros t k p Ht _. left. exact Ht.
Qed.

(** Registering a request keeps the table in order: the promise is new. *)
Lemma table_ok_sendMessageInternal req r (w : World) :
  sound w -> caller_ok (callerOf r) w = true ->
  table_ok (snd (sendMessageInternal req r w)).
Proof.
  intros (W & A & I & T) C.
  unfold sendMessageInternal, newPromise. cbv beta iota.
  set (w1 := set_reactions _ _).
  assert (ok_step w w1) as S1
      by (apply (registered_ok w w1 r); auto; reflexivity).
  assert (table_ok w1) as T1
      by (revert T; apply table_ok_same; [reflexivity|reflexivity|auto]).
  assert (inner_ok w1) as I1
      by (exact (inner_ok_keeps w w1 I (keeps_kinds_registered r w))).
  pose proof (unallocated_unsettled (next_promise w) w A (le_n _)) as Hs.
  destruct A as (_ & Q2 & Q3 & _).
  rewrite forallb_forall in Q2, Q3.
  assert (forall e, In e (messageCallbacksRef w) -> snd e <> next_promise w)
    as Hfresh.
  { intros e He E. specialize (Q2 e He). apply alive_below in Q2.
    unfold Promise in *. lia. }
  assert (forall t k, In t (timers w) ->
                      action (snd t) <> RequestTimeout k (next_promise w))
    as Htimer.
  { intros t k Ht E. specialize (Q3 t Ht). unfold timerAvoids in Q3.
    rewrite E in Q3. apply alive_below in Q3. lia. }
  destruct (negb (currentIs OPEN w1)); cbn [snd].
  - apply table_ok_settle;
      [apply wf_reactions_ok, S1, W|exact I1|exact Hfresh|exact T1].
  - unfold Date_now, setTimer, ws_send. cbv beta iota zeta.
    destruct T as (N1 & N2 & N3).
    assert (forall (w2 : World) k tid d,
              settle_log w2 = settle_log w ->
              messageCallbacksRef w2
              = JsMap.set k (next_promise w) (messageCallbacksRef w) ->
              timers w2
              = timers w ++ [(tid, {| due := d;
                                      action := RequestTimeout k (next_promise w) |})] ->
              table_ok w2) as K.
    { intros w2 k tid d H1 H2 H3. unfold table_ok, settled.
      rewrite H1, H2, H3. split; [|split].
      - apply JsMap_set_values; [exact N1|].
        intros H. apply in_map_iff in H. destruct H as (e & He & Hin).
        exact (Hfresh e Hin He).
      - intros e He. destruct (JsMap_set_In_new _ _ _ _ He) as [H | ->].
        + exact (N2 e H).
        + exact Hs.
      - intros e t k0 He Ht Ha. apply in_app_or in Ht.
        destruct (JsMap_set_In_new _ _ _ _ He) as [H | ->].
        + destruct Ht as [Ht|[<-|[]]].
          * exact (N3 e t k0 H Ht Ha).
          * cbn [snd action] in Ha. injection Ha as _ Ha.
            exfalso. apply (Hfresh e H). symmetry. exact Ha.
        + cbn [fst snd] in *. destruct Ht as [Ht|[<-|[]]].
          * exfalso. exact (Htimer t k0 Ht Ha).
          * cbn [snd action] in Ha. injection Ha as Ha. symmetry. exact Ha. }
    break_match; eapply K; reflexivity.
Qed.

Lemma sound_sendMessageInternal req r (w : World) :
  sound w -> caller_ok (callerOf r) w = true ->
  sound (snd (sendMessageInternal req r w)).
Proof.
  intros S C. pose proof S as (W & A & I & T). split; [|split; [|split]].
  - apply (sendMessageInternal_ok req r w W C), W.
  - apply allocated_sendMessageInternal; assumption.
  - exact (inner_ok_keeps _ _ I (keeps_kinds_sendMessageInternal req r w)).
  - apply table_ok_sendMessageInternal; assumption.
Qed.

Lemma sound_settle_caller c o (w : World) :
  sound w -> caller_ok c w = true -> sound (settle c o w).
Proof.
  intros (W & A & I & T) C. pose proof C as C'.
  apply caller_ok_spec in C'. destruct C' as [Hlt Hc].
  split; [|split; [|split]].
  - apply settle_wf, W.
  - apply allocated_settle; assumption.
  - exact (inner_ok_keeps _ _ I (keeps_kinds_settle c o w)).
  - apply table_ok_settle;
      [apply wf_reactions_ok, W|exact I|apply (not_in_table c w I Hc)|exact T].
Qed.

Lemma sound_processOne (w : World) q :
  sound w -> caller_ok (q_caller q) w = true -> sound (processOne w q).
Proof.
  intros So C. rewrite processOne_eq.
  assert (sound (set_reads (S (reads w)) w)) as S1.
  { destruct So as (W & A & I & T).
    split; [exact W|split; [exact A|split; [exact I|exact T]]]. }
  destruct (expiredAt (clock (reads w)) q).
  - apply sound_settle_caller; assumption.
  - apply sound_sendMessageInternal; assumption.
Qed.

Lemma sound_drain qs : forall (w : World),
  sound w ->
  forallb (fun q => caller_ok (q_caller q) w) qs = true ->
  sound (fold_left processOne qs w).
Proof.
  induction qs as [|q qs IH]; intros w S Hq; cbn [fold_left]; [exact S|].
  cbn [forallb] in Hq. apply andb_true_iff in Hq. destruct Hq as [Hq Hqs].
  pose proof (processOne_ok w q (proj1 S) Hq) as S1.
  apply IH.
  - apply sound_processOne; assumption.
  - eapply extends_forallb; [apply S1|exact Hqs].
Qed.

Lemma sound_onopen (w : World) : sound w -> sound (onopen w).
Proof.
  intros S. rewrite onopen_eq.
  apply (sound_same_promises (processMessageQueue (onopen_prefix w)));
    [apply (startHeartbeat_same_promises _ 0%nat)|].
  assert (sound (onopen_prefix w)) as S1.
  { revert S. apply sound_same_promises. unfold onopen_prefix. cbn.
    destruct (reconnectTimeoutRef w) as [t|]; [|unchanged_promises].
    repeat split. intros t0 Ht. left. cbn in Ht. apply filter_In in Ht.
    tauto. }
  unfold processMessageQueue.
  destruct (negb (currentIs OPEN (onopen_prefix w))); [exact S1|].
  apply sound_drain.
  - destruct S1 as (W & A & I & T). split; [apply emptied_queue_wf, W|].
    split; [|split; [exact I|exact T]].
    destruct A as (Q1 & Q2 & Q3 & Q4 & Q5 & Q6 & Q7). repeat split; assumption.
  - exact (wf_queue_ok _ (proj1 S1)).
Qed.

Lemma settle_table p o (w : World) :
  messageCallbacksRef (settle p o w) = messageCallbacksRef w.
Proof.
  unfold settle. destruct (negb (settled p w)); [|reflexivity].
  change (reactions (logSettle p o w)) with (reactions w).
  destruct (reactionOf p (reactions w)) as [[c | c req cs] |]; try reflexivity.
  destruct o as [v|msg]; [reflexivity|].
  unfold sendMessageRoute, enqueue, sendHttpMessage, Date_now.
  destruct cs;
    cbn [messageCallbacksRef set_messageQueueRef set_reads set_http_calls];
    try reflexivity;
    match goal with
    |- messageCallbacksRef (reconnect ?x) = _ =>
        destruct (reconnect_same_promises (fun _ => false) 0%nat x)
          as (_ & H & _); exact H
    end.
Qed.

(** A [resolve] does not read the table: it can be moved past a change
    of the table. *)
Lemma settle_fulfilled_table p v m (w : World) :
  set_messageCallbacksRef m (settle p (Fulfilled v) w)
  = settle p (Fulfilled v) (set_messageCallbacksRef m w).
Proof.
  unfold settle, logSettle, settled.
  cbn [settle_log reactions set_settle_log set_messageCallbacksRef].
  match goal with |- context [negb ?b] => destruct (negb b) end;
    [|reflexivity].
  destruct (reactionOf p (reactions w)) as [[c | c req cs] |]; reflexivity.
Qed.

Lemma table_ok_onmessage m (w : World) :
  wf w = true -> inner_ok w -> table_ok w -> table_ok (onmessage m w).
Proof.
  intros W I T. unfold onmessage. destruct m as [|type data]; [exact T|].
  destruct (String.eqb type "pong"); [exact T|].
  destruct (String.eqb type "chat_response").
  - destruct data as [d|]; [|exact T].
    change (messageCallbacksRef (setLastMessage (Parsed type (Some d)) w))
      with (messageCallbacksRef w).
    destruct (JsMap.get (context_id d) (messageCallbacksRef w)) as [p|] eqn:G;
      [|exact T].
    rewrite settle_table, settle_fulfilled_table.
    set (w0 := set_messageCallbacksRef _ _).
    assert (table_ok w0) as T0
        by (exact (table_ok_deleted (context_id d) w T)).
    apply table_ok_settle; [exact (wf_reactions_ok w W)| |
                            exact (JsMap_delete_got _ _ _ (proj1 T) G)|exact T0].
    destruct I as [I1 I2]. split.
    + intros e He. exact (I1 e (JsMap_delete_In _ _ _ He)).
    + exact I2.
  - repeat break_match; exact T.
Qed.

Lemma table_ok_fire tid t (w : World) :
  wf w = true -> inner_ok w -> table_ok w ->
  findTimer tid (timers w) = Some t -> table_ok (fire tid t w).
Proof.
  intros W I T Hf. unfold fire.
  assert (table_ok (clearTimer tid w)) as T1.
  { revert T. apply table_ok_same; [reflexivity|reflexivity|].
    intros t0 k p Ht _. cbn in Ht. apply filter_In in Ht. apply Ht. }
  destruct (action t) as [k p| |] eqn:Ha.
  - unfold requestTimeout.
    destruct (JsMap.has k (messageCallbacksRef (clearTimer tid w)));
      [|exact T1].
    change (messageCallbacksRef (clearTimer tid w)) with (messageCallbacksRef w).
    set (w0 := set_messageCallbacksRef _ _).
    assert (table_ok w0) as T0 by (exact (table_ok_deleted k _ T1)).
    apply table_ok_settle; [exact (wf_reactions_ok w W)| | |exact T0].
    + destruct I as [I1 I2]. split.
      * intros e He. exact (I1 e (JsMap_delete_In _ _ _ He)).
      * intros t0 k0 p0 Ht. cbn in Ht. apply filter_In in Ht.
        apply (I2 t0 k0 p0), Ht.
    + intros e He E. subst w0. cbn [messageCallbacksRef set_messageCallbacksRef] in He.
      apply wf_spec in W. destruct W as (_ & _ & U).
      apply (JsMap_delete_key _ _ _ U He).
      destruct T as (_ & _ & T3). symmetry.
      apply (T3 e (tid, t) k (JsMap_delete_In _ _ _ He) (findTimer_In _ _ _ Hf)).
      cbn [snd]. rewrite Ha, E. reflexivity.
  - unfold reconnectTimerFired.
    apply (table_ok_same_promises
             (set_reconnectAttempts (S (reconnectAttempts (clearTimer tid w)))
                                    (clearTimer tid w)));
      [apply connect_same_promises|exact T1].
  - set (w1 := set_timers _ w).
    assert (table_ok w1) as T2.
    { revert T. apply table_ok_same; [reflexivity|reflexivity|].
      intros t0 k p Ht Hk. subst w1. cbn [timers set_timers] in Ht.
      apply in_map_iff in Ht. destruct Ht as (e & He & Hin).
      destruct (Nat.eqb (fst e) tid).
      - subst t0. cbn [snd action] in Hk. discriminate.
      - subst t0. exact Hin. }
    revert T2. apply table_ok_same;
      try (unfold heartbeatTick, Date_now, ws_send; cbv beta iota zeta;
           repeat break_match; reflexivity).
    intros t0 k p Ht _. revert Ht.
    unfold heartbeatTick, Date_now, ws_send; cbv beta iota zeta.
    repeat break_match; auto.
Qed.

Lemma newPromise_sound (w : World) :
  sound w ->
  sound (set_next_promise (S (next_promise w)) w)
  /\ caller_ok (next_promise w) (set_next_promise (S (next_promise w)) w) = true.
Proof.
  intros (W & A & I & T).
  set (w1 := set_next_promise (S (next_promise w)) w).
  assert (wf w1 = true /\ caller_ok (next_promise w) w1 = true) as [W1 C1].
  { apply wf_spec in W. destruct W as (Q & R & U).
    assert (forall c, caller_ok c w = true -> caller_ok c w1 = true) as E.
    { intros c. rewrite !caller_ok_spec. cbn. intros [? ?]. split; [lia|auto]. }
    split.
    - apply wf_spec. repeat split.
      + unfold queue_ok in *. rewrite forallb_forall in *.
        intros q Hin. apply E, Q, Hin.
      + unfold reactions_ok in *. rewrite forallb_forall in *.
        intros e Hin. specialize (R e Hin). apply andb_true_iff in R.
        destruct R as [R1 R2]. apply Nat.ltb_lt in R1.
        apply andb_true_iff. split; [apply Nat.ltb_lt; cbn; lia|apply E, R2].
      + exact U.
    - apply caller_ok_spec. cbn. split; [lia|].
      apply reactionOf_fresh. unfold reactions_ok in R.
      rewrite forallb_forall in R. intros e Hin. specialize (R e Hin).
      apply andb_true_iff in R. destruct R as [R1 _].
      apply Nat.ltb_lt in R1. exact R1. }
  split; [|exact C1]. split; [exact W1|]. split; [|split; [exact I|exact T]].
  apply (quiet_raise (next_promise w)); [apply wf_reactions_ok, W1|].
  destruct A as (Q1 & Q2 & Q3 & Q4 & Q5 & Q6 & Q7).
  repeat split; try assumption. cbn. lia.
Qed.

Lemma table_ok_sendMessage req (w : World) :
  sound w -> table_ok (snd (sendMessage req w)).
Proof.
  intros So. destruct (newPromise_sound w So) as [S1 C1].
  unfold sendMessage, newPromise. cbv beta iota.
  set (w1 := set_next_promise (S (next_promise w)) w) in *.
  destruct (currentIs OPEN w1); cbn [snd].
  - apply table_ok_sendMessageInternal; assumption.
  - apply table_ok_sendMessageRoute, S1.
Qed.

Lemma table_ok_step e (w w' : World) :
  sound w -> http_ok w -> step e w = Some w' -> table_ok w'.
Proof.
  intros S H. pose proof S as (W & A & I & T). destruct e; cbn [step].
  - intros [= <-]. apply (table_ok_same_promises w); [|exact T].
    apply connect_same_promises.
  - intros [= <-]. unfold unmount.
    set (w1 := match reconnectTimeoutRef w with Some _ => _ | None => _ end).
    assert (table_ok w1) as T1.
    { subst w1. destruct (reconnectTimeoutRef w); [|exact T].
      apply (table_ok_same_promises w); [|exact T].
      apply (clearTimer_same_promises _ 0%nat). }
    assert (table_ok (stopHeartbeat w1)) as T2
        by (apply (table_ok_same_promises w1);
            [apply (stopHeartbeat_same_promises _ 0%nat)|exact T1]).
    destruct (wsRef (stopHeartbeat w1)); [|exact T2].
    apply (table_ok_same_promises (stopHeartbeat w1)); [|exact T2].
    apply ws_close_same_promises.
  - destruct (readyStateOf s w) as [[]|]; try discriminate.
    intros [= <-].
    refine (proj2 (proj2 (proj2 (sound_onopen (setReadyState s OPEN w) _)))).
    split; [exact W|split; [exact A|split; [exact I|exact T]]].
  - destruct (readyStateOf s w) as [[]|]; try discriminate;
      intros [= <-]; apply table_ok_onmessage; assumption.
  - destruct (readyStateOf s w) as [[]|]; try discriminate;
      intros [= <-]; exact T.
  - destruct (readyStateOf s w) as [[]|]; try discriminate;
      intros [= <-];
      (pose proof (onclose_spec code (setReadyState s CLOSED w)) as Hc;
       cbn zeta in Hc; destruct Hc as (Hc & _);
       unfold table_ok; rewrite Hc;
       split; [constructor|split; [intros e []|intros e t k []]]).
  - destruct (findTimer tid (timers w)) as [t|] eqn:Hf; [|discriminate].
    destruct (due t <=? now w); [|discriminate].
    intros [= <-]. apply table_ok_fire; assumption.
  - intros [= <-]. apply table_ok_sendMessage, S.
  - intros [= <-]. apply (table_ok_same_promises w); [|exact T].
    apply (reconnect_same_promises _ 0%nat).
  - destruct (awaitsHttp c w) eqn:Ha; [|discriminate].
    intros [= <-].
    assert (caller_ok c w = true) as Hc.
    { unfold awaitsHttp in Ha. apply existsb_exists in Ha.
      destruct Ha as (e & He & Hec). apply Nat.eqb_eq in Hec. subst c.
      exact (H e He). }
    apply caller_ok_spec in Hc. destruct Hc as [_ Hc].
    apply table_ok_settle;
      [exact (wf_reactions_ok w W)|exact I|exact (not_in_table c w I Hc)|exact T].
  - intros [= <-]. exact T.
Qed.

Lemma sound_run es : forall (w w' : World),
  sound w -> http_ok w -> run es w = Some w' -> sound w'.
Proof.
  induction es as [|e es IH]; intros w w' S H; cbn [run].
  - intros [= <-]. exact S.
  - destruct (step e w) as [w1|] eqn:E; [|discriminate].
    apply IH; [|eapply http_ok_step; [apply S|exact H|exact E]].
    pose proof S as (W & A & I & T). split; [|split; [|split]].
    + eapply step_wf; eauto.
    + eapply allocated_step; eauto.
    + exact (inner_ok_keeps w w1 I (keeps_kinds_step e w w1 E)).
    + eapply table_ok_step; eauto.
Qed.

Lemma reachable_sound (w : World) : reachable w -> sound w.
Proof.
  intros [es H]. apply (sound_run es init w); [| |exact H].
  - split; [reflexivity|]. split; [repeat split; cbn; lia|].
    split; [split; [intros e []|intros t k p []]|].
    split; [constructor|split; [intros e []|intros e t k []]].
  - intros e [].
Qed.

(** X15.  In any reachable state, a 'chat_response' whose context_id is in the
    table reaches the caller who is waiting for it: the promise stored
    under the id, not settled so far, is fulfilled with the response
    data, the caller's promise that waits for it, not called so far, is
    fulfilled with the same data by one call, and the id leaves the
    table. *)
Theorem response_reaches_the_waiting_caller (w : World) d p :
  reachable w ->
  JsMap.get (context_id d) (messageCallbacksRef w) = Some p ->
  let w' := onmessage (Parsed "chat_response" (Some d)) w in
  exists r,
    reactionOf p (reactions w) = Some r
    /\ callsOf p w = []
    /\ stateOf p w' = Some (Fulfilled d)
    /\ callsOf (callerOf r) w = []
    /\ callsOf (callerOf r) w' = [Fulfilled d]
    /\ JsMap.has (context_id d) (messageCallbacksRef w') = false.
Proof.
  intros Hr G. cbn zeta.
  destruct (reachable_sound w Hr) as (W & _ & I & T).
  destruct (JsMap_get_In _ _ _ G) as [k' Hk].
  pose proof (proj1 I (k', p) Hk) as Hi. unfold inner in Hi. cbn [snd] in Hi.
  destruct (reactionOf p (reactions w)) as [r|] eqn:Er; [|discriminate].
  exists r. split; [reflexivity|].
  pose proof (proj1 (proj2 T) (k', p) Hk) as Hs. cbn [snd] in Hs.
  pose proof (callsOf_unsettled p w Hs) as Hp.
  pose proof (reactions_ok_caller p r w (wf_reactions_ok w W) Er) as C.
  apply caller_ok_spec in C. destruct C as [_ Hc].
  assert (callsOf (callerOf r) w = []) as Hcalls.
  { pose proof (reachable_linear w Hr _ Hc) as L. unfold weight in L.
    assert (1 <= holders (callerOf r) w)%nat as Hh.
    { unfold holders.
      match goal with
      | |- (1 <= ?a + ?b + ?x)%nat => assert (1 <= x)%nat as Hx; [|lia]
      end.
      apply (count_pos _ _ (p, r) (reactionOf_In _ _ _ Er)).
      cbn [fst snd]. rewrite Nat.eqb_refl, Hs. reflexivity. }
    destruct (callsOf (callerOf r) w) as [|x l]; [reflexivity|].
    cbn [List.length] in L. exfalso. lia. }
  assert (Nat.eqb p (callerOf r) = false) as Hne.
  { apply Nat.eqb_neq. intros E. rewrite <- E, Er in Hc. discriminate. }
  set (m := Parsed "chat_response" (Some d)).
  assert (onmessage m w
          = set_messageCallbacksRef
              (JsMap.delete (context_id d) (messageCallbacksRef w))
              (logSettle (callerOf r) (Fulfilled d)
                 (logSettle p (Fulfilled d) (setLastMessage m w)))) as ->.
  { unfold onmessage, m. cbn [String.eqb Ascii.eqb Bool.eqb].
    cbn [messageCallbacksRef setLastMessage]. rewrite G.
    rewrite settle_table. cbn [messageCallbacksRef setLastMessage].
    f_equal. unfold settle.
    change (settled p (setLastMessage (Parsed "chat_response" (Some d)) w))
      with (settled p w). rewrite Hs. cbn [negb].
    change (reactions (logSettle p (Fulfilled d)
                         (setLastMessage (Parsed "chat_response" (Some d)) w)))
      with (reactions w).
    rewrite Er. destruct r; reflexivity. }
  split; [exact Hp|].
  assert (forall x,
            callsOf x (set_messageCallbacksRef
                         (JsMap.delete (context_id d) (messageCallbacksRef w))
                         (logSettle (callerOf r) (Fulfilled d)
                            (logSettle p (Fulfilled d) (setLastMessage m w))))
            = (callsOf x w ++ (if Nat.eqb p x then [Fulfilled d] else []))
                ++ (if Nat.eqb (callerOf r) x then [Fulfilled d] else [])) as Hx.
  { intros x.
    transitivity (callsOf x (logSettle (callerOf r) (Fulfilled d)
                               (logSettle p (Fulfilled d) (setLastMessage m w))));
      [reflexivity|].
    rewrite !callsOf_logSettle. reflexivity. }
  split; [unfold stateOf; rewrite Hx, Hp, Nat.eqb_refl; reflexivity|].
  split; [exact Hcalls|].
  split; [rewrite Hx, Hcalls, Hne, Nat.eqb_refl; reflexivity|].
  apply JsMap_has_delete_same. apply wf_spec in W. apply W.
Qed.


(** *** isConnected and connectionState *)

Lemma keeps_indicators_refl (w : World) : keeps_indicators w w.
Proof. split; [reflexivity|left; reflexivity]. Qed.

Lemma keeps_indicators_trans (w1 w2 w3 : World) :
  keeps_indicators w1 w2 -> keeps_indicators w2 w3 -> keeps_indicators w1 w3.
Proof.
  intros [A1 A2] [B1 B2]. split; [congruence|].
  destruct B2 as [B2|[B2|B2]]; [rewrite B2; exact A2|auto|auto].
Qed.

Lemma keeps_indicators_same (w w' : World) :
  isConnected w' = isConnected w -> connectionState w' = connectionState w ->
  keeps_indicators w w'.
Proof. intros H1 H2. split; [exact H1|left; exact H2]. Qed.

Lemma indicators_ok_keeps (w w' : World) :
  indicators_ok w -> keeps_indicators w w' -> indicators_ok w'.
Proof.
  intros [I1 I2] [K1 K2]. unfold indicators_ok. rewrite K1.
  destruct K2 as [K2|[K2|K2]]; rewrite K2;
    [split; assumption|split; discriminate|split; discriminate].
Qed.

Lemma keeps_indicators_connect (w : World) : keeps_indicators w (connect w).
Proof.
  unfold connect. destruct (currentIs CONNECTING w);
    [apply keeps_indicators_refl|].
  cbv zeta. destruct (ctor_throws _).
  - unfold scheduleReconnect, setTimer. cbv beta iota zeta.
    destruct (_ <? _)%nat; split; cbn; auto.
  - split; cbn; auto.
Qed.

Lemma keeps_indicators_reconnect (w : World) : keeps_indicators w (reconnect w).
Proof.
  unfold reconnect.
  set (w1 := match reconnectTimeoutRef w with Some _ => _ | None => _ end).
  set (w2 := set_reconnectAttempts 0%nat w1).
  set (w3 := match wsRef w2 with Some _ => _ | None => _ end).
  apply (keeps_indicators_trans w w3); [|apply keeps_indicators_connect].
  apply keeps_indicators_same; subst w3 w2 w1;
    unfold ws_close, setReadyState, clearTimer; repeat break_match; reflexivity.
Qed.

Lemma keeps_indicators_sendMessageRoute req c cs (w : World) :
  keeps_indicators w (sendMessageRoute req c cs w).
Proof.
  assert (forall w0 : World, keeps_indicators w0 (enqueue req c w0)) as E
      by (intros w0; apply keeps_indicators_same; reflexivity).
  unfold sendMessageRoute. destruct cs.
  - apply E.
  - apply keeps_indicators_same; reflexivity.
  - exact (keeps_indicators_trans _ _ _ (keeps_indicators_reconnect w) (E _)).
  - exact (keeps_indicators_trans _ _ _ (keeps_indicators_reconnect w) (E _)).
Qed.

Lemma keeps_indicators_settle p o (w : World) :
  keeps_indicators w (settle p o w).
Proof.
  unfold settle.
  destruct (negb (settled p w)); [|apply keeps_indicators_same; reflexivity].
  change (reactions (logSettle p o w)) with (reactions w).
  destruct (reactionOf p (reactions w)) as [[c | c req cs] |];
    try (apply keeps_indicators_same; reflexivity).
  destruct o as [v|msg]; [apply keeps_indicators_same; reflexivity|].
  apply (keeps_indicators_trans w (logSettle p (Rejected msg) w));
    [apply keeps_indicators_same; reflexivity
    |apply keeps_indicators_sendMessageRoute].
Qed.

Lemma keeps_indicators_sendMessageInternal req r (w : World) :
  keeps_indicators w (snd (sendMessageInternal req r w)).
Proof.
  unfold sendMessageInternal, newPromise. cbv beta iota.
  set (w1 := set_reactions _ _).
  apply (keeps_indicators_trans w w1);
    [apply keeps_indicators_same; reflexivity|].
  destruct (negb (currentIs OPEN w1)); cbn [snd].
  - apply keeps_indicators_settle.
  - apply keeps_indicators_same; unfold Date_now, setTimer, ws_send;
      cbv beta iota zeta; break_match; reflexivity.
Qed.

Lemma keeps_indicators_processOne (w : World) q :
  keeps_indicators w (processOne w q).
Proof.
  rewrite processOne_eq.
  apply (keeps_indicators_trans w (set_reads (S (reads w)) w));
    [apply keeps_indicators_same; reflexivity|].
  destruct (expiredAt (clock (reads w)) q);
    [apply keeps_indicators_settle|apply keeps_indicators_sendMessageInternal].
Qed.

Lemma keeps_indicators_drain qs : forall (w : World),
  keeps_indicators w (fold_left processOne qs w).
Proof.
  induction qs as [|q qs IH]; intros w; cbn [fold_left];
    [apply keeps_indicators_refl|].
  exact (keeps_indicators_trans _ _ _ (keeps_indicators_processOne w q) (IH _)).
Qed.

Lemma indicators_ok_onopen (w : World) : indicators_ok (onopen w).
Proof.
  rewrite onopen_eq.
  assert (indicators_ok (onopen_prefix w)) as I0.
  { pose proof (onopen_prefix_frame w) as P. cbn zeta in P.
    destruct P as (_ & _ & _ & _ & _ & _ & _ & _ & _ & P1 & P2 & _).
    unfold indicators_ok. rewrite P1, P2. split; [reflexivity|discriminate]. }
  apply (indicators_ok_keeps (onopen_prefix w)); [exact I0|].
  apply (keeps_indicators_trans _ (processMessageQueue (onopen_prefix w))).
  - unfold processMessageQueue.
    destruct (negb (currentIs OPEN (onopen_prefix w)));
      [apply keeps_indicators_refl|].
    apply (keeps_indicators_trans _ (set_messageQueueRef [] (onopen_prefix w)));
      [apply keeps_indicators_same; reflexivity|apply keeps_indicators_drain].
  - apply keeps_indicators_same;
      unfold startHeartbeat, setTimer, clearTimer; cbv beta iota zeta;
      repeat break_match; reflexivity.
Qed.

Lemma keeps_indicators_onmessage m (w : World) :
  keeps_indicators w (onmessage m w).
Proof.
  unfold onmessage. destruct m as [|type data]; [apply keeps_indicators_refl|].
  destruct (String.eqb type "pong"); [apply keeps_indicators_refl|].
  destruct (String.eqb type "chat_response").
  - destruct data as [d|]; [|apply keeps_indicators_same; reflexivity].
    change (messageCallbacksRef (setLastMessage (Parsed type (Some d)) w))
      with (messageCallbacksRef w).
    destruct (JsMap.get (context_id d) (messageCallbacksRef w)) as [p|];
      [|apply keeps_indicators_same; reflexivity].
    apply (keeps_indicators_trans w (setLastMessage (Parsed type (Some d)) w));
      [apply keeps_indicators_same; reflexivity|].
    apply (keeps_indicators_trans _ (settle p (Fulfilled d)
                                       (setLastMessage (Parsed type (Some d)) w)));
      [apply keeps_indicators_settle|apply keeps_indicators_same; reflexivity].
  - repeat break_match; apply keeps_indicators_same; reflexivity.
Qed.

Lemma keeps_indicators_connectionLost_fold entries : forall (w : World),
  keeps_indicators w (fold_left connectionLost entries w).
Proof.
  induction entries as [|e entries IH]; intros w; cbn [fold_left];
    [apply keeps_indicators_refl|].
  refine (keeps_indicators_trans _ _ _ _ (IH _)).
  unfold connectionLost, Date_now. cbv beta iota.
  apply (keeps_indicators_trans w (set_reads (S (reads w)) w));
    [apply keeps_indicators_same; reflexivity|apply keeps_indicators_settle].
Qed.

Lemma indicators_ok_onclose code (w : World) : indicators_ok (onclose code w).
Proof.
  unfold onclose.
  set (w0 := set_wsRef None _).
  set (w1 := stopHeartbeat w0).
  assert (isConnected w1 = false /\ connectionState w1 = disconnected)
    as [H1 H2]
      by (subst w1 w0; unfold stopHeartbeat, clearTimer;
          break_match; split; reflexivity).
  destruct (keeps_indicators_connectionLost_fold (messageCallbacksRef w1) w1)
    as [K1 K2].
  set (w2 := fold_left connectionLost (messageCallbacksRef w1) w1) in *.
  rewrite H1 in K1. rewrite H2 in K2.
  assert (forall w3 : World,
            isConnected w3 = false -> connectionState w3 <> connected ->
            indicators_ok w3) as Hok.
  { intros w3 E1 E2. split; [intros E; contradiction|intros _; exact E1]. }
  assert (connectionState w2 <> connected) as K3
      by (destruct K2 as [K2|[K2|K2]]; rewrite K2; discriminate).
  repeat break_match.
  - apply Hok; unfold scheduleReconnect, setTimer; cbv beta iota zeta;
      cbn [isConnected connectionState set_reconnectTimeoutRef set_next_timer
           set_timers set_messageCallbacksRef]; assumption.
  - apply Hok; [exact K1|cbn; discriminate].
  - apply Hok; [exact K1|exact K3].
Qed.

Lemma keeps_indicators_fire tid t (w : World) :
  keeps_indicators w (fire tid t w).
Proof.
  unfold fire. destruct (action t) as [k p| |].
  - unfold requestTimeout.
    destruct (JsMap.has k (messageCallbacksRef (clearTimer tid w)));
      [|apply keeps_indicators_same; reflexivity].
    refine (keeps_indicators_trans _ _ _ _ (keeps_indicators_settle _ _ _)).
    apply keeps_indicators_same; reflexivity.
  - unfold reconnectTimerFired.
    refine (keeps_indicators_trans _ _ _ _ (keeps_indicators_connect _)).
    apply keeps_indicators_same; reflexivity.
  - set (w1 := set_timers _ w).
    apply (keeps_indicators_trans w w1);
      [apply keeps_indicators_same; reflexivity|].
    apply keeps_indicators_same; unfold heartbeatTick, Date_now, ws_send;
      cbv beta iota zeta; repeat break_match; reflexivity.
Qed.

Lemma keeps_indicators_sendMessage req (w : World) :
  keeps_indicators w (snd (sendMessage req w)).
Proof.
  unfold sendMessage, newPromise. cbv beta iota.
  set (w1 := set_next_promise (S (next_promise w)) w).
  apply (keeps_indicators_trans w w1);
    [apply keeps_indicators_same; reflexivity|].
  destruct (currentIs OPEN w1); cbn [snd];
    [apply keeps_indicators_sendMessageInternal
    |apply keeps_indicators_sendMessageRoute].
Qed.

Lemma indicators_ok_step e (w w' : World) :
  indicators_ok w -> step e w = Some w' -> indicators_ok w'.
Proof.
  intros I. destruct e; cbn [step].
  - intros [= <-]. exact (indicators_ok_keeps _ _ I (keeps_indicators_connect w)).
  - intros [= <-]. apply (indicators_ok_keeps w); [exact I|].
    apply keeps_indicators_same;
      unfold unmount, stopHeartbeat, ws_close, setReadyState, clearTimer;
      repeat break_match; reflexivity.
  - destruct (readyStateOf s w) as [[]|]; try discriminate.
    intros [= <-]. apply indicators_ok_onopen.
  - destruct (readyStateOf s w) as [[]|]; try discriminate;
      intros [= <-];
      exact (indicators_ok_keeps _ _ I (keeps_indicators_onmessage m w)).
  - destruct (readyStateOf s w) as [[]|]; try discriminate;
      intros [= <-]; (apply (indicators_ok_keeps w); [exact I|]);
      split; cbn; auto.
  - destruct (readyStateOf s w) as [[]|]; try discriminate;
      intros [= <-]; apply indicators_ok_onclose.
  - destruct (findTimer tid (timers w)) as [t|]; [|discriminate].
    destruct (due t <=? now w); [|discriminate].
    intros [= <-]. exact (indicators_ok_keeps _ _ I (keeps_indicators_fire tid t w)).
  - intros [= <-].
    exact (indicators_ok_keeps _ _ I (keeps_indicators_sendMessage req w)).
  - intros [= <-]. exact (indicators_ok_keeps _ _ I (keeps_indicators_reconnect w)).
  - destruct (awaitsHttp c w); [|discriminate].
    intros [= <-]. apply (indicators_ok_keeps w); [exact I|].
    refine (keeps_indicators_trans _ _ _ _ (keeps_indicators_settle _ _ _)).
    apply keeps_indicators_same; reflexivity.
  - intros [= <-]. exact I.
Qed.

Lemma indicators_ok_run es : forall (w w' : World),
  indicators_ok w -> run es w = Some w' -> indicators_ok w'.
Proof.
  induction es as [|e es IH]; intros w w' I; cbn [run].
  - intros [= <-]. exact I.
  - destruct (step e w) as [w1|] eqn:E; [|discriminate].
    apply IH. exact (indicators_ok_step e w w1 I E).
Qed.

(** X16.  The two indicators the provider exports never contradict each other:
    in every reachable state, [isConnected] is true whenever
    [connectionState] is 'connected' and false whenever it is
    'disconnected'. *)
Theorem connection_indicators_agree (w : World) :
  reachable w ->
  (connectionState w = connected -> isConnected w = true)
  /\ (connectionState w = disconnected -> isConnected w = false).
Proof.
  intros [es H]. apply (indicators_ok_run es init w); [|exact H].
  split; [discriminate|reflexivity].
Qed.


(** *** Registering under an id that is already pending *)

Lemma JsMap_get_value_key {V} k1 k2 (v : V) m :
  NoDup (map snd m) ->
  JsMap.get k1 m = Some v -> JsMap.get k2 m = Some v -> k1 = k2.
Proof.
  induction m as [|[k0 v0] m IH]; cbn; [discriminate|].
  intros Hd. inversion Hd as [|? ? Hn0 Hd0]; subst.
  destruct (String.eqb_spec k1 k0) as [->|H1],
           (String.eqb_spec k2 k0) as [->|H2].
  - reflexivity.
  - intros [= <-] G. exfalso. apply Hn0.
    destruct (JsMap_get_In _ _ _ G) as [k' Hk].
    apply in_map_iff. exists (k', v0). split; [reflexivity|exact Hk].
  - intros G [= <-]. exfalso. apply Hn0.
    destruct (JsMap_get_In _ _ _ G) as [k' Hk].
    apply in_map_iff. exists (k', v0). split; [reflexivity|exact Hk].
  - apply IH, Hd0.
Qed.

(** [sendMessageInternal] when the id it reads off the clock is already
    in the table, for the promise [p_old]. *)
Lemma sendMessageInternal_displaces (w : World) req r s p_old :
  sound w ->
  wsRef w = Some s -> readyStateOf s w = Some OPEN ->
  JsMap.get (toString (now w)) (messageCallbacksRef w) = Some p_old ->
  let messageId := toString (now w) in
  let p := fst (sendMessageInternal req r w) in
  let w' := snd (sendMessageInternal req r w) in
  p = next_promise w /\ p <> p_old
  /\ settle_log w' = settle_log w
  /\ wire w' = wire w ++ [(s, ChatFrame req messageId)]
  /\ JsMap.get messageId (messageCallbacksRef w') = Some p
  /\ (forall k, JsMap.get k (messageCallbacksRef w') <> Some p_old)
  /\ callsOf p_old w' = [].
Proof.
  intros (_ & A & _ & T) Hs Hr G. cbn zeta.
  destruct T as (T1 & T2 & _).
  destruct (JsMap_get_In _ _ _ G) as [k' Hk].
  assert (p_old <> next_promise w) as Hne.
  { destruct A as (_ & Q2 & _). rewrite forallb_forall in Q2.
    specialize (Q2 _ Hk). apply alive_below in Q2. cbn [snd] in Q2.
    unfold Promise in *. lia. }
  rewrite (sendMessageInternal_open req r s w Hs Hr). cbn [fst snd].
  cbn [messageCallbacksRef settle_log wire set_wire set_next_timer set_timers
       set_messageCallbacksRef].
  split; [reflexivity|].
  split; [congruence|]. split; [reflexivity|]. split; [reflexivity|].
  split; [rewrite JsMap_get_set, String.eqb_refl; reflexivity|]. split.
  - intros k. rewrite JsMap_get_set.
    destruct (String.eqb_spec k (toString (now w))) as [->|Hkne].
    + congruence.
    + intros G'. apply Hkne. exact (JsMap_get_value_key _ _ _ _ T1 G' G).
  - apply callsOf_unsettled. exact (T2 _ Hk).
Qed.

(** C2.  There is no duplicate check.  In any reachable state with the
    current socket open, when the id [Date.now().toString()] of a new
    request is already in the table for the promise [p_old] of an earlier
    request, the send does not fail: [sendMessage] settles nothing,
    sends the frame under that id and stores the new promise under it.
    The earlier callback is displaced: [p_old], which has not been
    settled, is no longer in the table under any id, so no response can
    reach it. *)
Theorem duplicate_id_displaces_the_pending_callback
        (w : World) req s p_old :
  reachable w ->
  wsRef w = Some s -> readyStateOf s w = Some OPEN ->
  JsMap.get (toString (now w)) (messageCallbacksRef w) = Some p_old ->
  let messageId := toString (now w) in
  let w' := snd (sendMessage req w) in
  settle_log w' = settle_log w
  /\ wire w' = wire w ++ [(s, ChatFrame req messageId)]
  /\ (exists p, p <> p_old
                /\ JsMap.get messageId (messageCallbacksRef w') = Some p)
  /\ (forall k, JsMap.get k (messageCallbacksRef w') <> Some p_old)
  /\ callsOf p_old w' = [].
Proof.
  intros Hreach Hs Hr G. cbn zeta.
  destruct (newPromise_sound w (reachable_sound w Hreach)) as [S1 _].
  unfold sendMessage, newPromise. cbv beta iota.
  set (w1 := set_next_promise (S (next_promise w)) w) in *.
  assert (currentIs OPEN w1 = true) as ->
      by (apply currentIs_true; exists s; split; assumption).
  cbn [snd].
  destruct (sendMessageInternal_displaces
              w1 req (Await (next_promise w) req (connectionState w1)) s p_old
              S1 Hs Hr G) as (_ & H1 & H2 & H3 & H4 & H5 & H6).
  cbn zeta in H1, H2, H3, H4, H5, H6.
  split; [exact H2|]. split; [exact H3|].
  split; [eexists; split; [exact H1|exact H4]|].
  split; [exact H5|exact H6].
Qed.

End Provider.

(** ** Backoff policy *)

Lemma reconnectDelay_small (a : nat) :
  (a < 5)%nat -> reconnectDelay a = 1000 * 2 ^ Z.of_nat a.
Proof.
  intros H. unfold reconnectDelay.
  assert (2 ^ Z.of_nat a <= 2 ^ 4) by (apply Z.pow_le_mono_r; lia).
  change (2 ^ 4) with 16 in *. lia.
Qed.

Lemma reconnectDelay_capped (a : nat) :
  (5 <= a)%nat -> reconnectDelay a = 30000.
Proof.
  intros H. unfold reconnectDelay.
  assert (2 ^ 5 <= 2 ^ Z.of_nat a) by (apply Z.pow_le_mono_r; lia).
  change (2 ^ 5) with 32 in *. lia.
Qed.

Lemma reconnectDelay_mono (a b : nat) :
  (a <= b)%nat -> reconnectDelay a <= reconnectDelay b.
Proof.
  intros H. unfold reconnectDelay.
  assert (2 ^ Z.of_nat a <= 2 ^ Z.of_nat b) by (apply Z.pow_le_mono_r; lia).
  lia.
Qed.

Lemma reconnectDelay_pos (a : nat) : 1000 <= reconnectDelay a.
Proof.
  unfold reconnectDelay.
  assert (0 < 2 ^ Z.of_nat a) by (apply Z.pow_pos_nonneg; lia).
  lia.
Qed.

(** C7.  The reconnect delay computed in [ws.onclose] and in the [catch] of
    [connect] is a function of the attempt count alone; for attempts
    [a < b] it satisfies [reconnectDelay a <= reconnectDelay b <= 30000];
    it is never zero; and it equals [min(cap, base * 2^attempt)] with
    [base = 1000] ms and [cap = 30000] ms. *)
Theorem reconnectDelay_policy (a b : nat) :
  (a < b)%nat ->
  reconnectDelay a <= reconnectDelay b <= 30000
  /\ 0 < reconnectDelay a /\ 0 < reconnectDelay b
  /\ reconnectDelay a = Z.min 30000 (1000 * 2 ^ Z.of_nat a)
  /\ reconnectDelay b = Z.min 30000 (1000 * 2 ^ Z.of_nat b).
Proof.
  intros Hab.
  pose proof (reconnectDelay_mono a b ltac:(lia)) as Hm.
  pose proof (reconnectDelay_pos a) as Ha.
  pose proof (reconnectDelay_pos b) as Hb.
  repeat split; try lia; unfold reconnectDelay; lia.
Qed.

Lemma reconnectDelay_policy_witness :
  reconnectDelay 2 <= reconnectDelay 7 <= 30000
  /\ 0 < reconnectDelay 2 /\ 0 < reconnectDelay 7
  /\ reconnectDelay 2 = Z.min 30000 (1000 * 2 ^ Z.of_nat 2)
  /\ reconnectDelay 7 = Z.min 30000 (1000 * 2 ^ Z.of_nat 7).
Proof. apply (reconnectDelay_policy 2 7). lia. Defined.

Example reconnectDelay_values :
  map reconnectDelay [0; 1; 2; 3; 4; 5; 9]%nat
  = [1000; 2000; 4000; 8000; 16000; 30000; 30000].
Proof. reflexivity. Qed.

(** ** The sample states are reachable *)

Example connectingWorld_reached :
  run burstClock neverThrows isoMillis [Mount] init = Some connectingWorld.
Proof. reflexivity. Qed.

Example openWorld_reached :
  run burstClock neverThrows isoMillis [Mount; SocketOpen 0%nat] init
  = Some openWorld.
Proof. reflexivity. Qed.

Example queuedWorld_reached :
  run burstClock neverThrows isoMillis
      [Mount; CallSendMessage (chat "A"); CallSendMessage (chat "B")] init
  = Some queuedWorld.
Proof. reflexivity. Qed.

Example staleWorld_reached :
  run slowClock neverThrows isoMillis [Mount; CallSendMessage (chat "A")] init
  = Some staleWorld.
Proof. reflexivity. Qed.

Example pendingWorld_reached :
  run burstClock neverThrows isoMillis
      [Mount; SocketOpen 0%nat; CallSendMessage (chat "A")] init
  = Some pendingWorld.
Proof. vm_compute. reflexivity. Qed.

Example closedWorld_reached :
  run burstClock neverThrows isoMillis [Mount; SocketClose 0%nat 1006] init
  = Some closedWorld.
Proof. vm_compute. reflexivity. Qed.

(** ** C1: two requests in the same millisecond *)

(** C1.  Requests A and B are sent on the open socket within the same
    millisecond; the server never answers.  Both get the message id
    "1000", so B's callback replaces A's in the table.  When A's timer
    runs it finds the id, removes B's entry and rejects A's promise; B's
    timer then finds nothing.  In the end nothing refers to B any more:
    the table, the queue and the list of HTTP calls hold nothing for its
    caller (promise 2), only the heartbeat timer is left, and whatever
    happens afterwards B's caller is never called. *)
Theorem same_millisecond_sends_lose_a_caller :
  exists w,
    run burstClock neverThrows isoMillis
        ([Mount; SocketOpen 0%nat;
          CallSendMessage (chat "A"); CallSendMessage (chat "B")]
           ++ repeat Idle 5 ++ [TimerFire 1%nat; TimerFire 2%nat]) init
    = Some w
    /\ wire w = [(0%nat, ChatFrame (chat "A") "1000");
                 (0%nat, ChatFrame (chat "B") "1000")]
    /\ stateOf 1%nat w = Some (Rejected "Message timeout")
    /\ callsOf 2%nat w = [] /\ callsOf 3%nat w = []
    /\ messageCallbacksRef w = [] /\ messageQueueRef w = []
    /\ http_calls w = [(0%nat, chat "A")]
    /\ map (fun t => action (snd t)) (timers w) = [HeartbeatInterval]
    /\ forall es w',
         run burstClock neverThrows isoMillis es w = Some w' ->
         callsOf 2%nat w' = [].
Proof.
  eexists. split; [vm_compute; reflexivity|]. repeat split.
  intros es w' Hrun.
  refine (quiet_never_called
            burstClock neverThrows isoMillis
            (fun x => Nat.eqb x 2 || Nat.eqb x 3)%bool 4%nat _ es 2%nat _ w'
            _ eq_refl Hrun).
  - intros x Hx. apply orb_true_iff in Hx.
    destruct Hx as [Hx|Hx]; apply Nat.eqb_eq in Hx; lia.
  - repeat split. cbn. lia.
Qed.

(** The same collision when the two requests were queued while connecting
    and are drained by [ws.onopen] within one millisecond: B's caller
    (promise 1) is never called. *)
Example drained_pair_loses_a_caller :
  exists w,
    run burstClock neverThrows isoMillis
        ([Mount; CallSendMessage (chat "A"); CallSendMessage (chat "B");
          SocketOpen 0%nat; Idle; TimerFire 0%nat; TimerFire 1%nat]) init
    = Some w
    /\ wire w = [(0%nat, ChatFrame (chat "A") "1000");
                 (0%nat, ChatFrame (chat "B") "1000")]
    /\ stateOf 0%nat w = Some (Rejected "Message timeout")
    /\ callsOf 1%nat w = []
    /\ messageCallbacksRef w = [] /\ messageQueueRef w = []
    /\ http_calls w = []
    /\ map (fun t => action (snd t)) (timers w) = [HeartbeatInterval].
Proof.
  eexists. split; [vm_compute; reflexivity|]. repeat split.
Qed.

(** ** C2: registering an id that is already pending *)

(** In the run of C1, the second registration under the id "1000"
    succeeds: nothing is rejected, and the table holds B's promise (3)
    where A's (1) was. *)
Lemma duplicate_id_is_overwritten :
  exists w,
    run burstClock neverThrows isoMillis
        [Mount; SocketOpen 0%nat;
         CallSendMessage (chat "A"); CallSendMessage (chat "B")] init
    = Some w
    /\ JsMap.get "1000" (messageCallbacksRef pendingWorld) = Some 1%nat
    /\ messageCallbacksRef w = [("1000", 3%nat)]
    /\ settle_log w = [].
Proof.
  eexists. split; [vm_compute; reflexivity|]. repeat split.
Qed.



(** ** C3: sending while disconnected *)

(** With the socket gone and [connectionState] 'disconnected',
    [sendMessage] queues the request and makes no HTTP call. *)
Lemma disconnected_send_is_queued_not_sent_over_http :
  connectionState closedWorld = disconnected
  /\ wsRef closedWorld = None
  /\ exists w,
       step burstClock neverThrows isoMillis (CallSendMessage (chat "A"))
            closedWorld = Some w
       /\ http_calls w = []
       /\ messageQueueRef w
          = [{| request := chat "A"; q_caller := 0%nat; q_timestamp := 1000 |}]
       /\ callsOf 0%nat w = [].
Proof.
  repeat split. eexists. split; [vm_compute; reflexivity|]. repeat split.
Qed.

Lemma sendMessage_disconnected_reconnects_and_enqueues_witness :
  let w' := snd (sendMessage burstClock neverThrows (chat "A") closedWorld) in
  http_calls w' = http_calls closedWorld
  /\ wsRef w' = Some 1%nat
  /\ readyStateOf 1%nat w' = Some CONNECTING
  /\ findTimer 0%nat (timers w') = None.
Proof.
  destruct (sendMessage_disconnected_reconnects_and_enqueues
              burstClock neverThrows (chat "A") closedWorld
              eq_refl (or_introl eq_refl))
    as (H1 & _ & _ & _ & _ & _ & H7 & _).
  destruct (H7 eq_refl) as (H71 & H72 & _ & _ & H75).
  cbn zeta. split; [exact H1|]. split; [exact H71|]. split; [exact H72|].
  exact (H75 0%nat eq_refl).
Defined.

(** ** C4: what a pending caller gets when the connection is lost *)

(** C4.  Request A is pending when the socket closes with code 1006.  The
    entry is removed and a reconnect timer is armed, but the caller's
    promise (0) is fulfilled, with a response whose message is
    'Connection lost', not rejected. *)
Theorem connection_loss_fulfils_the_caller :
  exists w,
    step burstClock neverThrows isoMillis (SocketClose 0%nat 1006) pendingWorld
    = Some w
    /\ stateOf 0%nat w
       = Some (Fulfilled {| message := "Connection lost"; context_id := "";
                            timestamp := isoMillis 1000 |})
    /\ messageCallbacksRef w = []
    /\ reconnectTimeoutRef w = Some 2%nat
    /\ findTimer 2%nat (timers w)
       = Some {| due := 1000 + reconnectDelay 0; action := ReconnectTimer |}.
Proof.
  eexists. split; [vm_compute; reflexivity|]. repeat split.
Qed.

(** ** C5: a stale message while disconnected *)

(** Request A is queued at time 0.  The socket closes, the reconnect timer
    runs, the next socket fails and closes: at time 1200000 the message is
    still in the queue and its caller has not been told anything. *)
Lemma stale_message_stays_queued_while_disconnected :
  exists w,
    run slowClock neverThrows isoMillis
        [Mount; CallSendMessage (chat "A"); SocketClose 0%nat 1006; Idle;
         TimerFire 0%nat; Idle; SocketError 1%nat; SocketClose 1%nat 1006] init
    = Some w
    /\ messageQueueRef w
       = [{| request := chat "A"; q_caller := 0%nat; q_timestamp := 0 |}]
    /\ now slowClock w - 0 > 300000
    /\ callsOf 0%nat w = []
    /\ isConnected w = false.
Proof.
  eexists. split; [vm_compute; reflexivity|]. repeat split.
Qed.

Lemma stale_message_expires_only_when_drained_witness :
  exists w',
    step slowClock neverThrows isoMillis (SocketOpen 0%nat) staleWorld = Some w'
    /\ messageQueueRef w' = []
    /\ stateOf 0%nat w' = Some (Rejected "Message expired").
Proof.
  refine (proj1 (stale_message_expires_only_when_drained
                   slowClock neverThrows isoMillis staleWorld
                   {| request := chat "A"; q_caller := 0%nat; q_timestamp := 0 |}
                   0%nat (or_introl eq_refl) eq_refl eq_refl eq_refl eq_refl _)).
  intros k Hk. change (reads staleWorld) with 1%nat in Hk.
  unfold slowClock. cbn [q_timestamp]. lia.
Defined.

(** ** C6: connect and reconnect on a live socket *)

(** With the socket open, [connect()] announces 'connecting' and replaces
    the socket by a new one; with the socket connecting, [reconnect()]
    closes it and creates another. *)
Lemma connect_on_open_socket_creates_another :
  currentIs OPEN openWorld = true
  /\ connect burstClock neverThrows openWorld <> openWorld
  /\ sockets (connect burstClock neverThrows openWorld) = [OPEN; CONNECTING]
  /\ wsRef (connect burstClock neverThrows openWorld) = Some 1%nat
  /\ connectionState (connect burstClock neverThrows openWorld) = connecting
  /\ currentIs CONNECTING connectingWorld = true
  /\ sockets (reconnect burstClock neverThrows connectingWorld) = [CLOSING; CONNECTING].
Proof.
  repeat split. intros H. apply (f_equal sockets) in H. discriminate H.
Qed.

Lemma connect_noop_while_connecting_witness :
  connect burstClock neverThrows connectingWorld = connectingWorld.
Proof.
  exact (proj1 (connect_noop_while_connecting burstClock neverThrows connectingWorld)
               eq_refl).
Defined.

(** ** C8: the handshake of a superseded socket *)

(** C8.  [reconnect()] is called on the open socket and request A is
    queued for the new one.  The close event of the old socket then
    clears [wsRef.current], so when the handshake of the new socket
    succeeds [processMessageQueue] returns at its guard: the counter is
    reset, [connectionState] is 'connected' and the heartbeat is started,
    but A stays in the queue, nothing is sent and A's caller is not
    called.  No reconnect timer is pending, and whatever event comes
    next leaves A in the queue. *)
Theorem superseded_socket_open_skips_the_drain :
  exists w,
    run burstClock neverThrows isoMillis
        [Mount; SocketOpen 0%nat; CallReconnect; CallSendMessage (chat "A");
         SocketClose 0%nat 1005; SocketOpen 1%nat] init
    = Some w
    /\ sockets w = [CLOSED; OPEN]
    /\ wsRef w = None
    /\ connectionState w = connected /\ isConnected w = true
    /\ messageQueueRef w
       = [{| request := chat "A"; q_caller := 0%nat; q_timestamp := 1000 |}]
    /\ wire w = []
    /\ callsOf 0%nat w = []
    /\ reconnectAttempts w = 0%nat
    /\ heartbeatTimeoutRef w = Some 2%nat
    /\ timers w = [(2%nat, {| due := 31000; action := HeartbeatInterval |})]
    /\ forall e w',
         step burstClock neverThrows isoMillis e w = Some w' ->
         exists new, messageQueueRef w' = messageQueueRef w ++ new.
Proof.
  eexists. split; [vm_compute; reflexivity|].
  do 10 (split; [reflexivity|]).
  intros e w' Hstep.
  refine (step_queue_kept burstClock neverThrows isoMillis e _ w' _ Hstep).
  intros s0 ->. cbn [step] in Hstep.
  destruct s0 as [|[|s0]]; cbn in Hstep; try discriminate Hstep.
  destruct s0; discriminate Hstep.
Qed.

Example queued_pair_sent_in_order :
  exists w,
    step burstClock neverThrows isoMillis (SocketOpen 0%nat) queuedWorld = Some w
    /\ wire w = [(0%nat, ChatFrame (chat "A") "1000");
                 (0%nat, ChatFrame (chat "B") "1000")]
    /\ messageQueueRef w = [] /\ reconnectAttempts w = 0%nat
    /\ heartbeatTimeoutRef w = Some 2%nat.
Proof.
  eexists. split; [vm_compute; reflexivity|]. repeat split.
Qed.

Lemma onopen_drains_queue_in_order_witness :
  exists w',
    step burstClock neverThrows isoMillis (SocketOpen 0%nat) queuedWorld = Some w'
    /\ reconnectAttempts w' = 0%nat
    /\ messageQueueRef w' = [].
Proof.
  destruct (onopen_drains_queue_in_order
              burstClock neverThrows isoMillis queuedWorld 0%nat
              eq_refl eq_refl eq_refl)
    as (w' & H1 & H2 & _ & H4 & _).
  exists w'. repeat split; assumption.
Defined.

(** ** C9: the request timeout *)



(** ** C10: heartbeat ticks *)

Lemma heartbeatTick_only_when_open_witness :
  heartbeatTick burstClock openWorld
  = set_wire [(0%nat, PingFrame 1000)] (set_reads 1%nat openWorld)
  /\ heartbeatTick burstClock connectingWorld = connectingWorld
  /\ heartbeatTick burstClock closedWorld = closedWorld.
Proof.
  destruct (heartbeatTick_only_when_open burstClock openWorld) as (H1 & _ & _).
  destruct (heartbeatTick_only_when_open burstClock connectingWorld)
    as (_ & H2 & _).
  destruct (heartbeatTick_only_when_open burstClock closedWorld)
    as (_ & H3 & _).
  split; [exact (H1 0%nat eq_refl eq_refl)|]. split.
  - apply H2. intros s [= <-]. discriminate.
  - apply H3. intros s [=].
Defined.

(** ** The further properties on the sample states *)

Example drainedWorld_reached :
  run burstClock neverThrows isoMillis
      [Mount; CallSendMessage (chat "A"); SocketOpen 0%nat] init
  = Some drainedWorld.
Proof. reflexivity. Qed.

Lemma repeated_response_settles_nothing_witness :
  let m := Parsed "chat_response" (Some answer) in
  settle_log (onmessage burstClock neverThrows m
                (onmessage burstClock neverThrows m pendingWorld))
  = settle_log (onmessage burstClock neverThrows m pendingWorld).
Proof.
  exact (proj1 (repeated_response_settles_nothing
                  burstClock neverThrows
                  (Parsed "chat_response" (Some answer)) pendingWorld eq_refl)).
Defined.

Lemma onclose_final_arms_no_timer_witness :
  In (1%nat, {| due := 31000; action := RequestTimeout "1000" 1%nat |})
     (timers (onclose burstClock neverThrows isoMillis 1000 pendingWorld))
  /\ reconnectTimeoutRef (onclose burstClock neverThrows isoMillis 1000 pendingWorld)
     = reconnectTimeoutRef pendingWorld.
Proof.
  destruct (onclose_final_arms_no_timer
              burstClock neverThrows isoMillis 1000 pendingWorld
              (or_introl eq_refl)) as (H1 & H2 & _).
  split; [|exact H2]. apply H1.
  split; [right; left; reflexivity|discriminate].
Defined.

Lemma drain_sends_or_rejects_every_message_witness :
  exists w' sent rejected,
    step burstClock neverThrows isoMillis (SocketOpen 0%nat) queuedWorld = Some w'
    /\ wire w' = wire queuedWorld ++ sent
    /\ settle_log w' = settle_log queuedWorld ++ rejected
    /\ (List.length sent + List.length rejected = 2)%nat.
Proof.
  destruct (drain_sends_or_rejects_every_message
              burstClock neverThrows isoMillis queuedWorld 0%nat
              eq_refl eq_refl eq_refl)
    as (w' & sent & rejected & H1 & H2 & H3 & H4 & _).
  exists w', sent, rejected. repeat split; assumption.
Defined.

Lemma requestTimeout_rejects_queued_caller_witness :
  callsOf 0%nat (requestTimeout burstClock neverThrows "1000" 1%nat drainedWorld)
  = [Rejected "Message timeout"].
Proof.
  refine (proj1 (requestTimeout_rejects_queued_caller
                   burstClock neverThrows drainedWorld "1000" 1%nat 0%nat
                   eq_refl eq_refl eq_refl eq_refl _)).
  discriminate.
Defined.

Lemma reconnect_opens_a_new_socket_witness :
  wsRef (reconnect burstClock neverThrows openWorld) = Some 1%nat
  /\ readyStateOf 0%nat (reconnect burstClock neverThrows openWorld)
     = Some CLOSING.
Proof.
  destruct (reconnect_opens_a_new_socket burstClock neverThrows openWorld eq_refl)
    as (H1 & _ & _ & _ & _ & _ & H7).
  split; [exact H1|]. exact (H7 0%nat OPEN eq_refl eq_refl).
Defined.

Lemma response_fulfils_the_sender_witness :
  callsOf (fst (sendMessage burstClock neverThrows (chat "A") openWorld))
          (onmessage burstClock neverThrows
             (Parsed "chat_response" (Some answer))
             (snd (sendMessage burstClock neverThrows (chat "A") openWorld)))
  = [Fulfilled answer].
Proof.
  refine (proj1 (proj2 (proj2 (response_fulfils_the_sender
                                 burstClock neverThrows isoMillis
                                 openWorld (chat "A") 0%nat answer
                                 _ eq_refl eq_refl eq_refl)))).
  exists [Mount; SocketOpen 0%nat]. reflexivity.
Defined.


Lemma frames_only_on_the_open_socket_witness :
  exists new,
    wire pendingWorld = wire openWorld ++ new
    /\ forall s f, In (s, f) new ->
                   wsRef pendingWorld = Some s
                   /\ readyStateOf s pendingWorld = Some OPEN.
Proof.
  exact (frames_only_on_the_open_socket
           burstClock neverThrows isoMillis
           (CallSendMessage (chat "A")) openWorld pendingWorld
           eq_refl eq_refl).
Defined.

Lemma at_most_one_heartbeat_interval_witness :
  (List.length (filter isHeartbeat (timers drainedWorld)) <= 1)%nat
  /\ heartbeatTimeoutRef drainedWorld = Some 1%nat.
Proof.
  assert (reachable burstClock neverThrows isoMillis drainedWorld) as R
      by (exists [Mount; CallSendMessage (chat "A"); SocketOpen 0%nat];
          reflexivity).
  destruct (at_most_one_heartbeat_interval
              burstClock neverThrows isoMillis drainedWorld R) as [H1 H2].
  split; [exact H1|].
  apply (H2 1%nat {| due := 31000; action := HeartbeatInterval |});
    [right; left; reflexivity|reflexivity].
Defined.

Lemma sendMessage_promise_settled_at_most_once_witness :
  let w' := onclose burstClock neverThrows isoMillis 1006
              (setReadyState 0%nat CLOSED
                 (onmessage burstClock neverThrows
                    (Parsed "chat_response" (Some answer)) pendingWorld)) in
  (holders 0%nat w' + List.length (callsOf 0%nat w') <= 1)%nat.
Proof.
  assert (reachable burstClock neverThrows isoMillis openWorld) as R
      by (exists [Mount; SocketOpen 0%nat]; reflexivity).
  assert (run burstClock neverThrows isoMillis
              [SocketMessage 0%nat (Parsed "chat_response" (Some answer));
               SocketClose 0%nat 1006]
              (snd (sendMessage burstClock neverThrows (chat "A") openWorld))
          = Some (onclose burstClock neverThrows isoMillis 1006
                    (setReadyState 0%nat CLOSED
                       (onmessage burstClock neverThrows
                          (Parsed "chat_response" (Some answer)) pendingWorld))))
    as Hrun by (vm_compute; reflexivity).
  exact (sendMessage_promise_settled_at_most_once
           burstClock neverThrows isoMillis (chat "A") _ openWorld _ R Hrun).
Defined.

Lemma unmount_stops_heartbeat_and_closes_witness :
  readyStateOf 0%nat (unmount pendingWorld) = Some CLOSING
  /\ messageCallbacksRef (unmount pendingWorld) = messageCallbacksRef pendingWorld.
Proof.
  assert (reachable burstClock neverThrows isoMillis pendingWorld) as R
      by (exists [Mount; SocketOpen 0%nat; CallSendMessage (chat "A")];
          reflexivity).
  destruct (unmount_stops_heartbeat_and_closes
              burstClock neverThrows isoMillis pendingWorld R)
    as (_ & _ & H3 & _ & H5 & _).
  split; [exact (H3 0%nat OPEN eq_refl eq_refl)|exact H5].
Defined.

Example fallbackWorld_reached :
  run burstClock neverThrows isoMillis
      (repeat Idle 6 ++ [TimerFire 1%nat]) pendingWorld
  = Some fallbackWorld.
Proof. vm_compute. reflexivity. Qed.

Lemma http_answer_settles_the_caller_witness :
  callsOf 0%nat
          (settle burstClock neverThrows 0%nat (Fulfilled answer)
                  (set_http_calls [] fallbackWorld))
  = [Fulfilled answer].
Proof.
  assert (reachable burstClock neverThrows isoMillis fallbackWorld) as R
      by (exists ([Mount; SocketOpen 0%nat; CallSendMessage (chat "A")]
                  ++ repeat Idle 6 ++ [TimerFire 1%nat]);
          vm_compute; reflexivity).
  exact (proj1 (proj2 (http_answer_settles_the_caller
                         burstClock neverThrows isoMillis
                         0%nat (Fulfilled answer) fallbackWorld _ R eq_refl))).
Defined.

Lemma response_reaches_the_waiting_caller_witness :
  callsOf 0%nat
          (onmessage burstClock neverThrows
             (Parsed "chat_response" (Some answer)) pendingWorld)
  = [Fulfilled answer].
Proof.
  assert (reachable burstClock neverThrows isoMillis pendingWorld) as R
      by (exists [Mount; SocketOpen 0%nat; CallSendMessage (chat "A")];
          reflexivity).
  destruct (response_reaches_the_waiting_caller
              burstClock neverThrows isoMillis pendingWorld answer 1%nat
              R eq_refl) as (r & Hr & _ & _ & _ & H & _).
  injection Hr as <-. exact H.
Defined.

Lemma connection_indicators_agree_witness : isConnected openWorld = true.
Proof.
  assert (reachable burstClock neverThrows isoMillis openWorld) as R
      by (exists [Mount; SocketOpen 0%nat]; reflexivity).
  exact (proj1 (connection_indicators_agree
                  burstClock neverThrows isoMillis openWorld R) eq_refl).
Defined.

(** Request A is pending under the id "1000" and B is sent in the same
    millisecond. *)
Lemma duplicate_id_displaces_the_pending_callback_witness :
  let w' := snd (sendMessage burstClock neverThrows (chat "B") pendingWorld) in
  JsMap.get "1000" (messageCallbacksRef pendingWorld) = Some 1%nat
  /\ settle_log w' = []
  /\ wire w' = [(0%nat, ChatFrame (chat "A") "1000");
                (0%nat, ChatFrame (chat "B") "1000")]
  /\ (forall k, JsMap.get k (messageCallbacksRef w') <> Some 1%nat)
  /\ callsOf 1%nat w' = [].
Proof.
  assert (reachable burstClock neverThrows isoMillis pendingWorld) as R
      by (exists [Mount; SocketOpen 0%nat; CallSendMessage (chat "A")];
          reflexivity).
  destruct (duplicate_id_displaces_the_pending_callback
              burstClock neverThrows isoMillis pendingWorld (chat "B")
              0%nat 1%nat R eq_refl eq_refl eq_refl)
    as (H1 & H2 & _ & H4 & H5).
  cbn zeta. split; [reflexivity|]. split; [exact H1|].
  split; [exact H2|]. split; [exact H4|exact H5].
Defined.
